(** * The recommendation core of movie-recommender-backend

    A shallow embedding of [src/api/recommend/recommender.py] (the serving
    wrapper), [src/api/recommend/models/__init__.py] (the variant registry)
    and of the two neural variants [models/NeuralMF.py] and
    [models/DeepFM.py]: their [predict], [recommend], [save] and [restore].

    Python exceptions are values of [exn]; mutation of [self], of the file
    system and of the call log is explicit state passing in the monad [M].
    The NumPy selection routines are taken by their documented contract
    ([numpy_ok]); a reference implementation makes every definition run. *)

From Stdlib Require Import ZArith QArith String List Permutation Sorted Lia.
From Stdlib Require Import Ascii DecimalString.
From stdpp Require Import base decidable option list sorting gmap strings.

Close Scope Q_scope.
Local Open Scope string_scope.
Local Open Scope nat_scope.
Local Open Scope list_scope.
Local Open Scope stdpp_scope.

(** ** Python values and exceptions *)

Module Py.

(** The exception classes the modelled code raises, with their message. *)
Inductive exn : Type :=
| ValueError (msg : string)
| KeyError (msg : string)
| IndexError (msg : string)
| FileNotFoundError (msg : string)
| FileExistsError (msg : string)
| NotADirectoryError (msg : string)
| AttributeError (msg : string)
| RuntimeError (msg : string)
| UnpicklingError (msg : string).

(** [str(n)] for an integer. *)
Definition str_Z (z : Z) : string := NilZero.string_of_int (Z.to_int z).
Definition str_nat (n : nat) : string := str_Z (Z.of_nat n).

(** A state-and-exception monad: a raised exception keeps the state it was
    raised in, as a Python exception keeps the mutations made before it. *)
Definition M (S A : Type) : Type := S -> (exn + A) * S.

Definition ret {S A} (a : A) : M S A := fun s => (inr a, s).
Definition raise {S A} (e : exn) : M S A := fun s => (inl e, s).
Definition bind {S A B} (m : M S A) (k : A -> M S B) : M S B :=
  fun s => match m s with
           | (inl e, s') => (inl e, s')
           | (inr a, s') => k a s'
           end.
Definition get {S} : M S S := fun s => (inr s, s).
Definition put {S} (s : S) : M S unit := fun _ => (inr tt, s).
Definition modify {S} (f : S -> S) : M S unit := fun s => (inr tt, f s).
Definition lift {S A} (r : exn + A) : M S A := fun s => (r, s).

(** [range(start, stop, step)] for a positive step; [stop] bounds the number
    of iterations. *)
Fixpoint range_fuel (fuel start stop step : nat) : list nat :=
  match fuel with
  | O => []
  | S fuel' =>
      if start <? stop then start :: range_fuel fuel' (start + step) stop step
      else []
  end.
Definition range (start stop step : nat) : list nat :=
  range_fuel stop start stop step.

(** [l[:stop]] for a Python integer [stop]: a negative bound counts from the
    end, and the bound is clipped to the length. *)
Definition slice_to {A} (l : list A) (stop : Z) : list A :=
  let n := Z.of_nat (length l) in
  let stop' := if (stop <? 0)%Z then Z.max 0 (stop + n) else Z.min stop n in
  take (Z.to_nat stop') l.

End Py.
Export Py.

(** [M S] with stdpp's monad notations: [x ← m; k] and [m;; k]. *)
#[export] Instance M_ret {S} : MRet (M S) := fun A a => ret a.
#[export] Instance M_bind {S} : MBind (M S) := fun A B k m => bind m k.

(** ** NumPy arrays of scores *)

Module Np.

(** A float64 score. Finite values are dyadic rationals and are kept as
    rationals; the two infinities are explicit. NaN does not occur: the
    network ends in a logistic function and the only other value written is
    [float('-inf')]. *)
Inductive score : Type :=
| NegInf
| Fin (q : Q)
| PosInf.

#[export] Instance score_inhabited : Inhabited score := populate NegInf.

(** Unary minus, [-scores]. *)
Definition neg (s : score) : score :=
  match s with
  | NegInf => PosInf
  | Fin q => Fin (- q)%Q
  | PosInf => NegInf
  end.

(** [a <= b] on floats. *)
Definition sle (a b : score) : bool :=
  match a, b with
  | NegInf, _ => true
  | _, PosInf => true
  | Fin x, Fin y => Qle_bool x y
  | _, _ => false
  end.

(** [a < b] and [a == b]. *)
Definition slt (a b : score) : bool := negb (sle b a).
Definition seqb (a b : score) : bool := sle a b && sle b a.

(** [np.zeros(n)]. *)
Definition zeros (n : nat) : list score := replicate n (Fin 0).

(** [a[idx]] for an index array [idx] (all indices in range). *)
Definition gather {A} `{Inhabited A} (a : list A) (idx : list nat) : list A :=
  (fun i => a !!! i) <$> idx.

(** [a[i:j] = vals]: the slice is replaced by [vals] when their lengths
    agree, a single value is broadcast over the slice (the prediction of a
    one-element batch is such a value), and NumPy refuses any other shape. *)
Definition setitem_slice (a : list score) (i j : nat) (vals : list score)
  : exn + list score :=
  let j' := Nat.min j (length a) in
  let i' := Nat.min i j' in
  if length vals =? j' - i' then inr (take i' a ++ vals ++ drop j' a)
  else if length vals =? 1 then
    inr (take i' a ++ replicate (j' - i') (vals !!! 0) ++ drop j' a)
  else inl (ValueError
    ("could not broadcast input array from shape (" +:+ str_nat (length vals)
       +:+ ",) into shape (" +:+ str_nat (j' - i') +:+ ",)")).

(** Normalisation of one Python index against an axis of size [n]. *)
Definition norm_index (n : nat) (i : Z) : exn + nat :=
  let zn := Z.of_nat n in
  if ((i <? - zn) || (zn <=? i))%Z then
    inl (IndexError ("index " +:+ str_Z i +:+ " is out of bounds for axis 0 with size "
                       +:+ str_nat n))
  else inr (Z.to_nat (if (i <? 0)%Z then i + zn else i)%Z).

(** [a[ctx] = v] for a list of integers [ctx]: every index is checked, then
    every position is overwritten. *)
Fixpoint norm_indices (n : nat) (ctx : list Z) : exn + list nat :=
  match ctx with
  | [] => inr []
  | i :: rest =>
      match norm_index n i with
      | inl e => inl e
      | inr p =>
          match norm_indices n rest with
          | inl e => inl e
          | inr ps => inr (p :: ps)
          end
      end
  end.

Definition setitem_list (a : list score) (ctx : list Z) (v : score)
  : exn + list score :=
  match norm_indices (length a) ctx with
  | inl e => inl e
  | inr ps => inr (foldl (fun acc p => <[p := v]> acc) a ps)
  end.

(** The part of NumPy whose result depends on the implementation:
    [np_select a kth] is [np.argpartition(a, kth)] for an admissible [kth],
    [np_argsort a] is [np.argsort(a)] with the default (unstable) kind. *)
Record numpy : Type := {
  np_select : list score -> nat -> list nat;
  np_argsort : list score -> list nat
}.

(** The documented contract of [argpartition]: a permutation of the
    positions in which position [kth] holds the element a sort would put
    there, nothing larger stands before it and nothing smaller after it. *)
Definition is_partition (a : list score) (kth : nat) (idx : list nat) : Prop :=
  idx ≡ₚ seq 0 (length a) /\
  forall i x p, idx !! i = Some x -> idx !! kth = Some p ->
    (i < kth -> sle (a !!! x) (a !!! p) = true) /\
    (kth < i -> sle (a !!! p) (a !!! x) = true).

(** The contract of [argsort]: a permutation that sorts [a]; nothing is
    said about the order of equal elements. *)
Definition is_argsort (a : list score) (idx : list nat) : Prop :=
  idx ≡ₚ seq 0 (length a) /\
  forall i j x y, i <= j -> idx !! i = Some x -> idx !! j = Some y ->
    sle (a !!! x) (a !!! y) = true.

Record numpy_ok (np : numpy) : Prop := {
  select_ok : forall a kth, kth < length a -> is_partition a kth (np_select np a kth);
  argsort_ok : forall a, is_argsort a (np_argsort np a)
}.

(** [np.argpartition(a, kth)]: a negative [kth] counts from the end; an
    out-of-range [kth] is refused unless the array is empty. *)
Definition argpartition (np : numpy) (a : list score) (kth : Z) : exn + list nat :=
  let n := Z.of_nat (length a) in
  let kth' := (if kth <? 0 then kth + n else kth)%Z in
  if negb (length a =? 0) && ((kth' <? 0) || (n <=? kth'))%Z then
    inl (ValueError ("kth(=" +:+ str_Z kth' +:+ ") out of bounds (" +:+ str_Z n +:+ ")"))
  else inr (np_select np a (Z.to_nat kth')).

(** [np.argsort(a)]. *)
Definition argsort (np : numpy) (a : list score) : list nat := np_argsort np a.

End Np.
Export Np.

(** ** A reference NumPy

    Both routines sort the positions with a merge sort; [rev_ties] chooses
    how equal elements are ordered. Any choice meets the contract, and the
    two are used together to show what the contract leaves open. *)

Module NpRef.

Definition idx_leb (rev_ties : bool) (a : list score) (i j : nat) : bool :=
  slt (a !!! i) (a !!! j)
  || (sle (a !!! i) (a !!! j) && (if rev_ties then j <=? i else i <=? j)).

Definition idx_le (rev_ties : bool) (a : list score) : relation nat :=
  fun i j => idx_leb rev_ties a i j = true.

#[export] Instance idx_le_dec rev_ties a : RelDecision (idx_le rev_ties a).
Proof. intros i j. unfold idx_le. apply _. Defined.

Definition sort_indices (rev_ties : bool) (a : list score) : list nat :=
  merge_sort (idx_le rev_ties a) (seq 0 (length a)).

(** Equal elements keep their order of appearance. *)
Definition numpy_ref : numpy :=
  {| np_select := fun a _ => sort_indices false a;
     np_argsort := sort_indices false |}.

(** [argpartition] lists equal elements from the last to the first. *)
Definition numpy_alt : numpy :=
  {| np_select := fun a _ => sort_indices true a;
     np_argsort := sort_indices false |}.

End NpRef.
Export NpRef.


(** ** PyTorch modules, checkpoints and the environment *)

Module Torch.

(** The two neural classes. *)
Inductive variant : Type := VNeuralMF | VDeepFM.

#[export] Instance variant_eq_dec : EqDecision variant.
Proof. solve_decision. Defined.

Definition cls_name (v : variant) : string :=
  match v with VNeuralMF => "NeuralMF" | VDeepFM => "DeepFM" end.

(** The key under which a class stores its layer sizes in a checkpoint. *)
Definition dims_key (v : variant) : string :=
  match v with VNeuralMF => "hidden_dims" | VDeepFM => "deep_hidden_dims" end.

(** A [state_dict]: the parameter tensors of a network. What is kept of
    them is the architecture whose keys they carry, the shapes of the
    tensors, and the function the network computes with them in evaluation
    mode (dropout inactive, batch normalisation on its running statistics):
    [sd_score u i] is the output of [forward] on the pair [(u, i)]. *)
Record state_dict : Type := {
  sd_arch : variant;
  sd_num_users : nat;
  sd_num_items : nat;
  sd_embedding_dim : nat;
  sd_hidden_dims : list nat;
  sd_score : nat -> nat -> Q
}.

(** [NeuralMFModel] / [DeepFMModel]: an [nn.Module] with its parameters. *)
Record module : Type := {
  md_dropout : Q;
  md_state : state_dict
}.

(** The dictionary written by [torch.save] in [save]. *)
Record checkpoint : Type := {
  ck_model_state_dict : state_dict;
  ck_num_users : nat;
  ck_num_items : nat;
  ck_embedding_dim : nat;
  ck_dims_key : string;
  ck_dims : list nat;
  ck_dropout : Q
}.

(** The content of a file: a checkpoint written by [torch.save], or
    anything else (the [.npy] and [.npz] files of the other variants). *)
Inductive file : Type :=
| FCheckpoint (ck : checkpoint)
| FOther (content : string).

(** The calls that are observed, as an instrumented run or a mock would
    record them: constructors and [restore] of model objects, forward
    passes of a network, the score computation of a class without a
    network, and the top-k selection. *)
Inductive event : Type :=
| CallNew (cls : string) (id : nat)
| CallRestore (id : nat) (ckpt : string)
| CallForward (users items : list nat)
| CallScore (cls : string) (context : list Z)
| CallTopK (top_k : Z).

(** The environment of the program: the files, the log of observed calls,
    the next object identity, and the values the random initialiser of a
    freshly built network draws. *)
Record world : Type := {
  fs : gmap string file;
  calls : list event;
  next_id : nat;
  init_score : nat -> nat -> Q
}.

Definition log {S} (e : event) : M (S * world) unit :=
  modify (fun '(s, w) =>
    (s, {| fs := fs w; calls := calls w ++ [e]; next_id := next_id w;
           init_score := init_score w |})).

Definition log_w (e : event) : M world unit :=
  modify (fun w =>
    {| fs := fs w; calls := calls w ++ [e]; next_id := next_id w;
       init_score := init_score w |}).

(** Run a computation on the environment next to an object [S]. *)
Definition in_world {S A} (m : M world A) : M (S * world) A :=
  fun '(s, w) => let '(r, w') := m w in (r, (s, w')).

(** [os.path.exists]. *)
Definition path_exists (w : world) (path : string) : bool :=
  bool_decide (is_Some (fs w !! path)).

(** [os.path.join(a, b)] for a relative [b]. *)
Definition ends_with_slash (a : string) : bool :=
  match String.get (String.length a - 1) a with
  | Some c => bool_decide (c = "/"%char)
  | None => false
  end.

Definition path_join (a b : string) : string :=
  if bool_decide (a = "") || ends_with_slash a then a +:+ b
  else a +:+ "/" +:+ b.

(** A path without its trailing slashes, which name the same file or
    directory. *)
Fixpoint rstrip_slash (path : string) : string :=
  match path with
  | EmptyString => EmptyString
  | String c rest =>
      let rest' := rstrip_slash rest in
      if bool_decide (c = "/"%char) && bool_decide (rest' = "") then EmptyString
      else String c rest'
  end.

(** The directories a path lies in, as it is written: its non-empty
    prefixes that end before a ["/"]. *)
Fixpoint prefixes_before_slash (before path : string) : list string :=
  match path with
  | EmptyString => []
  | String c rest =>
      (if bool_decide (c = "/"%char) && negb (bool_decide (before = ""))
       then [before] else [])
      ++ prefixes_before_slash (before +:+ String c EmptyString) rest
  end.

Definition ancestors (path : string) : list string := prefixes_before_slash "" path.

(** [os.makedirs(name, exist_ok=True)]. The environment records files,
    not directories: a path that is neither a file nor below one is a
    directory or can be made one, and making it changes no file. The
    empty name is refused, so is a name below a file, and a name that is
    a file. The message of [NotADirectoryError] ends with the path at
    which the creation stopped, which is left out. *)
Definition makedirs (name : string) : M world unit :=
  w ← get;
  if bool_decide (name = "") then
    raise (FileNotFoundError "[Errno 2] No such file or directory: ''")
  else if existsb (path_exists w) (ancestors (rstrip_slash name)) then
    raise (NotADirectoryError "[Errno 20] Not a directory")
  else if path_exists w (rstrip_slash name) then
    raise (FileExistsError ("[Errno 17] File exists: '" +:+ name +:+ "'"))
  else mret tt.

(** [torch.save(obj, path)]. *)
Definition torch_save (ck : checkpoint) (path : string) : M world unit :=
  modify (fun w =>
    {| fs := <[path := FCheckpoint ck]> (fs w); calls := calls w;
       next_id := next_id w; init_score := init_score w |}).

(** [torch.load(path)]; the message for a file that is not a checkpoint
    depends on its first byte and is cut short. *)
Definition torch_load (path : string) : M world checkpoint :=
  w ← get;
  match fs w !! path with
  | Some (FCheckpoint ck) => mret ck
  | Some (FOther _) => raise (UnpicklingError "invalid load key")
  | None => raise (FileNotFoundError ("[Errno 2] No such file or directory: '" +:+ path +:+ "'"))
  end.

(** [nn.Dropout(p)] accepts a probability between 0 and 1. The message of
    its error ends with the number, which is left out. *)
Definition dropout_ok (p : Q) : bool := Qle_bool 0 p && Qle_bool p 1.

Definition dropout_error : exn :=
  ValueError "dropout probability has to be between 0 and 1, but got ".

(** The constructor of the network of class [v]. Both classes build one
    [nn.Dropout(dropout)] for each hidden layer, so a list of layer sizes
    that is not empty needs a valid probability; [DeepFMModel] then reads
    [deep_hidden_dims[-1]] for the width of its output layer. The fresh
    parameters are the initialiser's. *)
Definition module_init (v : variant) (num_users num_items embedding_dim : nat)
    (dims : list nat) (dropout : Q) (w0 : nat -> nat -> Q) : exn + module :=
  match dims, v with
  | _ :: _, _ =>
      if dropout_ok dropout then
        inr {| md_dropout := dropout;
               md_state := {| sd_arch := v; sd_num_users := num_users;
                              sd_num_items := num_items;
                              sd_embedding_dim := embedding_dim;
                              sd_hidden_dims := dims; sd_score := w0 |} |}
      else inl dropout_error
  | [], VDeepFM => inl (IndexError "list index out of range")
  | [], VNeuralMF =>
      inr {| md_dropout := dropout;
             md_state := {| sd_arch := v; sd_num_users := num_users;
                            sd_num_items := num_items;
                            sd_embedding_dim := embedding_dim;
                            sd_hidden_dims := dims; sd_score := w0 |} |}
  end.

(** Two state dictionaries have the same keys and tensor shapes. *)
Definition same_shape (a b : state_dict) : bool :=
  bool_decide (sd_arch a = sd_arch b)
  && (sd_num_users a =? sd_num_users b) && (sd_num_items a =? sd_num_items b)
  && (sd_embedding_dim a =? sd_embedding_dim b)
  && bool_decide (sd_hidden_dims a = sd_hidden_dims b).

(** [module.load_state_dict(sd)] (strict): the parameters are replaced when
    keys and shapes agree. The message of the error lists the keys; only
    its head is kept. *)
Definition load_state_dict (md : module) (sd : state_dict) : exn + module :=
  if same_shape (md_state md) sd then
    inr {| md_dropout := md_dropout md; md_state := sd |}
  else
    inl (RuntimeError ("Error(s) in loading state_dict for "
                         +:+ cls_name (sd_arch (md_state md)) +:+ "Model")).

(** The error of an embedding lookup outside its table. *)
Definition index_out_of_range : exn := IndexError "index out of range in self".

(** One pair of [forward]: the embedding lookups refuse an index outside
    their table. *)
Definition forward_pair (md : module) (u i : nat) : exn + score :=
  if (u <? sd_num_users (md_state md)) && (i <? sd_num_items (md_state md))
  then inr (Fin (sd_score (md_state md) u i))
  else inl index_out_of_range.

Fixpoint forward_pairs (md : module) (users items : list nat) : exn + list score :=
  match users, items with
  | u :: users', i :: items' =>
      match forward_pair md u i with
      | inl e => inl e
      | inr s =>
          match forward_pairs md users' items' with
          | inl e => inl e
          | inr ss => inr (s :: ss)
          end
      end
  | _, _ => inr []
  end.

(** [self.model(batch_users, batch_items)] in evaluation mode. *)
Definition forward (md : module) (batch_users batch_items : list nat)
  : M world (list score) :=
  log_w (CallForward batch_users batch_items);;
  lift (forward_pairs md batch_users batch_items).

End Torch.
Export Torch.

(** ** The scoring models [NeuralMF] and [DeepFM]

    The two classes differ in the network they build, in the name of the
    checkpoint file and in the key of the layer sizes; the text of
    [predict], [recommend], [save] and [restore] is otherwise the same in
    [NeuralMF.py] and [DeepFM.py], and is embedded once, for a variant [v]. *)

Module Neural.

(** The attributes of an instance. *)
Record t : Type := {
  embedding_dim : nat;
  hidden_dims : list nat;
  dropout : Q;
  batch_size : nat;
  epochs : nat;
  learning_rate : Q;
  num_users : nat;
  num_items : nat;
  model : option module;
  model_loaded : bool
}.

(** [__init__] with the default arguments. *)
Definition new : t :=
  {| embedding_dim := 64; hidden_dims := [128; 64]; dropout := (2 # 10)%Q;
     batch_size := 256; epochs := 20; learning_rate := (1 # 1000)%Q;
     num_users := 0; num_items := 0; model := None; model_loaded := false |}.

(** A sparse rating matrix: its shape and its entries. *)
Record rating_matrix : Type := {
  rm_shape : nat * nat;
  rm_entry : nat -> nat -> Q
}.

(** [rating_matrix.nonzero()]: the positions of the nonzero entries. *)
Definition nonzero (rm : rating_matrix) : list (nat * nat) :=
  flat_map
    (fun r => map (fun c => (r, c))
                (List.filter (fun c => negb (Qeq_bool (rm_entry rm r c) 0))
                   (seq 0 (snd (rm_shape rm)))))
    (seq 0 (fst (rm_shape rm))).

(** A [for] loop that threads the value it updates. *)
Fixpoint for_each {S A B} (l : list A) (acc : B) (body : A -> B -> M S B) : M S B :=
  match l with
  | [] => mret acc
  | x :: l' => acc' ← body x acc; for_each l' acc' body
  end.

(** [self.model.eval()]: the network, when there is one. *)
Definition eval_mode (self : t) : M world module :=
  match model self with
  | Some md => mret md
  | None => raise (AttributeError "'NoneType' object has no attribute 'eval'")
  end.

(** The inner loop of [predict] and of [recommend]: the items are scored
    for user [u] in batches of 1000, each batch written to its slice of
    the target by [write]. *)
Definition batch_loop {T} (md : module) (u num_items : nat)
    (write : T -> nat -> nat -> list score -> exn + T) (target : T) : M world T :=
  let user_tensor := replicate num_items u in
  let item_tensor := seq 0 num_items in
  let batch_size := 1000 in
  for_each (range 0 num_items batch_size) target (fun i target =>
    let end_idx := Nat.min (i + batch_size) num_items in
    let batch_items := take (end_idx - i) (drop i item_tensor) in
    let batch_users := take (end_idx - i) (drop i user_tensor) in
    batch_pred ← forward md batch_users batch_items;
    lift (write target i end_idx batch_pred)).

(** [predictions[u, i:j] = vals]. *)
Definition setitem_row_slice (u : nat) (p : list (list score)) (i j : nat)
    (vals : list score) : exn + list (list score) :=
  match p !! u with
  | None => inl (IndexError ("index " +:+ str_nat u +:+ " is out of bounds for axis 0 with size "
                               +:+ str_nat (length p)))
  | Some row =>
      match setitem_slice row i j vals with
      | inl e => inl e
      | inr row' => inr (<[u := row']> p)
      end
  end.

(** [predictions[rows, cols] = v]. *)
Definition setitem_positions (p : list (list score)) (pos : list (nat * nat))
    (v : score) : list (list score) :=
  foldl (fun acc '(r, c) => alter (fun row => <[c := v]> row) r acc) p pos.

Definition not_loaded : exn := ValueError "Model not loaded. Call restore() first.".

(** [predict(self, rating_matrix)]. *)
Definition predict (self : t) (rm : rating_matrix) : M world (list (list score)) :=
  if negb (model_loaded self) then raise not_loaded
  else
    md ← eval_mode self;
    let '(num_users, num_items) := rm_shape rm in
    let all_users := seq 0 num_users in
    let predictions := replicate num_users (zeros num_items) in
    predictions ← for_each all_users predictions (fun u predictions =>
      batch_loop md u num_items (setitem_row_slice u) predictions);
    mret (setitem_positions predictions (nonzero rm) NegInf).

(** The last two statements of [recommend]:
    [np.argpartition(-scores, top_k)[:top_k]], then the selected indices
    reordered by [np.argsort] of their negated scores. *)
Definition top_k_select (np : numpy) (scores : list score) (top_k : Z)
  : exn + list nat :=
  match argpartition np (neg <$> scores) top_k with
  | inl e => inl e
  | inr part =>
      let top_k_indices := slice_to part top_k in
      inr (gather top_k_indices
             (argsort np (neg <$> gather scores top_k_indices)))
  end.

(** [recommend(self, user_context, top_k)]; the result is the list of
    Python integers of [tolist()]. *)
Definition recommend (np : numpy) (self : t) (user_context : list Z) (top_k : Z)
  : M world (list Z) :=
  if negb (model_loaded self) then raise not_loaded
  else if length user_context =? 0 then mret []
  else
    md ← eval_mode self;
    let user_id := 0 in
    scores ← batch_loop md user_id (num_items self) setitem_slice
               (zeros (num_items self));
    scores ← lift (setitem_list scores user_context NegInf);
    log_w (CallTopK top_k);;
    top_k_indices ← lift (top_k_select np scores top_k);
    mret (Z.of_nat <$> top_k_indices).

(** [save_filename]. *)
Definition save_filename (v : variant) (self : t) : string :=
  cls_name v +:+ "_emb" +:+ str_nat (embedding_dim self) +:+ ".pth".

(** [save(self, save_dir)]: the directory is made first, then the
    dictionary is built, which reads the network, and written. *)
Definition save (v : variant) (self : t) (save_dir : string) : M world unit :=
  makedirs save_dir;;
  let save_path := path_join save_dir (save_filename v self) in
  match model self with
  | None => raise (AttributeError "'NoneType' object has no attribute 'state_dict'")
  | Some md =>
      torch_save
        {| ck_model_state_dict := md_state md;
           ck_num_users := num_users self;
           ck_num_items := num_items self;
           ck_embedding_dim := embedding_dim self;
           ck_dims_key := dims_key v;
           ck_dims := hidden_dims self;
           ck_dropout := dropout self |}
        save_path
  end.

(** Assignments to the attributes of [self]. *)
Definition set_num_users (n : nat) (self : t) : t :=
  {| embedding_dim := embedding_dim self; hidden_dims := hidden_dims self;
     dropout := dropout self; batch_size := batch_size self; epochs := epochs self;
     learning_rate := learning_rate self; num_users := n;
     num_items := num_items self; model := model self;
     model_loaded := model_loaded self |}.
Definition set_num_items (n : nat) (self : t) : t :=
  {| embedding_dim := embedding_dim self; hidden_dims := hidden_dims self;
     dropout := dropout self; batch_size := batch_size self; epochs := epochs self;
     learning_rate := learning_rate self; num_users := num_users self;
     num_items := n; model := model self; model_loaded := model_loaded self |}.
Definition set_embedding_dim (n : nat) (self : t) : t :=
  {| embedding_dim := n; hidden_dims := hidden_dims self;
     dropout := dropout self; batch_size := batch_size self; epochs := epochs self;
     learning_rate := learning_rate self; num_users := num_users self;
     num_items := num_items self; model := model self;
     model_loaded := model_loaded self |}.
Definition set_hidden_dims (l : list nat) (self : t) : t :=
  {| embedding_dim := embedding_dim self; hidden_dims := l;
     dropout := dropout self; batch_size := batch_size self; epochs := epochs self;
     learning_rate := learning_rate self; num_users := num_users self;
     num_items := num_items self; model := model self;
     model_loaded := model_loaded self |}.
Definition set_dropout (p : Q) (self : t) : t :=
  {| embedding_dim := embedding_dim self; hidden_dims := hidden_dims self;
     dropout := p; batch_size := batch_size self; epochs := epochs self;
     learning_rate := learning_rate self; num_users := num_users self;
     num_items := num_items self; model := model self;
     model_loaded := model_loaded self |}.
Definition set_model (md : option module) (self : t) : t :=
  {| embedding_dim := embedding_dim self; hidden_dims := hidden_dims self;
     dropout := dropout self; batch_size := batch_size self; epochs := epochs self;
     learning_rate := learning_rate self; num_users := num_users self;
     num_items := num_items self; model := md;
     model_loaded := model_loaded self |}.
Definition set_model_loaded (b : bool) (self : t) : t :=
  {| embedding_dim := embedding_dim self; hidden_dims := hidden_dims self;
     dropout := dropout self; batch_size := batch_size self; epochs := epochs self;
     learning_rate := learning_rate self; num_users := num_users self;
     num_items := num_items self; model := model self; model_loaded := b |}.

Definition update {W} (f : t -> t) : M (t * W) unit :=
  modify (fun '(self, w) => (f self, w)).

Definition newline : string := String (ascii_of_nat 10) EmptyString.

Definition restore_missing (v : variant) (ckpt : string) : exn :=
  FileNotFoundError
    (cls_name v +:+ " checkpoint file not found: " +:+ ckpt +:+ newline +:+
     "Please train the model first using fit_offline.py or ensure the checkpoint file exists.").

(** [checkpoint[key]] for the layer sizes. *)
Definition getitem_dims (checkpoint : checkpoint) (key : string) : exn + list nat :=
  if bool_decide (ck_dims_key checkpoint = key) then inr (ck_dims checkpoint)
  else inl (KeyError ("'" +:+ key +:+ "'")).

(** [restore(self, ckpt)]: the attributes are assigned one after the other,
    so an exception leaves the ones already assigned. *)
Definition restore (v : variant) (ckpt : string) : M (t * world) unit :=
  '(_, w) ← get;
  if negb (path_exists w ckpt) then raise (restore_missing v ckpt)
  else
    checkpoint ← in_world (torch_load ckpt);
    update (set_num_users (ck_num_users checkpoint));;
    update (set_num_items (ck_num_items checkpoint));;
    update (set_embedding_dim (ck_embedding_dim checkpoint));;
    dims ← lift (getitem_dims checkpoint (dims_key v));
    update (set_hidden_dims dims);;
    update (set_dropout (ck_dropout checkpoint));;
    '(self, w) ← get;
    md ← lift (module_init v (num_users self) (num_items self) (embedding_dim self)
                 (hidden_dims self) (dropout self) (init_score w));
    update (set_model (Some md));;
    md ← lift (load_state_dict md (ck_model_state_dict checkpoint));
    update (set_model (Some md));;
    update (set_model_loaded true).

End Neural.

(** The modules of the source, by name. *)
Module NeuralMF.
Definition predict := Neural.predict.
Definition recommend := Neural.recommend.
Definition save := Neural.save VNeuralMF.
Definition restore := Neural.restore VNeuralMF.
End NeuralMF.

Module DeepFM.
Definition predict := Neural.predict.
Definition recommend := Neural.recommend.
Definition save := Neural.save VDeepFM.
Definition restore := Neural.restore VDeepFM.
End DeepFM.

(** ** The classes without a network, [EASE] and [ItemKNN] *)

Module NonNeural.

(** Modelled from the spec: an instance of [EASE] or [ItemKNN], the
    classes of [recommend/models/EASE.py] and [recommend/models/ItemKNN.py],
    which are not among the sources. The spec (4.1) leaves their algorithm
    open: what it says of an instance is that it is loaded or not, and that
    its scoring path turns a context and [topK] into a ranked list of item
    ids. *)
Record t : Type := {
  loaded : bool;
  scoring_path : list Z -> Z -> list Z
}.

(** Modelled from the spec: [recommend(context, topK)] of [EASE] and
    [ItemKNN], which are not among the sources. The spec (4.1): it
    "requires loaded state (NotLoaded otherwise)"; "empty context returns
    an empty list without invoking the scoring path"; otherwise the
    variants without a network "aggregate item-item relationships directly
    over context" and rank: the score computation and the selection are
    observed in the call log. *)
Definition recommend (cls : string) (self : t) (context : list Z) (top_k : Z)
  : M world (list Z) :=
  if negb (loaded self) then raise Neural.not_loaded
  else if length context =? 0 then mret []
  else
    log_w (CallScore cls context);;
    log_w (CallTopK top_k);;
    mret (scoring_path self context top_k).

End NonNeural.

Module EASE.
Definition recommend := NonNeural.recommend "EASE".
End EASE.

Module ItemKNN.
Definition recommend := NonNeural.recommend "ItemKNN".
End ItemKNN.

(** ** The variant registry, [models/__init__.py] *)

Module Registry.

(** What the wrapper uses of a model class: its constructor without
    arguments, [restore], and [recommend] with its default [top_k]. *)
Class ScoringModel (T : Type) : Type := {
  sm_new : T;
  sm_restore : string -> M (T * world) unit;
  sm_recommend : T -> list Z -> M world (list Z)
}.

Definition neural_model (v : variant) (np : numpy) : ScoringModel Neural.t :=
  {| sm_new := Neural.new;
     sm_restore := Neural.restore v;
     sm_recommend := fun self user_context => Neural.recommend np self user_context 10 |}.

(** The four classes of the registry. *)
Inductive cls : Type := EASE | ItemKNN | NeuralMF | DeepFM.

Definition cls_str (c : cls) : string :=
  match c with
  | EASE => "EASE" | ItemKNN => "ItemKNN" | NeuralMF => "NeuralMF" | DeepFM => "DeepFM"
  end.

Definition BASE_DIR : string := "recommend/ckpt".

Definition model_to_ckpt : gmap string string :=
  list_to_map
    [ ("EASE", path_join BASE_DIR "EASE_100.npy");
      ("ItemKNN", path_join BASE_DIR "ItemKNN_100.npz");
      ("NeuralMF", path_join BASE_DIR "NeuralMF_emb64.pth");
      ("DeepFM", path_join BASE_DIR "DeepFM_emb64.pth") ].

(** The neural classes are registered only when PyTorch can be imported. *)
Definition model_to_cls (NEURAL_MODELS_AVAILABLE : bool) : gmap string cls :=
  let base : gmap string cls := list_to_map [("EASE", EASE); ("ItemKNN", ItemKNN)] in
  if NEURAL_MODELS_AVAILABLE then
    <["DeepFM" := DeepFM]> (<["NeuralMF" := NeuralMF]> base)
  else base.

End Registry.
Export Registry.

(** ** The serving wrapper, [recommender.py] *)

Module RecommenderWrapper.

Section Wrapper.

(** The classes [EASE] and [ItemKNN] are not part of this development:
    their instances and methods are parameters. *)
Context {EASE_t ItemKNN_t : Type}.
Context (ease : ScoringModel EASE_t) (knn : ScoringModel ItemKNN_t).
Context (np : numpy) (NEURAL_MODELS_AVAILABLE : bool).

(** A model object of one of the four classes. *)
Inductive instance : Type :=
| IEASE (m : EASE_t)
| IItemKNN (m : ItemKNN_t)
| INeuralMF (m : Neural.t)
| IDeepFM (m : Neural.t).

(** The attributes of the wrapper; a model object is held with its
    identity. *)
Record t : Type := {
  model_name : option string;
  model : option (nat * instance)
}.

(** [__init__]. *)
Definition new : t := {| model_name := None; model := None |}.

Definition set_model_name (n : option string) (self : t) : t :=
  {| model_name := n; model := model self |}.
Definition set_model_slot (m : option (nat * instance)) (self : t) : t :=
  {| model_name := model_name self; model := m |}.

Definition update (f : t -> t) : M (t * world) unit :=
  modify (fun '(self, w) => (f self, w)).

(** [model_to_cls[new_model]()]: a new object with a new identity. *)
Definition construct (c : cls) : M (t * world) (nat * instance) :=
  '(_, w) ← get;
  let id := next_id w in
  modify (fun '(self, w) =>
    (self, {| fs := fs w; calls := calls w; next_id := S (next_id w);
              init_score := init_score w |}));;
  log (CallNew (cls_str c) id);;
  mret (id, match c with
            | EASE => IEASE sm_new
            | ItemKNN => IItemKNN sm_new
            | NeuralMF => INeuralMF Neural.new
            | DeepFM => IDeepFM Neural.new
            end).

(** [obj.restore(ckpt)], by the class of [obj]; the object is mutated in
    place, also when the call raises. *)
Definition instance_restore (ckpt : string) : M (instance * world) unit :=
  fun '(obj, w) =>
    match obj with
    | IEASE m => let '(r, (m', w')) := sm_restore ckpt (m, w) in (r, (IEASE m', w'))
    | IItemKNN m => let '(r, (m', w')) := sm_restore ckpt (m, w) in (r, (IItemKNN m', w'))
    | INeuralMF m =>
        let '(r, (m', w')) := NeuralMF.restore ckpt (m, w) in (r, (INeuralMF m', w'))
    | IDeepFM m =>
        let '(r, (m', w')) := DeepFM.restore ckpt (m, w) in (r, (IDeepFM m', w'))
    end.

(** [obj.recommend(user_item_ids)], with the default [top_k] of the class. *)
Definition instance_recommend (obj : instance) (user_item_ids : list Z)
  : M world (list Z) :=
  match obj with
  | IEASE m => sm_recommend m user_item_ids
  | IItemKNN m => sm_recommend m user_item_ids
  | INeuralMF m => NeuralMF.recommend np m user_item_ids 10
  | IDeepFM m => DeepFM.recommend np m user_item_ids 10
  end.

(** [self.model.restore(checkpoint_path)]. *)
Definition call_restore (checkpoint_path : string) : M (t * world) unit :=
  fun '(self, w) =>
    match model self with
    | None =>
        (inl (AttributeError "'NoneType' object has no attribute 'restore'"), (self, w))
    | Some (id, obj) =>
        let '(r, (obj', w')) :=
          (log (CallRestore id checkpoint_path);; instance_restore checkpoint_path) (obj, w) in
        (r, (set_model_slot (Some (id, obj')) self, w'))
    end.

Definition checkpoint_missing (checkpoint_path new_model : string) : exn :=
  FileNotFoundError
    ("Checkpoint file not found: " +:+ checkpoint_path +:+ ". " +:+
     "Please train the " +:+ new_model +:+ " model first using: " +:+
     "python fit_offline.py --model " +:+ new_model +:+ " --save_dir recommend/ckpt").

Definition not_registered (new_model : string) : exn :=
  KeyError ("Model " +:+ new_model +:+ " not found in model registry").

(** [registry[key]]. *)
Definition getitem {V} (registry : gmap string V) (key : string) : exn + V :=
  match registry !! key with
  | Some v => inr v
  | None => inl (KeyError ("'" +:+ key +:+ "'"))
  end.

(** [set_model(self, new_model)]. *)
Definition set_model (new_model : string) : M (t * world) unit :=
  '(self, _) ← get;
  if bool_decide (model_name self ≠ Some new_model) then
    update (set_model_name (Some new_model));;
    if bool_decide (model_to_cls NEURAL_MODELS_AVAILABLE !! new_model = None) then
      raise (not_registered new_model)
    else
      c ← lift (getitem (model_to_cls NEURAL_MODELS_AVAILABLE) new_model);
      obj ← construct c;
      update (set_model_slot (Some obj));;
      checkpoint_path ← lift (getitem model_to_ckpt new_model);
      '(_, w) ← get;
      if negb (path_exists w checkpoint_path) then
        raise (checkpoint_missing checkpoint_path new_model)
      else
        call_restore checkpoint_path
  else mret tt.

Definition no_model_loaded : exn := ValueError "No model loaded. Call set_model() first.".
Definition name_not_set : exn := ValueError "Model name not set. Call set_model() first.".

(** [recommend(self, user_context)]; [int(i)] is the identity on the
    integers of a context. *)
Definition recommend (user_context : list Z) : M (t * world) (list Z) :=
  '(self, _) ← get;
  match model self with
  | None => raise no_model_loaded
  | Some (_, obj) =>
      match model_name self with
      | None => raise name_not_set
      | Some _ =>
          let user_item_ids := (fun i : Z => i) <$> user_context in
          in_world (instance_recommend obj user_item_ids)
      end
  end.

End Wrapper.

Arguments instance : clear implicits.
Arguments t : clear implicits.

End RecommenderWrapper.

(** A stand-in for the two classes that are parameters, for running the
    wrapper on concrete inputs: its checkpoint can never be restored and it
    recommends nothing. *)
Definition absent_model : ScoringModel unit :=
  {| sm_new := tt;
     sm_restore := fun ckpt =>
       raise (FileNotFoundError ("checkpoint file not found: " +:+ ckpt));
     sm_recommend := fun _ _ => mret [] |}.

(** ** Functions of the specification

    What the loops of [predict] and [recommend] compute, written without
    the loops, and the count of items that are not masked. *)

Module Pure.

(** The scores of the items [0 .. n-1] for user [u]. *)
Definition score_row (md : module) (u n : nat) : list score :=
  (fun i => Fin (sd_score (md_state md) u i)) <$> seq 0 n.

(** The scores of all pairs of an [nu] by [ni] matrix. *)
Definition score_matrix (md : module) (nu ni : nat) : list (list score) :=
  (fun u => score_row md u ni) <$> seq 0 nu.

(** A loop without the environment. *)
Fixpoint pure_for_each {A B} (l : list A) (acc : B) (body : A -> B -> exn + B)
  : exn + B :=
  match l with
  | [] => inr acc
  | x :: l' =>
      match body x acc with
      | inl e => inl e
      | inr acc' => pure_for_each l' acc' body
      end
  end.

(** One iteration of [batch_loop], without the call log. *)
Definition chunk_step {T} (md : module) (u n : nat)
    (write : T -> nat -> nat -> list score -> exn + T) (i : nat) (target : T)
  : exn + T :=
  let end_idx := Nat.min (i + 1000) n in
  match forward_pairs md (take (end_idx - i) (drop i (replicate n u)))
          (take (end_idx - i) (drop i (seq 0 n))) with
  | inl e => inl e
  | inr batch_pred => write target i end_idx batch_pred
  end.

(** The two nested loops of [predict], without the call log. *)
Definition predict_loops (md : module) (nu ni : nat) : exn + list (list score) :=
  pure_for_each (seq 0 nu) (replicate nu (zeros ni))
    (fun u p => pure_for_each (range 0 ni 1000) p
                  (chunk_step md u ni (Neural.setitem_row_slice u))).

(** The entry of a matrix at a position, when there is one. *)
Definition entry_at (p : list (list score)) (r c : nat) : option score :=
  p !! r ≫= fun row => row !! c.

(** The rows of a matrix all have [ni] entries. *)
Definition has_shape (p : list (list score)) (nu ni : nat) : Prop :=
  length p = nu /\ Forall (fun row => length row = ni) p.

(** The error of [argpartition] for a [kth] that is not a position. *)
Definition kth_out_of_bounds (top_k : Z) (n : nat) : exn :=
  ValueError ("kth(=" +:+ str_Z top_k +:+ ") out of bounds (" +:+ str_Z (Z.of_nat n) +:+ ")").

(** A directory [save] can write into: its name is not empty, and
    neither the name nor a directory above it is a file. *)
Definition usable_directory (w : world) (save_dir : string) : Prop :=
  save_dir <> "" /\
  Forall (fun p => fs w !! p = None)
    (rstrip_slash save_dir :: ancestors (rstrip_slash save_dir)).

(** A masked score. *)
Definition is_masked (s : score) : bool :=
  match s with NegInf => true | _ => false end.

(** The number of items whose score is not masked. *)
Definition available (scores : list score) : nat :=
  length (List.filter (fun s => negb (is_masked s)) scores).

(** An instance as [restore] leaves it: it is loaded, it holds a network,
    and the recorded numbers of users and items are the sizes of the
    embedding tables of that network. *)
Definition restored (self : Neural.t) (md : module) : Prop :=
  Neural.model_loaded self = true /\
  Neural.model self = Some md /\
  sd_num_users (md_state md) = Neural.num_users self /\
  sd_num_items (md_state md) = Neural.num_items self.

(** A trained instance of class [v], as [fit] and [restore] leave it: it
    is loaded and its network is the one the constructor of the class
    builds from the attributes of the instance, with some parameters. *)
Definition trained (v : variant) (self : Neural.t) (md : module) : Prop :=
  Neural.model_loaded self = true /\
  Neural.model self = Some md /\
  module_init v (Neural.num_users self) (Neural.num_items self)
    (Neural.embedding_dim self) (Neural.hidden_dims self) (Neural.dropout self)
    (sd_score (md_state md)) = inr md.

(** The order the claim asks of a result: from one position to a later
    one the score goes down, or stays and the index goes up. *)
Definition descending_ties_by_index (scores : list score) (res : list nat) : Prop :=
  forall i j x y, i < j -> res !! i = Some x -> res !! j = Some y ->
    slt (scores !!! y) (scores !!! x) = true \/
    (seqb (scores !!! x) (scores !!! y) = true /\ x < y).

(** The order the code gives: the score never goes up. *)
Definition non_increasing (scores : list score) (res : list nat) : Prop :=
  forall i j x y, i <= j -> res !! i = Some x -> res !! j = Some y ->
    sle (scores !!! y) (scores !!! x) = true.

End Pure.
Export Pure.

(** ** Concrete objects

    A network on 3 users and 5 items whose score for item [i] is
    [(i + 1) / 10] for every user, an instance holding it, and two
    environments: one without files, one with the [NeuralMF] checkpoint at
    the path of the registry. *)

Module Demo.

Definition demo_state (v : variant) : state_dict :=
  {| sd_arch := v; sd_num_users := 3; sd_num_items := 5; sd_embedding_dim := 64;
     sd_hidden_dims := [128; 64];
     sd_score := fun _ i => (Z.of_nat (i + 1) # 10)%Q |}.

Definition demo_module (v : variant) : module :=
  {| md_dropout := (2 # 10)%Q; md_state := demo_state v |}.

Definition demo_model (v : variant) : Neural.t :=
  {| Neural.embedding_dim := 64; Neural.hidden_dims := [128; 64];
     Neural.dropout := (2 # 10)%Q; Neural.batch_size := 256; Neural.epochs := 20;
     Neural.learning_rate := (1 # 1000)%Q; Neural.num_users := 3;
     Neural.num_items := 5; Neural.model := Some (demo_module v);
     Neural.model_loaded := true |}.

Definition demo_checkpoint (v : variant) : checkpoint :=
  {| ck_model_state_dict := demo_state v; ck_num_users := 3; ck_num_items := 5;
     ck_embedding_dim := 64; ck_dims_key := dims_key v; ck_dims := [128; 64];
     ck_dropout := (2 # 10)%Q |}.

(** A loaded instance of a class without a network, for runs on concrete
    inputs: its scoring path returns no item. *)
Definition demo_non_neural : NonNeural.t :=
  {| NonNeural.loaded := true; NonNeural.scoring_path := fun _ _ => [] |}.

Definition no_files : world :=
  {| fs := ∅; calls := []; next_id := 0; init_score := fun _ _ => 0%Q |}.

Definition neuralmf_trained : world :=
  {| fs := {[ "recommend/ckpt/NeuralMF_emb64.pth" := FCheckpoint (demo_checkpoint VNeuralMF) ]};
     calls := []; next_id := 0; init_score := fun _ _ => 0%Q |}.

(** Rating matrices with ones on the diagonal: one smaller than the
    tables of the network, one with more rows than it has users. *)
Definition diagonal (nu ni : nat) : Neural.rating_matrix :=
  {| Neural.rm_shape := (nu, ni);
     Neural.rm_entry := fun r c => if r =? c then 1%Q else 0%Q |}.
Definition smaller_matrix : Neural.rating_matrix := diagonal 2 3.
Definition larger_matrix : Neural.rating_matrix := diagonal 4 3.

(** The wrapper of [api.py] with PyTorch installed, on the reference NumPy. *)
Definition wrapper : Type := RecommenderWrapper.t unit unit.
Definition wrapper_new : wrapper := RecommenderWrapper.new.
Definition set_model : string -> M (wrapper * world) unit :=
  RecommenderWrapper.set_model absent_model absent_model true.
Definition recommend : list Z -> M (wrapper * world) (list Z) :=
  RecommenderWrapper.recommend absent_model absent_model numpy_ref.

End Demo.

(** ** Further functions of the specification *)

From Stdlib Require DecimalPos DecimalZ.

Module Pure2.

(** The positions a context masks in an axis of size [n]: the indices
    that are in range, negative ones counted from the end. *)
Definition context_positions (n : nat) (ctx : list Z) : list nat :=
  omap (fun i => match norm_index n i with inr p => Some p | inl _ => None end) ctx.

(** An integer NumPy holds in its default integer type. *)
Definition int64 (i : Z) : Prop := (- 2 ^ 63 <= i < 2 ^ 63)%Z.

(** Every integer of a context is an index of an axis of size [n]. *)
Definition valid_context (n : nat) (ctx : list Z) : Prop :=
  forall i, i ∈ ctx -> (- Z.of_nat n <= i < Z.of_nat n)%Z.

(** The batches in which [n] items are scored: consecutive slices of at
    most 1000 items. *)
Definition batches (n : nat) : list (list nat) :=
  (fun j => seq j (Nat.min (j + 1000) n - j)) <$> range 0 n 1000.

(** The forward passes that score [n] items for user [u], as the call log
    records them. *)
Definition forward_calls (u n : nat) : list event :=
  (fun b => CallForward (replicate (length b) u) b) <$> batches n.

(** The dictionary [save] writes for an instance that holds the network
    [md]. *)
Definition saved_checkpoint (v : variant) (self : Neural.t) (md : module) : checkpoint :=
  {| ck_model_state_dict := md_state md;
     ck_num_users := Neural.num_users self;
     ck_num_items := Neural.num_items self;
     ck_embedding_dim := Neural.embedding_dim self;
     ck_dims_key := dims_key v;
     ck_dims := Neural.hidden_dims self;
     ck_dropout := Neural.dropout self |}.

(** A checkpoint that [restore] of class [v] accepts: it has the key of
    the class for the layer sizes, the constructor of the network accepts
    the sizes and the dropout (a class that has hidden layers needs a
    probability between 0 and 1, and [DeepFM] needs a hidden layer), and
    the tensors of its [state_dict] have the keys and the shapes of the
    network built from the recorded attributes. *)
Definition loadable (v : variant) (ck : checkpoint) : Prop :=
  ck_dims_key ck = dims_key v /\
  (v = VDeepFM -> ck_dims ck <> []) /\
  (ck_dims ck <> [] -> (0 <= ck_dropout ck <= 1)%Q) /\
  sd_arch (ck_model_state_dict ck) = v /\
  sd_num_users (ck_model_state_dict ck) = ck_num_users ck /\
  sd_num_items (ck_model_state_dict ck) = ck_num_items ck /\
  sd_embedding_dim (ck_model_state_dict ck) = ck_embedding_dim ck /\
  sd_hidden_dims (ck_model_state_dict ck) = ck_dims ck.

(** The instance [restore] leaves when it has loaded [ck] into [self]. *)
Definition restored_from (ck : checkpoint) (self : Neural.t) : Neural.t :=
  {| Neural.embedding_dim := ck_embedding_dim ck;
     Neural.hidden_dims := ck_dims ck;
     Neural.dropout := ck_dropout ck;
     Neural.batch_size := Neural.batch_size self;
     Neural.epochs := Neural.epochs self;
     Neural.learning_rate := Neural.learning_rate self;
     Neural.num_users := ck_num_users ck;
     Neural.num_items := ck_num_items ck;
     Neural.model := Some {| md_dropout := ck_dropout ck;
                             md_state := ck_model_state_dict ck |};
     Neural.model_loaded := true |}.

(** A checkpoint of [NeuralMF] with hidden layers and a dropout outside
    [0, 1], and an environment that holds it at the registered path. *)
Definition bad_dropout_checkpoint : checkpoint :=
  {| ck_model_state_dict := Demo.demo_state VNeuralMF; ck_num_users := 3;
     ck_num_items := 5; ck_embedding_dim := 64; ck_dims_key := dims_key VNeuralMF;
     ck_dims := [128; 64]; ck_dropout := (3 # 2)%Q |}.

Definition bad_dropout_world : world :=
  {| fs := {[ "recommend/ckpt/NeuralMF_emb64.pth" := FCheckpoint bad_dropout_checkpoint ]};
     calls := []; next_id := 0; init_score := fun _ _ => 0%Q |}.

(** An environment in which [recommend] is a file. *)
Definition file_in_the_way : world :=
  {| fs := {[ "recommend" := FOther "notes" ]};
     calls := []; next_id := 0; init_score := fun _ _ => 0%Q |}.

End Pure2.
Export Pure2.

(** ** The training samples, [NeuralMFDataset] and [DeepFMDataset] *)

(** The two classes have the same body: the users and the items of the
    nonzero entries of the training matrix, and one label [1.0] for each. *)
Module Dataset.

Record t : Type := {
  train_matrix : Neural.rating_matrix;
  users : list nat;
  items : list nat;
  labels : list Q
}.

(** [__init__(self, train_matrix)]. *)
Definition new (train_matrix : Neural.rating_matrix) : t :=
  let nz := Neural.nonzero train_matrix in
  let users := nz.*1 in
  let items := nz.*2 in
  {| train_matrix := train_matrix; users := users; items := items;
     labels := replicate (length users) 1%Q |}.

(** [__len__(self)]. *)
Definition len (self : t) : nat := length (users self).

#[global] Instance Q_inhabited : Inhabited Q := populate 0%Q.

(** [a[idx]] for a one-dimensional array and an integer. *)
Definition index {A} `{Inhabited A} (a : list A) (idx : Z) : exn + A :=
  match norm_index (length a) idx with
  | inl e => inl e
  | inr p => inr (a !!! p)
  end.

(** [__getitem__(self, idx)]: the three arrays are indexed from left to
    right. *)
Definition getitem (self : t) (idx : Z) : exn + (nat * nat * Q) :=
  match index (users self) idx with
  | inl e => inl e
  | inr u =>
      match index (items self) idx with
      | inl e => inl e
      | inr i =>
          match index (labels self) idx with
          | inl e => inl e
          | inr l => inr (u, i, l)
          end
      end
  end.

End Dataset.

Module NeuralMFDataset.
Definition new := Dataset.new.
Definition len := Dataset.len.
Definition getitem := Dataset.getitem.
End NeuralMFDataset.

Module DeepFMDataset.
Definition new := Dataset.new.
Definition len := Dataset.len.
Definition getitem := Dataset.getitem.
End DeepFMDataset.

(** ** The neural classes in the registry and in the wrapper *)

Module Serving.

(** The class the registry holds under the name of [v]. *)
Definition neural_cls (v : variant) : cls :=
  match v with VNeuralMF => NeuralMF | VDeepFM => DeepFM end.

(** The checkpoint path the registry holds under the name of [v]. *)
Definition registered_path (v : variant) : string :=
  path_join BASE_DIR (cls_name v +:+ "_emb64.pth").

(** A model object of class [v] in the slot of the wrapper. *)
Definition neural_instance {EASE_t ItemKNN_t : Type} (v : variant) (m : Neural.t)
  : RecommenderWrapper.instance EASE_t ItemKNN_t :=
  match v with
  | VNeuralMF => RecommenderWrapper.INeuralMF m
  | VDeepFM => RecommenderWrapper.IDeepFM m
  end.

End Serving.
Export Serving.

(** ** Sequences of calls on one wrapper *)

(** The wrapper of [api.py] is one object for the life of the process:
    every request calls [set_model] and [recommend] on it, and an
    exception ends the request, not the process. *)
Module Session.

Section Session.

Context {EASE_t ItemKNN_t : Type}.
Context (ease : ScoringModel EASE_t) (knn : ScoringModel ItemKNN_t).
Context (np : numpy) (NEURAL_MODELS_AVAILABLE : bool).

Inductive call : Type :=
| SetModel (new_model : string)
| Recommend (user_context : list Z).

(** One call; what it returns or raises is dropped, the wrapper and the
    environment it leaves are kept. *)
Definition run_call (c : call) (s : RecommenderWrapper.t EASE_t ItemKNN_t * world)
  : RecommenderWrapper.t EASE_t ItemKNN_t * world :=
  match c with
  | SetModel new_model =>
      snd (RecommenderWrapper.set_model ease knn NEURAL_MODELS_AVAILABLE new_model s)
  | Recommend user_context =>
      snd (RecommenderWrapper.recommend ease knn np user_context s)
  end.

Definition run_calls (cs : list call) (s : RecommenderWrapper.t EASE_t ItemKNN_t * world)
  : RecommenderWrapper.t EASE_t ItemKNN_t * world :=
  foldl (fun s c => run_call c s) s cs.

End Session.

End Session.

(** ** The rating matrix of the training script, [fit_offline.py] *)

Module FitOffline.

(** A document of the [interactions] collection; [interaction.get(key)]
    is [None] for a document without the key. Identifiers are modelled as
    integers: what the code uses of them is equality, hashing and the
    order [sorted] sorts by. *)
Record interaction : Type := {
  user_id : option Z;
  movie_id : option Z
}.

(** The three collections the function reads: the interactions, and the
    [_id] of every document of [users] and of [movies]. *)
Record mongodb : Type := {
  interactions : list interaction;
  users : list Z;
  movies : list Z
}.

(** [collection.distinct('_id')]. *)
Definition distinct (ids : list Z) : list Z := remove_dups ids.

(** [sorted(ids)]. *)
Definition sorted (ids : list Z) : list Z := merge_sort Z.le ids.

(** [{uid: idx for idx, uid in enumerate(ids)}]. *)
Definition index_of (ids : list Z) : gmap Z nat :=
  foldl (fun d '(idx, uid) => <[uid := idx]> d) ∅ (imap (fun idx uid => (idx, uid)) ids).

(** [key in d] for the result of [interaction.get]. *)
Definition contains (d : gmap Z nat) (key : option Z) : bool :=
  match key with
  | Some k => bool_decide (is_Some (d !! k))
  | None => false
  end.

(** [d[key]] after [key in d]. *)
Definition get_index (d : gmap Z nat) (key : option Z) : nat :=
  match key with
  | Some k => default 0 (d !! k)
  | None => 0
  end.

(** The entry of [csr_matrix((data, (rows, cols)))] at a position: the
    entries given for the same position are summed. *)
Fixpoint coo_sum (data : list Z) (rows cols : list nat) (r c : nat) : Z :=
  match data, rows, cols with
  | d :: data', i :: rows', j :: cols' =>
      ((if (i =? r)%nat && (j =? c)%nat then d else 0) + coo_sum data' rows' cols' r c)%Z
  | _, _, _ => 0%Z
  end.

(** [sp.csr_matrix((data, (rows, cols)), shape=shape)]. *)
Definition csr_matrix (data : list Z) (rows cols : list nat) (shape : nat * nat)
  : exn + Neural.rating_matrix :=
  if negb ((length rows =? length data) && (length cols =? length data)) then
    inl (ValueError "row, column, and data array must all be the same length")
  else if negb (forallb (fun i => i <? fst shape) rows) then
    inl (ValueError "row index exceeds matrix dimensions")
  else if negb (forallb (fun j => j <? snd shape) cols) then
    inl (ValueError "column index exceeds matrix dimensions")
  else
    inr {| Neural.rm_shape := shape;
           Neural.rm_entry := fun r c => inject_Z (coo_sum data rows cols r c) |}.

(** The body of the loop over the interactions. *)
Definition append_interaction (user_id_to_idx movie_id_to_idx : gmap Z nat)
    (acc : list nat * list nat * list Z) (it : interaction)
  : list nat * list nat * list Z :=
  let '(users, items, ratings) := acc in
  if contains user_id_to_idx (user_id it) && contains movie_id_to_idx (movie_id it) then
    (users ++ [get_index user_id_to_idx (user_id it)],
     items ++ [get_index movie_id_to_idx (movie_id it)],
     ratings ++ [1%Z])
  else acc.

(** [load_rating_matrix_from_mongodb()]. *)
Definition load_rating_matrix_from_mongodb (db : mongodb) : exn + Neural.rating_matrix :=
  let all_interactions := interactions db in
  let user_ids := sorted (distinct (users db)) in
  let movie_ids := sorted (distinct (movies db)) in
  let user_id_to_idx := index_of user_ids in
  let movie_id_to_idx := index_of movie_ids in
  let '(users, items, ratings) :=
    foldl (append_interaction user_id_to_idx movie_id_to_idx) ([], [], [])
      all_interactions in
  let num_users := length user_ids in
  let num_items := length movie_ids in
  csr_matrix ratings users items (num_users, num_items).

(** What one interaction adds to the three lists: the row and the column
    of an interaction that is kept. *)
Definition kept_position (du dm : gmap Z nat) (it : interaction) : option (nat * nat) :=
  if contains du (user_id it) && contains dm (movie_id it)
  then Some (get_index du (user_id it), get_index dm (movie_id it))
  else None.

(** The number of interactions of user [u] with movie [m]. *)
Definition interaction_count (db : mongodb) (u m : Z) : nat :=
  length (List.filter
            (fun it => bool_decide (user_id it = Some u /\ movie_id it = Some m))
            (interactions db)).

End FitOffline.

(** ** The request handler, [api.py] *)

Module Api.

(** A value of [request.get_json()]: what [json.loads] builds. A [dict]
    is held as the list of its items, in the order of iteration; its keys
    are distinct. *)
Inductive float_value : Type :=
| FNan
| FInf (negative : bool)
| FFinite (q : Q).

#[local] Set Warnings "-register-all".

Inductive json : Type :=
| JNull
| JBool (b : bool)
| JInt (z : Z)
| JFloat (f : float_value)
| JStr (s : string)
| JList (l : list json)
| JDict (d : list (string * json)).

(** [jsonify(body), status]. *)
Record response : Type := {
  status : nat;
  body : list (string * json)
}.

Definition jsonify (body : list (string * json)) (status : nat) : response :=
  {| status := status; body := body |}.

(** What the statements of the handler raise: an exception of the model
    code, or one of the two built-in ones whose text is never read. *)
Inductive raised : Type :=
| Raised (e : exn)
| TypeError
| OverflowError.

(** [bool(v)]. *)
Definition truthy (v : json) : bool :=
  match v with
  | JNull => false
  | JBool b => b
  | JInt z => negb (z =? 0)%Z
  | JFloat FNan => true
  | JFloat (FInf _) => true
  | JFloat (FFinite q) => negb (Qeq_bool q 0)
  | JStr s => negb (bool_decide (s = ""))
  | JList l => negb (bool_decide (l = []))
  | JDict d => negb (bool_decide (d = []))
  end.

(** [d.get(key)] on the items of a [dict]. *)
Fixpoint dict_get (d : list (string * json)) (key : string) : option json :=
  match d with
  | [] => None
  | (k, v) :: d' => if bool_decide (k = key) then Some v else dict_get d' key
  end.

(** [key in s] for two strings. *)
Fixpoint substring_of (key s : string) : bool :=
  String.prefix key s ||
  match s with
  | EmptyString => false
  | String _ s' => substring_of key s'
  end.

(** [key in v] for a string [key]: a key of a [dict], an element of a
    list, a substring of a string; the other values are not containers. *)
Definition contains (key : string) (v : json) : raised + bool :=
  match v with
  | JDict d => inr (bool_decide (is_Some (dict_get d key)))
  | JList l =>
      inr (existsb (fun x => match x with JStr s => bool_decide (s = key) | _ => false end) l)
  | JStr s => inr (substring_of key s)
  | _ => inl TypeError
  end.

(** [v[key]] for a string [key]. *)
Definition getitem (v : json) (key : string) : raised + json :=
  match v with
  | JDict d =>
      match dict_get d key with
      | Some x => inr x
      | None => inl (Raised (KeyError ("'" +:+ key +:+ "'")))
      end
  | _ => inl TypeError
  end.

(** [len(v)]. *)
Definition len (v : json) : raised + nat :=
  match v with
  | JStr s => inr (String.length s)
  | JList l => inr (length l)
  | JDict d => inr (length d)
  | _ => inl TypeError
  end.

(** The items [for item in v] goes through. *)
Fixpoint chars (s : string) : list json :=
  match s with
  | EmptyString => []
  | String c s' => JStr (String c EmptyString) :: chars s'
  end.

Definition iter (v : json) : raised + list json :=
  match v with
  | JStr s => inr (chars s)
  | JList l => inr l
  | JDict d => inr (JStr <$> d.*1)
  | _ => inl TypeError
  end.

Definition valid_models : list string := ["EASE"; "ItemKNN"; "NeuralMF"; "DeepFM"].

(** [str(e)] for the exceptions whose text the handler reports. *)
Definition exn_str (e : exn) : string :=
  match e with
  | ValueError msg | KeyError msg | IndexError msg | FileNotFoundError msg
  | FileExistsError msg | NotADirectoryError msg
  | AttributeError msg | RuntimeError msg | UnpicklingError msg => msg
  end.

(** The bodies of the answers. *)
Definition valid_models_json : json := JList (JStr <$> valid_models).

Definition missing_data : response :=
  jsonify [("error", JStr "MISSING_DATA"); ("message", JStr "No data provided")] 400.
Definition missing_context : response :=
  jsonify [("error", JStr "MISSING_CONTEXT");
           ("message", JStr "Context (movie IDs) is required")] 400.
Definition empty_context : response :=
  jsonify [("error", JStr "EMPTY_CONTEXT"); ("message", JStr "Context cannot be empty")] 400.
Definition missing_model : response :=
  jsonify [("error", JStr "MISSING_MODEL"); ("message", JStr "Model name is required")] 400.
Definition invalid_model : response :=
  jsonify [("error", JStr "INVALID_MODEL");
           ("message", JStr "Model must be one of ['EASE', 'ItemKNN', 'NeuralMF', 'DeepFM']");
           ("available_models", valid_models_json)] 400.
Definition invalid_context : response :=
  jsonify [("error", JStr "INVALID_CONTEXT");
           ("message", JStr "Context must be an array of integers (movie IDs)")] 400.
Definition no_recommendations : response :=
  jsonify [("error", JStr "NO_RECOMMENDATIONS"); ("message", JStr "No recommendations found");
           ("result", JList [])] 200.
Definition recommendations (result : list Z) (model : string) : response :=
  jsonify [("result", JList (JInt <$> result)); ("model", JStr model);
           ("count", JInt (Z.of_nat (length result)))] 200.
Definition model_not_found (model : string) : response :=
  jsonify [("error", JStr "MODEL_NOT_FOUND");
           ("message", JStr ("Model " +:+ model +:+ " is not available"));
           ("available_models", valid_models_json)] 404.
Definition model_checkpoint_missing (model : string) : response :=
  jsonify [("error", JStr "MODEL_CHECKPOINT_MISSING");
           ("message", JStr ("Model " +:+ model +:+
              " checkpoint file not found. The model needs to be trained first."));
           ("available_models", valid_models_json)] 503.
Definition recommendation_error (e : exn) : response :=
  jsonify [("error", JStr "RECOMMENDATION_ERROR");
           ("message", JStr "Failed to generate recommendations");
           ("details", JStr (exn_str e))] 500.
Definition internal_error : response :=
  jsonify [("error", JStr "INTERNAL_ERROR");
           ("message", JStr "An unexpected error occurred")] 500.

(** A request body with a non-empty list of integers as context and a
    string as model. *)
Definition request_of (d : list (string * json)) (user_context : list Z) (model : string)
  : Prop :=
  dict_get d "context" = Some (JList (JInt <$> user_context)) /\
  dict_get d "model" = Some (JStr model) /\
  user_context <> [].

Section Handler.

(** [int(s)] for a string is a parameter: [None] where it raises
    [ValueError]. *)
Context (int_of_str : string -> option Z).

Context {EASE_t ItemKNN_t : Type}.
Context (ease : ScoringModel EASE_t) (knn : ScoringModel ItemKNN_t).
Context (np : numpy) (NEURAL_MODELS_AVAILABLE : bool).

(** [int(v)]. *)
Definition int (v : json) : raised + Z :=
  match v with
  | JBool b => inr (if b then 1 else 0)%Z
  | JInt z => inr z
  | JFloat FNan => inl (Raised (ValueError "cannot convert float NaN to integer"))
  | JFloat (FInf _) => inl OverflowError
  | JFloat (FFinite q) => inr (Z.quot (Qnum q) (Z.pos (Qden q)))
  | JStr s =>
      match int_of_str s with
      | Some z => inr z
      | None => inl (Raised (ValueError ("invalid literal for int() with base 10: '" +:+ s
                                           +:+ "'")))
      end
  | _ => inl TypeError
  end.

(** [[int(item) for item in items]]: the first item that raises ends it. *)
Fixpoint ints (items : list json) : raised + list Z :=
  match items with
  | [] => inr []
  | item :: rest =>
      match int item with
      | inl e => inl e
      | inr z =>
          match ints rest with
          | inl e => inl e
          | inr zs => inr (z :: zs)
          end
      end
  end.

(** The checks of the handler up to the name of the model: an early
    answer, or the context and the name to go on with. *)
Definition checked (data : json) : raised + (response + json * string) :=
  if negb (truthy data) then inr (inl missing_data)
  else
    match contains "context" data with
    | inl e => inl e
    | inr false => inr (inl missing_context)
    | inr true =>
        match getitem data "context" with
        | inl e => inl e
        | inr context =>
            if negb (truthy context) then inr (inl empty_context)
            else
              match len context with
              | inl e => inl e
              | inr n =>
                  if n =? 0 then inr (inl empty_context)
                  else
                    match contains "model" data with
                    | inl e => inl e
                    | inr false => inr (inl missing_model)
                    | inr true =>
                        match getitem data "model" with
                        | inl e => inl e
                        | inr (JStr model) =>
                            if bool_decide (model ∈ valid_models)
                            then inr (inr (context, model))
                            else inr (inl invalid_model)
                        | inr _ => inr (inl invalid_model)
                        end
                    end
              end
        end
    end.

(** The answer of the inner [try] for what [set_model] and [recommend]
    return or raise. *)
Definition answer (model : string) (r : exn + list Z) : response :=
  match r with
  | inr [] => no_recommendations
  | inr result => recommendations result model
  | inl (KeyError _) => model_not_found model
  | inl (FileNotFoundError _) => model_checkpoint_missing model
  | inl e => recommendation_error e
  end.

(** The inner [try]: [set_model], then [recommend]. *)
Definition serve (model : string) (user_context : list Z)
    (s : RecommenderWrapper.t EASE_t ItemKNN_t * world)
  : response * (RecommenderWrapper.t EASE_t ItemKNN_t * world) :=
  let '(r, s') :=
    (RecommenderWrapper.set_model ease knn NEURAL_MODELS_AVAILABLE model;;
     RecommenderWrapper.recommend ease knn np user_context) s in
  (answer model r, s').

(** [recommend()], the handler of [POST /api/recommend], on the value of
    [request.get_json()] and on the wrapper of the module. *)
Definition recommend (data : json) (s : RecommenderWrapper.t EASE_t ItemKNN_t * world)
  : response * (RecommenderWrapper.t EASE_t ItemKNN_t * world) :=
  match checked data with
  | inl _ => (internal_error, s)
  | inr (inl answer) => (answer, s)
  | inr (inr (user_context, model)) =>
      match iter user_context with
      | inl _ => (invalid_context, s)
      | inr items =>
          match ints items with
          | inl (Raised (ValueError _)) | inl TypeError => (invalid_context, s)
          | inl _ => (internal_error, s)
          | inr user_context => serve model user_context s
          end
      end
  end.

End Handler.

End Api.

(** Requests and a catalogue of twelve items for running the handler on
    concrete inputs. *)
Module ApiDemo.

Definition request (user_context : list Z) (model : string) : list (string * Api.json) :=
  [("context", Api.JList (Api.JInt <$> user_context)); ("model", Api.JStr model)].

Definition catalogue_state (v : variant) : state_dict :=
  {| sd_arch := v; sd_num_users := 3; sd_num_items := 12; sd_embedding_dim := 64;
     sd_hidden_dims := [128; 64];
     sd_score := fun _ i => (Z.of_nat (i + 1) # 10)%Q |}.

Definition catalogue_checkpoint (v : variant) : checkpoint :=
  {| ck_model_state_dict := catalogue_state v; ck_num_users := 3; ck_num_items := 12;
     ck_embedding_dim := 64; ck_dims_key := dims_key v; ck_dims := [128; 64];
     ck_dropout := (2 # 10)%Q |}.

Definition catalogue_world : world :=
  {| fs := {[ "recommend/ckpt/NeuralMF_emb64.pth"
              := FCheckpoint (catalogue_checkpoint VNeuralMF) ]};
     calls := []; next_id := 0; init_score := fun _ _ => 0%Q |}.

(** A stand-in for [int] on strings, which no request below uses. *)
Definition no_int_of_str (s : string) : option Z := None.

(** The handler with and without PyTorch, on the reference NumPy. *)
Definition handler (avail : bool)
  : Api.json -> Demo.wrapper * world -> Api.response * (Demo.wrapper * world) :=
  Api.recommend no_int_of_str absent_model absent_model numpy_ref avail.

End ApiDemo.
(** ** The order on scores *)

Section ScoreOrder.

Lemma sle_refl a : sle a a = true.
Proof. destruct a; simpl; auto. apply Qle_bool_iff, Qle_refl. Qed.

Lemma sle_trans a b c : sle a b = true -> sle b c = true -> sle a c = true.
Proof.
  destruct a, b, c; simpl; auto; try discriminate.
  rewrite !Qle_bool_iff. apply Qle_trans.
Qed.

Lemma sle_total a b : sle a b = true \/ sle b a = true.
Proof.
  destruct a, b; simpl; auto.
  rewrite !Qle_bool_iff.
  destruct (Qlt_le_dec q q0) as [Hlt|Hle]; [left; apply Qlt_le_weak, Hlt | right; exact Hle].
Qed.

Lemma sle_neg a b : sle (neg a) (neg b) = sle b a.
Proof.
  destruct a, b; simpl; auto.
  apply eq_true_iff_eq. rewrite !Qle_bool_iff.
  split; intros Hle.
  - apply Qopp_le_compat in Hle. rewrite !Qopp_involutive in Hle. exact Hle.
  - apply Qopp_le_compat, Hle.
Qed.

Lemma slt_sle a b : slt a b = true -> sle a b = true.
Proof.
  unfold slt. intros Hlt. destruct (sle_total a b) as [H|H]; [exact H|].
  rewrite H in Hlt. discriminate.
Qed.

End ScoreOrder.

(** ** The reference NumPy meets the contract *)

Section NpRefCorrect.

Variable rev_ties : bool.
Variable a : list score.

Lemma idx_le_sle i j : idx_le rev_ties a i j -> sle (a !!! i) (a !!! j) = true.
Proof.
  unfold idx_le, idx_leb. intros H.
  apply orb_true_iff in H as [H|H]; [apply slt_sle, H|].
  apply andb_true_iff in H as [H _]. exact H.
Qed.

#[local] Instance idx_le_total : Total (idx_le rev_ties a).
Proof.
  intros i j. unfold idx_le, idx_leb, slt.
  destruct (sle_total (a !!! i) (a !!! j)) as [Hij|Hji].
  - rewrite Hij. destruct (sle (a !!! j) (a !!! i)); simpl; auto.
    destruct rev_ties, (Nat.leb_spec j i), (Nat.leb_spec i j); auto; lia.
  - rewrite Hji. destruct (sle (a !!! i) (a !!! j)); simpl; auto.
    destruct rev_ties, (Nat.leb_spec j i), (Nat.leb_spec i j); auto; lia.
Qed.

#[local] Instance idx_le_trans : Transitive (idx_le rev_ties a).
Proof.
  intros i j k Hij Hjk.
  pose proof (idx_le_sle _ _ Hij) as Sij. pose proof (idx_le_sle _ _ Hjk) as Sjk.
  pose proof (sle_trans _ _ _ Sij Sjk) as Sik.
  unfold idx_le, idx_leb, slt in *. rewrite Sij, Sjk, Sik in *. simpl in *.
  destruct (sle (a !!! k) (a !!! i)) eqn:Ski; simpl; [|reflexivity].
  pose proof (sle_trans _ _ _ Ski Sij) as Skj.
  pose proof (sle_trans _ _ _ Sjk Ski) as Sji.
  rewrite Skj, Sji in *. simpl in *.
  destruct rev_ties.
  - apply Nat.leb_le in Hij, Hjk. apply Nat.leb_le. lia.
  - apply Nat.leb_le in Hij, Hjk. apply Nat.leb_le. lia.
Qed.

#[local] Instance idx_le_refl : Reflexive (idx_le rev_ties a).
Proof. intros i. destruct (total (idx_le rev_ties a) i i); assumption. Qed.

Lemma StronglySorted_lookup_le {A} (R : relation A) `{!Reflexive R} (l : list A) i j x y :
  StronglySorted R l -> i <= j -> l !! i = Some x -> l !! j = Some y -> R x y.
Proof.
  intros Hs. revert i j. induction Hs as [|z l Hs IH Hall]; intros i j Hle Hi Hj.
  - discriminate.
  - destruct i as [|i], j as [|j]; simpl in *; try lia.
    + injection Hi as <-. injection Hj as <-. reflexivity.
    + injection Hi as <-. rewrite Forall_forall in Hall.
      apply Hall. eapply list_elem_of_lookup_2, Hj.
    + apply (IH i j); [lia|assumption..].
Qed.

Lemma sort_indices_perm : sort_indices rev_ties a ≡ₚ seq 0 (length a).
Proof. apply merge_sort_Permutation. Qed.

Lemma sort_indices_sorted i j x y :
  i <= j -> sort_indices rev_ties a !! i = Some x -> sort_indices rev_ties a !! j = Some y ->
  sle (a !!! x) (a !!! y) = true.
Proof.
  intros Hle Hi Hj. apply idx_le_sle.
  eapply (StronglySorted_lookup_le (idx_le rev_ties a)); eauto.
  apply StronglySorted_merge_sort; apply _.
Qed.

Lemma sort_indices_argsort : is_argsort a (sort_indices rev_ties a).
Proof. split; [apply sort_indices_perm | apply sort_indices_sorted]. Qed.

Lemma sort_indices_partition kth : is_partition a kth (sort_indices rev_ties a).
Proof.
  split; [apply sort_indices_perm|].
  intros i x p Hi Hp. split; intros Hlt.
  - apply (sort_indices_sorted i kth); auto; lia.
  - apply (sort_indices_sorted kth i); auto; lia.
Qed.

End NpRefCorrect.

Lemma numpy_ref_ok : numpy_ok numpy_ref.
Proof.
  split; simpl.
  - intros a kth _. apply sort_indices_partition.
  - intros a. apply sort_indices_argsort.
Qed.

Lemma numpy_alt_ok : numpy_ok numpy_alt.
Proof.
  split; simpl.
  - intros a kth _. apply sort_indices_partition.
  - intros a. apply sort_indices_argsort.
Qed.

(** ** The serving wrapper *)

Ltac munfold :=
  unfold RecommenderWrapper.update, Neural.update, log, log_w in *;
  unfold mbind, mret, M_bind, M_ret, bind, ret, raise, get, put, modify, lift,
    in_world in *.

#[local] Arguments RecommenderWrapper.call_restore : simpl never.

Section WrapperFacts.

Context {EASE_t ItemKNN_t : Type}.
Context (ease : ScoringModel EASE_t) (knn : ScoringModel ItemKNN_t).
Context (np : numpy) (NEURAL_MODELS_AVAILABLE : bool).

Abbreviation wrapper := (RecommenderWrapper.t EASE_t ItemKNN_t).
Abbreviation set_model := (RecommenderWrapper.set_model ease knn NEURAL_MODELS_AVAILABLE).
Abbreviation recommend := (RecommenderWrapper.recommend ease knn np).
Abbreviation model_name := RecommenderWrapper.model_name.
Abbreviation model := RecommenderWrapper.model.

(** A call with the recorded name does nothing at all. *)
Lemma set_model_recorded_name (self : wrapper) (w : world) (X : string) :
  model_name self = Some X ->
  set_model X (self, w) = (inr tt, (self, w)).
Proof.
  intros Hname. unfold RecommenderWrapper.set_model. munfold.
  rewrite bool_decide_eq_false_2; [reflexivity|].
  intros Hne. apply Hne, Hname.
Qed.

(** [call_restore] never touches the recorded name. *)
Lemma call_restore_name (path : string) (self self' : wrapper) (w w' : world) r :
  RecommenderWrapper.call_restore ease knn path (self, w) = (r, (self', w')) ->
  model_name self' = model_name self.
Proof.
  unfold RecommenderWrapper.call_restore.
  destruct (model self) as [[id obj]|].
  - destruct ((log (CallRestore id path);;
               RecommenderWrapper.instance_restore ease knn path) (obj, w))
      as [r0 [obj' w0]].
    intros [= _ <- _]. reflexivity.
  - intros [= _ <- _]. reflexivity.
Qed.

(** Whatever [set_model X] ends with, the name recorded afterwards is [X]. *)
Lemma set_model_records_name (X : string) (self self' : wrapper) (w w' : world) r :
  set_model X (self, w) = (r, (self', w')) ->
  model_name self' = Some X.
Proof.
  unfold RecommenderWrapper.set_model. munfold.
  case_bool_decide as Hne.
  - case_bool_decide as Hreg.
    + intros [= _ <- _]. reflexivity.
    + unfold RecommenderWrapper.getitem, RecommenderWrapper.construct. munfold.
      destruct (model_to_cls NEURAL_MODELS_AVAILABLE !! X) as [c|]; [|congruence].
      simpl. destruct (model_to_ckpt !! X) as [path|]; simpl.
      * destruct (path_exists _ path); simpl.
        -- intros H. apply call_restore_name in H. rewrite H. reflexivity.
        -- intros [= _ <- _]. reflexivity.
      * intros [= _ <- _]. reflexivity.
  - intros [= _ <- _]. destruct (decide (model_name self = Some X)) as [E|E]; [exact E|].
    contradiction.
Qed.

(** An unregistered name that is not the recorded one: the registry's
    [KeyError] is raised after the name has been recorded. *)
Lemma set_model_unregistered (X : string) (self : wrapper) (w : world) :
  model_name self <> Some X ->
  model_to_cls NEURAL_MODELS_AVAILABLE !! X = None ->
  set_model X (self, w)
  = (inl (RecommenderWrapper.not_registered X),
     (RecommenderWrapper.set_model_name (Some X) self, w)).
Proof.
  intros Hne Hreg. unfold RecommenderWrapper.set_model. munfold.
  rewrite bool_decide_eq_true_2 by exact Hne. simpl.
  rewrite bool_decide_eq_true_2 by exact Hreg. reflexivity.
Qed.

(** A registered name whose checkpoint file is missing: [FileNotFoundError]
    is raised after the name has been recorded and a new, unrestored object
    has been put in the slot. *)
Lemma set_model_missing_checkpoint (X path : string) (c : cls) (self : wrapper)
    (w : world) :
  model_name self <> Some X ->
  model_to_cls NEURAL_MODELS_AVAILABLE !! X = Some c ->
  model_to_ckpt !! X = Some path ->
  path_exists w path = false ->
  exists obj w',
    set_model X (self, w)
    = (inl (RecommenderWrapper.checkpoint_missing path X),
       ({| RecommenderWrapper.model_name := Some X;
           RecommenderWrapper.model := Some (next_id w, obj) |}, w')) /\
    calls w' = calls w ++ [CallNew (cls_str c) (next_id w)] /\
    fs w' = fs w.
Proof.
  intros Hne Hreg Hckpt Hmissing. unfold RecommenderWrapper.set_model. munfold.
  rewrite bool_decide_eq_true_2 by exact Hne. simpl.
  rewrite bool_decide_eq_false_2 by (rewrite Hreg; discriminate).
  unfold RecommenderWrapper.getitem, RecommenderWrapper.construct. munfold.
  rewrite Hreg, Hckpt. simpl.
  unfold path_exists in *. simpl. rewrite Hmissing. simpl.
  eexists. eexists. split; [reflexivity|]. split; reflexivity.
Qed.

(** C5. Once [set_model X] has succeeded, a second [set_model X] is a
    no-op: it returns normally and leaves the wrapper and the environment
    exactly as they were, so the slot holds the same object (same
    identity, same state), no constructor and no [restore] is observed in
    the call log, and no identity is allocated. *)
Theorem set_model_twice_is_noop (X : string) (self self' : wrapper) (w w' : world) :
  set_model X (self, w) = (inr tt, (self', w')) ->
  set_model X (self', w') = (inr tt, (self', w')) /\
  model (fst (snd (set_model X (self', w')))) = model self' /\
  calls (snd (snd (set_model X (self', w')))) = calls w' /\
  next_id (snd (snd (set_model X (self', w')))) = next_id w'.
Proof.
  intros Hfirst.
  assert (Hsecond : set_model X (self', w') = (inr tt, (self', w'))).
  { apply set_model_recorded_name. eapply set_model_records_name, Hfirst. }
  rewrite Hsecond. auto.
Qed.

(** C6, as the code has it. An empty slot makes [recommend] fail with
    "No model loaded", whether or not a name is recorded; the second error,
    "Model name not set", is the one for a slot that holds an object while
    no name is recorded; with both present, the call is the model's own
    [recommend] on the context, and the wrapper is not modified. *)
Theorem recommend_checks_slot_then_name (user_context : list Z) (self : wrapper) (w : world) :
  (model self = None ->
     recommend user_context (self, w) = (inl RecommenderWrapper.no_model_loaded, (self, w))) /\
  (forall id obj, model self = Some (id, obj) -> model_name self = None ->
     recommend user_context (self, w) = (inl RecommenderWrapper.name_not_set, (self, w))) /\
  (forall id obj name, model self = Some (id, obj) -> model_name self = Some name ->
     recommend user_context (self, w) =
       (fst (RecommenderWrapper.instance_recommend ease knn np obj user_context w),
        (self, snd (RecommenderWrapper.instance_recommend ease knn np obj user_context w)))) /\
  RecommenderWrapper.name_not_set <> RecommenderWrapper.no_model_loaded.
Proof.
  unfold RecommenderWrapper.recommend. munfold.
  repeat split.
  - intros ->. reflexivity.
  - intros id obj -> ->. reflexivity.
  - intros id obj name -> ->. rewrite list_fmap_id.
    destruct (RecommenderWrapper.instance_recommend ease knn np obj user_context w).
    reflexivity.
  - discriminate.
Qed.

End WrapperFacts.

(** ** The wrapper on concrete inputs *)

Lemma set_model_twice_is_noop_witness :
  exists st1,
    Demo.set_model "NeuralMF" (Demo.wrapper_new, Demo.neuralmf_trained) = (inr tt, st1) /\
    Demo.set_model "NeuralMF" st1 = (inr tt, st1) /\
    calls (snd st1) = [CallNew "NeuralMF" 0;
                       CallRestore 0 "recommend/ckpt/NeuralMF_emb64.pth"].
Proof.
  destruct (Demo.set_model "NeuralMF" (Demo.wrapper_new, Demo.neuralmf_trained))
    as [r [self1 w1]] eqn:Hfirst.
  assert (Hr : r = inr tt) by (apply (f_equal fst) in Hfirst; vm_compute in Hfirst; congruence).
  subst r. exists (self1, w1). split; [reflexivity|]. split.
  - apply (set_model_twice_is_noop absent_model absent_model true _ _ _ _ _ Hfirst).
  - apply (f_equal (fun x => calls (snd (snd x)))) in Hfirst.
    vm_compute in Hfirst. exact (eq_sym Hfirst).
Defined.

(** The three cases of [recommend] at concrete wrappers: the new wrapper,
    a wrapper that holds an object without a name, and the wrapper after a
    successful [set_model]. *)
Lemma recommend_checks_slot_then_name_witness :
  Demo.recommend [1%Z] (Demo.wrapper_new, Demo.no_files)
    = (inl RecommenderWrapper.no_model_loaded, (Demo.wrapper_new, Demo.no_files)) /\
  Demo.recommend [1%Z]
      ({| RecommenderWrapper.model_name := None;
          RecommenderWrapper.model :=
            Some (0, RecommenderWrapper.INeuralMF (Demo.demo_model VNeuralMF)) |},
       Demo.no_files)
    = (inl RecommenderWrapper.name_not_set,
       ({| RecommenderWrapper.model_name := None;
           RecommenderWrapper.model :=
             Some (0, RecommenderWrapper.INeuralMF (Demo.demo_model VNeuralMF)) |},
        Demo.no_files)) /\
  fst (Demo.recommend [1%Z]
         ({| RecommenderWrapper.model_name := Some "NeuralMF";
             RecommenderWrapper.model :=
               Some (0, RecommenderWrapper.INeuralMF (Demo.demo_model VNeuralMF)) |},
          Demo.no_files))
    = fst (NeuralMF.recommend numpy_ref (Demo.demo_model VNeuralMF) [1%Z] 10 Demo.no_files).
Proof.
  split; [|split].
  - apply (recommend_checks_slot_then_name absent_model absent_model numpy_ref [1%Z]
             Demo.wrapper_new Demo.no_files).
    reflexivity.
  - eapply (proj1 (proj2 (recommend_checks_slot_then_name absent_model absent_model
                            numpy_ref [1%Z] _ Demo.no_files))); reflexivity.
  - exact (f_equal fst
             (proj1 (proj2 (proj2 (recommend_checks_slot_then_name absent_model
                absent_model numpy_ref [1%Z]
                {| RecommenderWrapper.model_name := Some "NeuralMF";
                   RecommenderWrapper.model :=
                     Some (0, RecommenderWrapper.INeuralMF (Demo.demo_model VNeuralMF)) |}
                Demo.no_files)))
                0 (RecommenderWrapper.INeuralMF (Demo.demo_model VNeuralMF)) "NeuralMF"
                eq_refl eq_refl)).
Defined.

(** C6, the claim as written fails: after [set_model "Unknown"] on a new
    wrapper a name is recorded and the slot is empty, and [recommend]
    raises the very error of a wrapper on which nothing was ever set. *)
Lemma recommend_named_empty_slot_same_error :
  exists st1,
    snd (Demo.set_model "Unknown" (Demo.wrapper_new, Demo.no_files)) = st1 /\
    RecommenderWrapper.model_name (fst st1) = Some "Unknown" /\
    RecommenderWrapper.model (fst st1) = None /\
    fst (Demo.recommend [1%Z] st1) = inl RecommenderWrapper.no_model_loaded /\
    fst (Demo.recommend [1%Z] (Demo.wrapper_new, Demo.no_files))
      = inl RecommenderWrapper.no_model_loaded.
Proof. eexists. split; [reflexivity|]. vm_compute. auto. Qed.

(** C1, the code at two failing calls. From the wrapper that has loaded
    [NeuralMF] (identity 0): [set_model "Unknown"] raises the registry's
    [KeyError] and leaves the name "Unknown" recorded over the [NeuralMF]
    object; [set_model "DeepFM"], whose checkpoint file is missing, raises
    [FileNotFoundError] and leaves the name "DeepFM" recorded and a new,
    unrestored object (identity 1) in the slot. After the second failure
    [set_model "DeepFM"] returns normally without loading anything, and
    [recommend] raises the model's "Model not loaded". *)
Theorem set_model_failure_keeps_partial_update :
  exists st1 st2 st3,
    Demo.set_model "NeuralMF" (Demo.wrapper_new, Demo.neuralmf_trained) = (inr tt, st1) /\
    RecommenderWrapper.model_name (fst st1) = Some "NeuralMF" /\
    RecommenderWrapper.model (fst st1)
      = Some (0, RecommenderWrapper.INeuralMF (Demo.demo_model VNeuralMF)) /\
    Demo.set_model "Unknown" st1 = (inl (RecommenderWrapper.not_registered "Unknown"), st2) /\
    RecommenderWrapper.model_name (fst st2) = Some "Unknown" /\
    RecommenderWrapper.model (fst st2) = RecommenderWrapper.model (fst st1) /\
    Demo.set_model "DeepFM" st1
      = (inl (RecommenderWrapper.checkpoint_missing "recommend/ckpt/DeepFM_emb64.pth" "DeepFM"),
         st3) /\
    RecommenderWrapper.model_name (fst st3) = Some "DeepFM" /\
    RecommenderWrapper.model (fst st3) = Some (1, RecommenderWrapper.IDeepFM Neural.new) /\
    Demo.set_model "DeepFM" st3 = (inr tt, st3) /\
    fst (Demo.recommend [1%Z] st3) = inl Neural.not_loaded.
Proof.
  do 3 eexists. split; [vm_compute; reflexivity|].
  split; [reflexivity|]. split; [reflexivity|].
  split; [vm_compute; reflexivity|].
  split; [reflexivity|]. split; [reflexivity|].
  split; [vm_compute; reflexivity|].
  split; [reflexivity|]. split; [reflexivity|].
  split; vm_compute; reflexivity.
Qed.

(** ** [recommend] on the empty context *)

(** C8. For a loaded model of each of the four variants, [recommend] on
    the empty context returns the empty list and leaves the environment as
    it was: the call log gains no [CallForward] (no forward pass), no
    [CallScore] (no score is computed) and no [CallTopK] (no selection).
    [NeuralMF] and [DeepFM] are the code; [EASE] and [ItemKNN] are
    modelled from the spec. *)
Theorem recommend_empty_context_skips_scoring
    (np : numpy) (self : Neural.t) (other : NonNeural.t) (top_k : Z) (w : world) :
  Neural.model_loaded self = true ->
  NonNeural.loaded other = true ->
  NeuralMF.recommend np self [] top_k w = (inr [], w) /\
  DeepFM.recommend np self [] top_k w = (inr [], w) /\
  EASE.recommend other [] top_k w = (inr [], w) /\
  ItemKNN.recommend other [] top_k w = (inr [], w) /\
  calls (snd (NeuralMF.recommend np self [] top_k w)) = calls w /\
  calls (snd (DeepFM.recommend np self [] top_k w)) = calls w /\
  calls (snd (EASE.recommend other [] top_k w)) = calls w /\
  calls (snd (ItemKNN.recommend other [] top_k w)) = calls w.
Proof.
  intros Hloaded Hother.
  unfold NeuralMF.recommend, DeepFM.recommend, Neural.recommend,
    EASE.recommend, ItemKNN.recommend, NonNeural.recommend.
  rewrite Hloaded, Hother. simpl. repeat split.
Qed.

Lemma recommend_empty_context_skips_scoring_witness :
  Neural.model_loaded (Demo.demo_model VNeuralMF) = true /\
  NeuralMF.recommend numpy_ref (Demo.demo_model VNeuralMF) [] 10 Demo.no_files
    = (inr [], Demo.no_files) /\
  EASE.recommend Demo.demo_non_neural [] 10 Demo.no_files = (inr [], Demo.no_files) /\
  calls (snd (NeuralMF.recommend numpy_ref (Demo.demo_model VNeuralMF) [0%Z; 1%Z] 3
                Demo.no_files))
    = [CallForward [0; 0; 0; 0; 0] [0; 1; 2; 3; 4]; CallTopK 3] /\
  calls (snd (EASE.recommend Demo.demo_non_neural [0%Z; 1%Z] 3 Demo.no_files))
    = [CallScore "EASE" [0; 1]%Z; CallTopK 3].
Proof.
  destruct (recommend_empty_context_skips_scoring numpy_ref (Demo.demo_model VNeuralMF)
              Demo.demo_non_neural 10 Demo.no_files)
    as (Hneural & _ & Hease & _); [reflexivity..|].
  split; [reflexivity|]. split; [exact Hneural|]. split; [exact Hease|].
  split; vm_compute; reflexivity.
Defined.

(** ** The batched scoring loop *)

Section BatchLoop.

Variable md : module.

Let NU := sd_num_users (md_state md).
Let NI := sd_num_items (md_state md).

Lemma forward_fst (us its : list nat) (w : world) :
  fst (forward md us its w) = forward_pairs md us its.
Proof. unfold forward. munfold. reflexivity. Qed.

Lemma for_each_fst {A B} (l : list A) (body : A -> B -> M world B)
    (pure : A -> B -> exn + B) :
  (forall x acc w, fst (body x acc w) = pure x acc) ->
  forall acc w, fst (Neural.for_each l acc body w) = pure_for_each l acc pure.
Proof.
  intros Hbody. induction l as [|x l IH]; intros acc w; simpl; [reflexivity|].
  munfold. specialize (Hbody x acc w).
  destruct (body x acc w) as [[e|acc'] w']; simpl in Hbody; rewrite <- Hbody.
  - reflexivity.
  - apply IH.
Qed.

Lemma batch_loop_fst {T} (u n : nat) write (target : T) (w : world) :
  fst (Neural.batch_loop md u n write target w)
  = pure_for_each (range 0 n 1000) target (chunk_step md u n write).
Proof.
  unfold Neural.batch_loop. apply for_each_fst.
  intros i acc w0. unfold chunk_step, forward. munfold. simpl.
  destruct (forward_pairs md _ _); reflexivity.
Qed.

Lemma forward_pairs_ok (u i k : nat) :
  u < NU -> i + k <= NI ->
  forward_pairs md (replicate k u) (seq i k)
  = inr ((fun j => Fin (sd_score (md_state md) u j)) <$> seq i k).
Proof.
  intros Hu. revert i. induction k as [|k IH]; intros i Hi; simpl; [reflexivity|].
  unfold forward_pair. fold NU NI.
  destruct (Nat.ltb_spec u NU); [|lia]. destruct (Nat.ltb_spec i NI); [|lia]. simpl.
  rewrite IH by lia. reflexivity.
Qed.

Lemma forward_pairs_fail (u i k : nat) :
  0 < k -> NU <= u \/ NI < i + k ->
  forward_pairs md (replicate k u) (seq i k) = inl index_out_of_range.
Proof.
  revert i. induction k as [|k IH]; intros i Hk Hbad; [lia|]. simpl.
  unfold forward_pair. fold NU NI.
  destruct (Nat.ltb_spec u NU); simpl; [|reflexivity].
  destruct (Nat.ltb_spec i NI); simpl; [|reflexivity].
  rewrite IH; [reflexivity|lia|lia].
Qed.

Lemma chunk_tensors (u n i e : nat) :
  i <= e -> e <= n ->
  take (e - i) (drop i (replicate n u)) = replicate (e - i) u /\
  take (e - i) (drop i (seq 0 n)) = seq i (e - i).
Proof.
  intros Hie Hen. split.
  - rewrite drop_replicate, take_replicate. f_equal. lia.
  - rewrite drop_seq, take_seq. f_equal. lia.
Qed.

Section Chunks.

Context {T : Type}.
Variable u n : nat.
Variable write : T -> nat -> nat -> list score -> exn + T.
Variable P : nat -> T -> Prop.

Hypothesis write_ok : forall i t, i < n -> P i t ->
  exists t',
    write t i (Nat.min (i + 1000) n)
      ((fun j => Fin (sd_score (md_state md) u j)) <$> seq i (Nat.min (i + 1000) n - i))
    = inr t' /\ P (Nat.min (i + 1000) n) t'.

Lemma chunks_ok :
  u < NU -> n <= NI ->
  forall fuel i t, n - i <= fuel -> i <= n -> P i t ->
  exists t', pure_for_each (range_fuel fuel i n 1000) t (chunk_step md u n write) = inr t'
             /\ P n t'.
Proof.
  intros Hu Hn. induction fuel as [|fuel IH]; intros i t Hfuel Hi HP.
  - simpl. assert (i = n) by lia. subst. eauto.
  - simpl. destruct (Nat.ltb_spec i n) as [Hlt|Hge].
    + simpl. unfold chunk_step at 1.
      destruct (chunk_tensors u n i (Nat.min (i + 1000) n)) as [-> ->]; [lia..|].
      rewrite forward_pairs_ok by lia.
      destruct (write_ok i t Hlt HP) as (t' & -> & HP').
      destruct (Nat.lt_ge_cases (i + 1000) n) as [Hmore|Hlast].
      * rewrite Nat.min_l in HP' by lia. apply IH; [lia|lia|exact HP'].
      * rewrite Nat.min_r in HP' by lia.
        exists t'. split; [|exact HP'].
        destruct fuel; simpl; [reflexivity|].
        destruct (Nat.ltb_spec (i + 1000) n); [lia|reflexivity].
    + simpl. assert (i = n) by lia. subst. eauto.
Qed.

Lemma chunks_fail :
  NU <= u \/ NI < n ->
  forall fuel i t, n - i <= fuel -> i < n -> P i t ->
  pure_for_each (range_fuel fuel i n 1000) t (chunk_step md u n write)
  = inl index_out_of_range.
Proof.
  intros Hbad. induction fuel as [|fuel IH]; intros i t Hfuel Hi HP; [lia|].
  simpl. destruct (Nat.ltb_spec i n) as [_|]; [|lia]. simpl.
  unfold chunk_step at 1.
  destruct (chunk_tensors u n i (Nat.min (i + 1000) n)) as [-> ->]; [lia..|].
  destruct (decide (u < NU /\ Nat.min (i + 1000) n <= NI)) as [[Hu He]|Hno].
  - rewrite forward_pairs_ok by lia.
    destruct (write_ok i t Hi HP) as (t' & -> & HP').
    assert (Hmore : i + 1000 < n) by lia.
    rewrite Nat.min_l in HP' by lia. apply IH; [lia|lia|exact HP'].
  - rewrite forward_pairs_fail; [reflexivity|lia|lia].
Qed.

End Chunks.

(** One batch written to its slice of a partly filled row. *)
Lemma setitem_slice_chunk (u n i e : nat) :
  i <= e -> e <= n ->
  setitem_slice (take i (score_row md u n) ++ zeros (n - i)) i e
    ((fun j => Fin (sd_score (md_state md) u j)) <$> seq i (e - i))
  = inr (take e (score_row md u n) ++ zeros (n - e)).
Proof.
  intros Hie Hen. unfold setitem_slice, score_row, zeros.
  assert (Hlen : forall k, k <= n ->
            length (take k ((fun j => Fin (sd_score (md_state md) u j)) <$> seq 0 n)) = k).
  { intros k Hk. rewrite length_take, length_fmap, length_seq. lia. }
  rewrite length_app, Hlen, length_replicate by lia.
  replace (i + (n - i)) with n by lia.
  rewrite (Nat.min_l e n), (Nat.min_l i e) by lia.
  rewrite length_fmap, length_seq, Nat.eqb_refl.
  f_equal.
  rewrite take_app_le by (rewrite Hlen; lia).
  rewrite take_take, Nat.min_l by lia.
  rewrite drop_app_ge by (rewrite Hlen; lia).
  rewrite Hlen, drop_replicate by lia.
  replace (n - i - (e - i)) with (n - e) by lia.
  rewrite app_assoc. f_equal.
  rewrite <- !fmap_take, !take_seq, !Nat.min_l by lia.
  rewrite <- fmap_app. f_equal.
  rewrite <- seq_app. f_equal. lia.
Qed.

(** The loop of [recommend]: all items are in the table, and the loop
    yields the whole row of scores; or some index is not, and it raises. *)
Lemma score_loop_ok (u n : nat) :
  u < NU -> n <= NI ->
  pure_for_each (range 0 n 1000) (zeros n) (chunk_step md u n setitem_slice)
  = inr (score_row md u n).
Proof.
  intros Hu Hn. unfold range.
  destruct (chunks_ok u n setitem_slice
              (fun i t => i <= n /\ t = take i (score_row md u n) ++ zeros (n - i)))
    with (fuel := n) (i := 0) (t := zeros n) as (t' & -> & _ & ->); try lia.
  - intros i t Hi [_ ->]. eexists. split.
    + apply setitem_slice_chunk; lia.
    + split; [lia|reflexivity].
  - split; [lia|]. rewrite take_0, Nat.sub_0_r. reflexivity.
  - f_equal. rewrite Nat.sub_diag. unfold zeros. simpl. rewrite app_nil_r.
    apply take_ge. unfold score_row. rewrite length_fmap, length_seq. lia.
Qed.

Lemma score_loop_fail (u n : nat) :
  0 < n -> NU <= u \/ NI < n ->
  pure_for_each (range 0 n 1000) (zeros n) (chunk_step md u n setitem_slice)
  = inl index_out_of_range.
Proof.
  intros Hn Hbad. unfold range.
  apply (chunks_fail u n setitem_slice
           (fun i t => i <= n /\ t = take i (score_row md u n) ++ zeros (n - i)));
    try lia; try assumption.
  - intros i t Hi [_ ->]. eexists. split.
    + apply setitem_slice_chunk; lia.
    + split; [lia|reflexivity].
  - split; [lia|]. rewrite take_0, Nat.sub_0_r. reflexivity.
Qed.

(** The inner loop of [predict] on row [u] of the matrix. *)
Lemma row_loop_ok (u ni : nat) (done rest : list (list score)) :
  length done = u -> u < NU -> ni <= NI ->
  pure_for_each (range 0 ni 1000) (done ++ zeros ni :: rest)
    (chunk_step md u ni (Neural.setitem_row_slice u))
  = inr (done ++ score_row md u ni :: rest).
Proof.
  intros Hdone Hu Hn. subst u. unfold range.
  destruct (chunks_ok (length done) ni (Neural.setitem_row_slice (length done))
              (fun i t => i <= ni /\
                 t = done ++ (take i (score_row md (length done) ni) ++ zeros (ni - i)) :: rest))
    with (fuel := ni) (i := 0) (t := done ++ zeros ni :: rest) as (t' & -> & _ & ->);
    try lia.
  - intros i t Hi [_ ->]. eexists. split.
    + unfold Neural.setitem_row_slice.
      rewrite list_lookup_middle by reflexivity.
      rewrite setitem_slice_chunk by lia.
      rewrite insert_app_r_alt, Nat.sub_diag by lia. reflexivity.
    + split; [lia|reflexivity].
  - split; [lia|]. rewrite take_0, Nat.sub_0_r. reflexivity.
  - do 3 f_equal. rewrite Nat.sub_diag. unfold zeros. simpl. rewrite app_nil_r.
    apply take_ge. unfold score_row. rewrite length_fmap, length_seq. lia.
Qed.

Lemma row_loop_fail (u ni : nat) (done rest : list (list score)) :
  length done = u -> 0 < ni -> NU <= u \/ NI < ni ->
  pure_for_each (range 0 ni 1000) (done ++ zeros ni :: rest)
    (chunk_step md u ni (Neural.setitem_row_slice u))
  = inl index_out_of_range.
Proof.
  intros Hdone Hn Hbad. subst u. unfold range.
  apply (chunks_fail (length done) ni (Neural.setitem_row_slice (length done))
           (fun i t => i <= ni /\
              t = done ++ (take i (score_row md (length done) ni) ++ zeros (ni - i)) :: rest));
    try lia; try assumption.
  - intros i t Hi [_ ->]. eexists. split.
    + unfold Neural.setitem_row_slice.
      rewrite list_lookup_middle by reflexivity.
      rewrite setitem_slice_chunk by lia.
      rewrite insert_app_r_alt, Nat.sub_diag by lia. reflexivity.
    + split; [lia|reflexivity].
  - split; [lia|]. rewrite take_0, Nat.sub_0_r. reflexivity.
Qed.

End BatchLoop.

(** ** [predict] *)

Section Predict.

Variable md : module.

Let NU := sd_num_users (md_state md).
Let NI := sd_num_items (md_state md).

Lemma predict_fst (self : Neural.t) (rm : Neural.rating_matrix) (w : world) :
  Neural.model_loaded self = true -> Neural.model self = Some md ->
  fst (Neural.predict self rm w)
  = match predict_loops md (fst (Neural.rm_shape rm)) (snd (Neural.rm_shape rm)) with
    | inl e => inl e
    | inr p => inr (Neural.setitem_positions p (Neural.nonzero rm) NegInf)
    end.
Proof.
  intros Hloaded Hmodel. unfold Neural.predict, Neural.eval_mode, predict_loops.
  rewrite Hloaded, Hmodel. simpl. munfold.
  destruct (Neural.rm_shape rm) as [nu ni]. simpl.
  rewrite <- (for_each_fst (seq 0 nu)
                (fun u p => Neural.batch_loop md u ni (Neural.setitem_row_slice u) p)
                (fun u p => pure_for_each (range 0 ni 1000) p
                              (chunk_step md u ni (Neural.setitem_row_slice u)))
                (fun u p w0 => batch_loop_fst md u ni _ p w0)
                (replicate nu (zeros ni)) w).
  destruct (Neural.for_each _ _ _ w) as [[e|p] w']; reflexivity.
Qed.

Lemma score_matrix_S (u ni : nat) :
  score_matrix md (S u) ni = score_matrix md u ni ++ [score_row md u ni].
Proof. unfold score_matrix. rewrite seq_S, fmap_app. reflexivity. Qed.

Lemma length_score_matrix (u ni : nat) : length (score_matrix md u ni) = u.
Proof. unfold score_matrix. rewrite length_fmap, length_seq. reflexivity. Qed.

Lemma user_loop_ok (ni : nat) :
  ni <= NI ->
  forall k u, u + k <= NU ->
  pure_for_each (seq u k) (score_matrix md u ni ++ replicate k (zeros ni))
    (fun u p => pure_for_each (range 0 ni 1000) p
                  (chunk_step md u ni (Neural.setitem_row_slice u)))
  = inr (score_matrix md (u + k) ni).
Proof.
  intros Hni. induction k as [|k IH]; intros u Hu; simpl.
  - rewrite app_nil_r, Nat.add_0_r. reflexivity.
  - rewrite row_loop_ok; [|apply length_score_matrix|fold NU; lia|fold NI; lia].
    rewrite (cons_middle _ (score_matrix md u ni)), app_assoc, <- score_matrix_S.
    rewrite IH by lia. f_equal. f_equal. lia.
Qed.

Lemma user_loop_fail (ni : nat) :
  0 < ni ->
  forall k u, 0 < k -> NI < ni \/ NU < u + k ->
  pure_for_each (seq u k) (score_matrix md u ni ++ replicate k (zeros ni))
    (fun u p => pure_for_each (range 0 ni 1000) p
                  (chunk_step md u ni (Neural.setitem_row_slice u)))
  = inl index_out_of_range.
Proof.
  intros Hni. induction k as [|k IH]; intros u Hk Hbad; [lia|]. simpl.
  destruct (decide (NI < ni \/ NU <= u)) as [Hnow|Hlater].
  - rewrite row_loop_fail; [reflexivity|apply length_score_matrix|lia|fold NU NI; lia].
  - rewrite row_loop_ok; [|apply length_score_matrix|fold NU; lia|fold NI; lia].
    rewrite (cons_middle _ (score_matrix md u ni)), app_assoc, <- score_matrix_S.
    apply IH; lia.
Qed.

(** The loops succeed on a matrix that fits the tables of the network and
    raise on a non-empty one that does not. *)
Lemma predict_loops_ok (nu ni : nat) :
  nu <= NU -> ni <= NI -> predict_loops md nu ni = inr (score_matrix md nu ni).
Proof.
  intros Hnu Hni. unfold predict_loops.
  apply (user_loop_ok ni Hni nu 0). lia.
Qed.

Lemma predict_loops_fail (nu ni : nat) :
  0 < nu -> 0 < ni -> NU < nu \/ NI < ni ->
  predict_loops md nu ni = inl index_out_of_range.
Proof.
  intros Hnu Hni Hbad. unfold predict_loops.
  apply (user_loop_fail ni Hni nu 0); lia.
Qed.

End Predict.

(** ** Masking the known entries *)

Section Masking.

Lemma entry_at_alter_insert (p : list (list score)) (r' c' r c : nat) (v : score) :
  entry_at (alter (fun row => <[c' := v]> row) r' p) r c
  = if decide ((r', c') = (r, c)) then entry_at p r c ≫= (fun _ => Some v)
    else entry_at p r c.
Proof.
  unfold entry_at.
  destruct (decide (r' = r)) as [->|Hr].
  - rewrite list_lookup_alter_eq. destruct (p !! r) as [row|]; simpl.
    + destruct (decide (c' = c)) as [->|Hc].
      * rewrite decide_True by reflexivity.
        destruct (decide (c < length row)) as [Hlt|Hge].
        -- rewrite list_lookup_insert_eq by lia.
           destruct (lookup_lt_is_Some_2 row c Hlt) as [x ->]. reflexivity.
        -- rewrite list_insert_ge by lia.
           rewrite lookup_ge_None_2 by lia. reflexivity.
      * rewrite list_lookup_insert_ne by exact Hc.
        rewrite decide_False by congruence. reflexivity.
    + destruct (decide ((r, c') = (r, c))); reflexivity.
  - rewrite list_lookup_alter_ne by exact Hr.
    rewrite decide_False by congruence. reflexivity.
Qed.

Lemma entry_at_setitem_positions (pos : list (nat * nat)) (v : score) :
  forall (p : list (list score)) (r c : nat),
  entry_at (Neural.setitem_positions p pos v) r c
  = if decide ((r, c) ∈ pos) then entry_at p r c ≫= (fun _ => Some v)
    else entry_at p r c.
Proof.
  unfold Neural.setitem_positions.
  induction pos as [|[r' c'] pos IH]; intros p r c; cbn [foldl].
  - destruct (decide ((r, c) ∈ [])) as [Hin|_]; [inversion Hin|reflexivity].
  - rewrite IH, entry_at_alter_insert.
    destruct (decide ((r, c) ∈ pos)) as [Hin|Hnotin].
    + rewrite (decide_True (P := (r, c) ∈ (r', c') :: pos))
        by (apply elem_of_cons; right; exact Hin).
      destruct (decide ((r', c') = (r, c))); [|reflexivity].
      destruct (entry_at p r c); reflexivity.
    + destruct (decide ((r', c') = (r, c))) as [E|E].
      * rewrite (decide_True (P := (r, c) ∈ (r', c') :: pos))
          by (apply elem_of_cons; left; congruence).
        reflexivity.
      * rewrite (decide_False (P := (r, c) ∈ (r', c') :: pos)); [reflexivity|].
        intros Hin. apply elem_of_cons in Hin as [Hin|Hin]; [congruence|contradiction].
Qed.

Lemma setitem_positions_shape (pos : list (nat * nat)) (v : score) (nu ni : nat) :
  forall p, has_shape p nu ni -> has_shape (Neural.setitem_positions p pos v) nu ni.
Proof.
  unfold Neural.setitem_positions.
  induction pos as [|[r c] pos IH]; intros p Hp; simpl; [exact Hp|].
  apply IH. destruct Hp as [Hlen Hrows]. split.
  - rewrite length_alter. exact Hlen.
  - apply Forall_alter; [exact Hrows|].
    intros row _ Hrow. rewrite length_insert. exact Hrow.
Qed.

Lemma nonzero_spec (rm : Neural.rating_matrix) (r c : nat) :
  (r, c) ∈ Neural.nonzero rm <->
  r < fst (Neural.rm_shape rm) /\ c < snd (Neural.rm_shape rm) /\
  Qeq_bool (Neural.rm_entry rm r c) 0 = false.
Proof.
  unfold Neural.nonzero. rewrite list_elem_of_In, in_flat_map. split.
  - intros (r0 & Hr0 & Hin). apply in_map_iff in Hin as (c0 & [= <- <-] & Hc0).
    apply filter_In in Hc0 as [Hc0 Hnz]. apply in_seq in Hr0, Hc0.
    apply negb_true_iff in Hnz. repeat split; [lia|lia|exact Hnz].
  - intros (Hr & Hc & Hnz). exists r. split; [apply in_seq; lia|].
    apply in_map_iff. exists c. split; [reflexivity|].
    apply filter_In. split; [apply in_seq; lia|]. rewrite Hnz. reflexivity.
Qed.

Lemma entry_at_score_matrix (md : module) (nu ni r c : nat) :
  r < nu -> c < ni ->
  entry_at (score_matrix md nu ni) r c = Some (Fin (sd_score (md_state md) r c)).
Proof.
  intros Hr Hc. unfold entry_at, score_matrix, score_row.
  rewrite list_lookup_fmap, lookup_seq_lt by lia. simpl.
  rewrite list_lookup_fmap, lookup_seq_lt by lia. reflexivity.
Qed.

Lemma score_matrix_shape (md : module) (nu ni : nat) :
  has_shape (score_matrix md nu ni) nu ni.
Proof.
  split.
  - unfold score_matrix. rewrite length_fmap, length_seq. reflexivity.
  - unfold score_matrix. apply Forall_fmap, Forall_forall. intros u _. simpl.
    unfold score_row. rewrite length_fmap, length_seq. reflexivity.
Qed.

End Masking.

Section PredictClaims.

Lemma predict_fits (self : Neural.t) (md : module) (rm : Neural.rating_matrix) (w : world) :
  restored self md ->
  fst (Neural.rm_shape rm) <= Neural.num_users self ->
  snd (Neural.rm_shape rm) <= Neural.num_items self ->
  fst (Neural.predict self rm w)
  = inr (Neural.setitem_positions
           (score_matrix md (fst (Neural.rm_shape rm)) (snd (Neural.rm_shape rm)))
           (Neural.nonzero rm) NegInf).
Proof.
  intros (Hloaded & Hmodel & HNU & HNI) Hnu Hni.
  rewrite (predict_fst md) by assumption.
  rewrite predict_loops_ok by lia. reflexivity.
Qed.

(** C7. [predict] on an instance that is not loaded raises "Model not
    loaded" and leaves the environment as it was. On a loaded instance and
    a rating matrix within the invariant of the data model (the matrix has
    the shape the model records; the theorem asks no more than that it has
    no more rows than the model has users and no more columns than it has
    items), [predict] (the same function for [NeuralMF] and [DeepFM])
    returns a dense matrix of the shape of the input whose entry is
    negative infinity wherever the input is nonzero, and the score of the
    network elsewhere. *)
Theorem predict_masks_known_entries
    (self : Neural.t) (rm : Neural.rating_matrix) (w : world) :
  (Neural.model_loaded self = false ->
     NeuralMF.predict self rm w = (inl Neural.not_loaded, w) /\
     DeepFM.predict self rm w = (inl Neural.not_loaded, w)) /\
  (forall md, restored self md ->
     fst (Neural.rm_shape rm) <= Neural.num_users self ->
     snd (Neural.rm_shape rm) <= Neural.num_items self ->
     exists p,
       fst (NeuralMF.predict self rm w) = inr p /\
       fst (DeepFM.predict self rm w) = inr p /\
       has_shape p (fst (Neural.rm_shape rm)) (snd (Neural.rm_shape rm)) /\
       forall r c, r < fst (Neural.rm_shape rm) -> c < snd (Neural.rm_shape rm) ->
         entry_at p r c
         = Some (if Qeq_bool (Neural.rm_entry rm r c) 0
                 then Fin (sd_score (md_state md) r c) else NegInf)).
Proof.
  split.
  - intros Hnot. unfold NeuralMF.predict, DeepFM.predict, Neural.predict.
    rewrite Hnot. simpl. auto.
  - intros md Hres Hnu Hni. eexists.
    unfold NeuralMF.predict, DeepFM.predict.
    split; [apply (predict_fits self md rm w Hres Hnu Hni)|].
    split; [apply (predict_fits self md rm w Hres Hnu Hni)|].
    split; [apply setitem_positions_shape, score_matrix_shape|].
    intros r c Hr Hc.
    rewrite entry_at_setitem_positions, entry_at_score_matrix by assumption.
    destruct (Qeq_bool (Neural.rm_entry rm r c) 0) eqn:Hz.
    + rewrite decide_False; [reflexivity|].
      intros Hin. apply nonzero_spec in Hin as (_ & _ & Hnz). congruence.
    + rewrite decide_True; [reflexivity|].
      apply nonzero_spec. auto.
Qed.

(** C4, as the code has it. [predict] does not compare the shape of the
    rating matrix with the recorded numbers of users and items: on a
    restored instance, a matrix that is no larger in either dimension is
    scored, whether or not the shapes agree, and a matrix with at least
    one row and one column that is larger in some dimension makes an
    embedding lookup raise "index out of range". *)
Theorem predict_does_not_check_shape
    (self : Neural.t) (md : module) (rm : Neural.rating_matrix) (w : world) :
  restored self md ->
  (fst (Neural.rm_shape rm) <= Neural.num_users self ->
   snd (Neural.rm_shape rm) <= Neural.num_items self ->
   exists p, fst (Neural.predict self rm w) = inr p /\
             has_shape p (fst (Neural.rm_shape rm)) (snd (Neural.rm_shape rm))) /\
  (0 < fst (Neural.rm_shape rm) -> 0 < snd (Neural.rm_shape rm) ->
   Neural.num_users self < fst (Neural.rm_shape rm) \/
   Neural.num_items self < snd (Neural.rm_shape rm) ->
   fst (Neural.predict self rm w) = inl index_out_of_range).
Proof.
  intros Hres. split.
  - intros Hnu Hni. eexists. split; [apply (predict_fits self md rm w Hres Hnu Hni)|].
    apply setitem_positions_shape, score_matrix_shape.
  - destruct Hres as (Hloaded & Hmodel & HNU & HNI). intros Hnu Hni Hbad.
    rewrite (predict_fst md) by assumption.
    rewrite predict_loops_fail by lia. reflexivity.
Qed.

End PredictClaims.

Lemma demo_model_restored (v : variant) : restored (Demo.demo_model v) (Demo.demo_module v).
Proof. repeat split. Qed.

Lemma predict_masks_known_entries_witness :
  restored (Demo.demo_model VNeuralMF) (Demo.demo_module VNeuralMF) /\
  exists p,
    fst (NeuralMF.predict (Demo.demo_model VNeuralMF) Demo.smaller_matrix Demo.no_files) = inr p /\
    has_shape p 2 3 /\
    entry_at p 1 1 = Some NegInf /\
    entry_at p 1 2 = Some (Fin (3 # 10)).
Proof.
  split; [apply demo_model_restored|].
  destruct (proj2 (predict_masks_known_entries (Demo.demo_model VNeuralMF)
                     Demo.smaller_matrix Demo.no_files)
              (Demo.demo_module VNeuralMF) (demo_model_restored VNeuralMF))
    as (p & Hp & _ & Hshape & Hentry); [simpl; lia..|].
  exists p. split; [exact Hp|]. split; [exact Hshape|].
  split; [apply (Hentry 1 1); simpl; lia | apply (Hentry 1 2); simpl; lia].
Defined.

(** Outside that invariant: the model has 3 users and the matrix 4 rows;
    [predict] raises and returns no matrix. *)
Lemma predict_raises_on_larger_matrix :
  Neural.model_loaded (Demo.demo_model VNeuralMF) = true /\
  Neural.rm_shape Demo.larger_matrix = (4, 3) /\
  fst (NeuralMF.predict (Demo.demo_model VNeuralMF) Demo.larger_matrix Demo.no_files)
    = inl (IndexError "index out of range in self").
Proof. vm_compute. auto. Qed.

Lemma predict_does_not_check_shape_witness :
  restored (Demo.demo_model VDeepFM) (Demo.demo_module VDeepFM) /\
  (exists p, fst (Neural.predict (Demo.demo_model VDeepFM) Demo.smaller_matrix Demo.no_files)
             = inr p /\ has_shape p 2 3) /\
  fst (Neural.predict (Demo.demo_model VDeepFM) Demo.larger_matrix Demo.no_files)
    = inl index_out_of_range.
Proof.
  split; [apply demo_model_restored|]. split.
  - apply (proj1 (predict_does_not_check_shape (Demo.demo_model VDeepFM)
                    (Demo.demo_module VDeepFM) Demo.smaller_matrix Demo.no_files
                    (demo_model_restored VDeepFM))); simpl; lia.
  - apply (proj2 (predict_does_not_check_shape (Demo.demo_model VDeepFM)
                    (Demo.demo_module VDeepFM) Demo.larger_matrix Demo.no_files
                    (demo_model_restored VDeepFM))); simpl; lia.
Defined.

(** C4, the claim as written fails: the model records 3 users and 5 items,
    the matrix is 2 by 3, and [predict] returns its scores. *)
Lemma predict_accepts_other_shape :
  (Neural.num_users (Demo.demo_model VNeuralMF), Neural.num_items (Demo.demo_model VNeuralMF))
    = (3, 5) /\
  Neural.rm_shape Demo.smaller_matrix = (2, 3) /\
  fst (NeuralMF.predict (Demo.demo_model VNeuralMF) Demo.smaller_matrix Demo.no_files)
    = inr [ [NegInf; Fin (2 # 10); Fin (3 # 10)];
            [Fin (1 # 10); NegInf; Fin (3 # 10)] ].
Proof. vm_compute. auto. Qed.

(** ** The top-k selection *)

Section Gather.

Lemma gather_seq {A} `{Inhabited A} (l : list A) :
  gather l (seq 0 (length l)) = l.
Proof.
  unfold gather. apply list_eq. intros i. rewrite list_lookup_fmap.
  destruct (decide (i < length l)) as [Hlt|Hge].
  - rewrite lookup_seq_lt by exact Hlt. simpl.
    symmetry. apply list_lookup_lookup_total_lt, Hlt.
  - rewrite lookup_seq_ge by lia. rewrite lookup_ge_None_2 by lia. reflexivity.
Qed.

Lemma gather_perm {A} `{Inhabited A} (l : list A) (order : list nat) :
  order ≡ₚ seq 0 (length l) -> gather l order ≡ₚ l.
Proof.
  intros Hperm. rewrite <- (gather_seq l) at 2.
  unfold gather. apply fmap_Permutation, Hperm.
Qed.

Lemma lookup_total_neg (scores : list score) (x : nat) :
  x < length scores -> (neg <$> scores) !!! x = neg (scores !!! x).
Proof. intros Hx. apply list_lookup_total_fmap, Hx. Qed.

Lemma lookup_total_gather (l : list score) (idx : list nat) (i : nat) :
  i < length idx -> gather l idx !!! i = l !!! (idx !!! i).
Proof.
  intros Hi. unfold gather.
  exact (list_lookup_total_fmap (fun o => l !!! o) idx i Hi).
Qed.

Lemma lookup_gather {A} `{Inhabited A} (l : list A) (idx : list nat) (i : nat) (x : A) :
  gather l idx !! i = Some x -> exists o, idx !! i = Some o /\ x = l !!! o.
Proof.
  unfold gather. rewrite list_lookup_fmap.
  destruct (idx !! i) as [o|]; simpl; [|discriminate].
  intros [= <-]. eauto.
Qed.

Lemma perm_seq_lt (idx : list nat) (n i x : nat) :
  idx ≡ₚ seq 0 n -> idx !! i = Some x -> x < n.
Proof.
  intros Hperm Hi. apply list_elem_of_lookup_2 in Hi.
  rewrite Hperm in Hi. apply elem_of_seq in Hi. lia.
Qed.

End Gather.

Section TopK.

Variable np : numpy.
Hypothesis np_ok : numpy_ok np.

Variable scores : list score.
Variable top_k : Z.
Hypothesis top_k_range : (0 <= top_k < Z.of_nat (length scores))%Z.

Let k := Z.to_nat top_k.
Let part := np_select np (neg <$> scores) k.
Let top := take k part.
Let res := gather top (np_argsort np (neg <$> gather scores top)).

Lemma part_partition : is_partition (neg <$> scores) k part.
Proof. apply (select_ok np np_ok). rewrite length_fmap. subst k. lia. Qed.

Lemma part_perm : part ≡ₚ seq 0 (length scores).
Proof. destruct part_partition as [Hperm _]. rewrite length_fmap in Hperm. exact Hperm. Qed.

Lemma length_part : length part = length scores.
Proof. rewrite part_perm. apply length_seq. Qed.

Lemma length_top : length top = k.
Proof. subst top. rewrite length_take, length_part. subst k. lia. Qed.

Lemma top_k_select_eq : Neural.top_k_select np scores top_k = inr res.
Proof.
  unfold Neural.top_k_select, argpartition. rewrite length_fmap.
  destruct (Z.ltb_spec top_k 0) as [Hneg|_]; [lia|].
  destruct (Z.ltb_spec top_k 0) as [Hneg|_]; [lia|].
  destruct (Z.leb_spec (Z.of_nat (length scores)) top_k) as [Hbig|_]; [lia|].
  rewrite andb_false_r. fold k part.
  unfold slice_to. rewrite length_part.
  destruct (Z.ltb_spec top_k 0) as [Hneg|_]; [lia|].
  rewrite Z.min_l by lia. reflexivity.
Qed.

Lemma order_perm :
  np_argsort np (neg <$> gather scores top) ≡ₚ seq 0 (length top).
Proof.
  destruct (argsort_ok np np_ok (neg <$> gather scores top)) as [Hperm _].
  unfold gather in Hperm. rewrite !length_fmap in Hperm. exact Hperm.
Qed.

Lemma res_perm : res ≡ₚ top.
Proof. apply gather_perm, order_perm. Qed.

Lemma length_res : length res = k.
Proof. rewrite res_perm. apply length_top. Qed.

Lemma NoDup_part : NoDup part.
Proof. rewrite part_perm. apply NoDup_seq. Qed.

Lemma NoDup_res : NoDup res.
Proof.
  rewrite res_perm. subst top.
  eapply sublist_NoDup; [apply NoDup_part|apply sublist_take].
Qed.

Lemma res_in_range (x : nat) : x ∈ res -> x < length scores.
Proof.
  intros Hx. rewrite res_perm in Hx. subst top.
  apply elem_of_take in Hx as (i & Hi & _).
  eapply perm_seq_lt; [apply part_perm|exact Hi].
Qed.

(** From one position of the result to a later one the score never goes
    up. *)
Lemma res_non_increasing : non_increasing scores res.
Proof.
  intros i j x y Hij Hx Hy.
  apply lookup_gather in Hx as (oi & Hoi & ->).
  apply lookup_gather in Hy as (oj & Hoj & ->).
  destruct (argsort_ok np np_ok (neg <$> gather scores top)) as [_ Hsorted].
  pose proof (Hsorted i j oi oj Hij Hoi Hoj) as Hle.
  assert (Hoi_lt : oi < length top) by (eapply perm_seq_lt; [apply order_perm|exact Hoi]).
  assert (Hoj_lt : oj < length top) by (eapply perm_seq_lt; [apply order_perm|exact Hoj]).
  rewrite !lookup_total_neg in Hle by (unfold gather; rewrite length_fmap; assumption).
  rewrite sle_neg in Hle.
  rewrite !lookup_total_gather in Hle by assumption.
  exact Hle.
Qed.

(** No item that is left out scores more than an item that is returned. *)
Lemma res_dominates (x y : nat) :
  x ∈ res -> y < length scores -> y ∉ res ->
  sle (scores !!! y) (scores !!! x) = true.
Proof.
  intros Hx Hy Hny.
  rewrite res_perm in Hx, Hny.
  assert (Hx' := Hx). subst top. apply elem_of_take in Hx' as (i & Hi & Hik).
  assert (Hyin : y ∈ part) by (rewrite part_perm; apply elem_of_seq; lia).
  apply list_elem_of_lookup in Hyin as (j & Hj).
  assert (Hjk : k <= j).
  { destruct (decide (k <= j)) as [|Hlt]; [assumption|]. exfalso. apply Hny.
    apply elem_of_take. exists j. split; [exact Hj|lia]. }
  assert (Hk : k < length part) by (rewrite length_part; subst k; lia).
  destruct (lookup_lt_is_Some_2 part k Hk) as [p Hp].
  destruct part_partition as [_ Hpart].
  assert (Hxn : x < length scores) by (eapply perm_seq_lt; [apply part_perm|exact Hi]).
  assert (Hpn : p < length scores) by (eapply perm_seq_lt; [apply part_perm|exact Hp]).
  destruct (Hpart i x p Hi Hp) as [Hbefore _].
  specialize (Hbefore Hik).
  rewrite !lookup_total_neg, sle_neg in Hbefore by assumption.
  destruct (decide (j = k)) as [->|Hne].
  - assert (y = p) by congruence. subst y. exact Hbefore.
  - destruct (Hpart j y p Hj Hp) as [_ Hafter].
    assert (Hlt : k < j) by lia. specialize (Hafter Hlt).
    rewrite !lookup_total_neg, sle_neg in Hafter by assumption.
    eapply sle_trans; eassumption.
Qed.

Lemma sle_masked (a b : score) :
  sle a b = true -> is_masked b = true -> is_masked a = true.
Proof. destruct a, b; simpl; auto; discriminate. Qed.

Lemma length_filter_indices (f : score -> bool) (l : list score) :
  length (List.filter (fun i => f (l !!! i)) (seq 0 (length l)))
  = length (List.filter f l).
Proof.
  transitivity (length (List.filter f (gather l (seq 0 (length l)))));
    [|rewrite gather_seq; reflexivity].
  unfold gather. generalize (seq 0 (length l)). intros idx.
  induction idx as [|i idx IH]; simpl; [reflexivity|].
  destruct (f (l !!! i)); simpl; rewrite IH; reflexivity.
Qed.

(** When at least [k] items are not masked, no masked item is returned. *)
Lemma res_unmasked (x : nat) :
  k <= available scores -> x ∈ res -> is_masked (scores !!! x) = false.
Proof.
  intros Havail Hx.
  destruct (is_masked (scores !!! x)) eqn:Hmasked; [exfalso|reflexivity].
  set (U := List.filter (fun i => negb (is_masked (scores !!! i)))
              (seq 0 (length scores))).
  assert (HU : length U = available scores)
    by apply (length_filter_indices (fun s => negb (is_masked s))).
  assert (Hincl : incl (x :: U) res).
  { intros u [<-|Hu]; [apply list_elem_of_In, Hx|].
    apply filter_In in Hu as [Hrange Hun]. apply in_seq in Hrange.
    apply list_elem_of_In.
    destruct (decide (u ∈ res)) as [|Hout]; [assumption|exfalso].
    pose proof (res_dominates x u Hx ltac:(lia) Hout) as Hle.
    rewrite (sle_masked _ _ Hle Hmasked) in Hun. discriminate. }
  assert (Hnodup : List.NoDup (x :: U)).
  { constructor.
    - intros Hin. apply filter_In in Hin as [_ Hun].
      rewrite Hmasked in Hun. discriminate.
    - apply List.NoDup_filter, NoDup_ListNoDup, NoDup_seq. }
  pose proof (List.NoDup_incl_length Hnodup Hincl) as Hlen.
  simpl in Hlen. rewrite HU, length_res in Hlen. lia.
Qed.

End TopK.

(** C2, as the code has it. For a NumPy that meets its contract, a score
    vector and [0 <= top_k < numItems] with at least [top_k] scores not
    masked, the selection returns exactly [top_k = min(top_k, available)]
    item indices; they are pairwise distinct, none of them is masked, from
    one to the next the score never goes up, and no item that is left out
    scores more than one that is returned. Nothing is said of the order of
    items of equal score. *)
Theorem top_k_select_returns_top_k (np : numpy) (scores : list score) (top_k : Z) :
  numpy_ok np ->
  (0 <= top_k < Z.of_nat (length scores))%Z ->
  Z.to_nat top_k <= available scores ->
  exists res,
    Neural.top_k_select np scores top_k = inr res /\
    length res = Nat.min (Z.to_nat top_k) (available scores) /\
    NoDup res /\
    (forall x, x ∈ res -> x < length scores /\ is_masked (scores !!! x) = false) /\
    non_increasing scores res /\
    (forall x y, x ∈ res -> y < length scores -> y ∉ res ->
       sle (scores !!! y) (scores !!! x) = true).
Proof.
  intros Hnp Hk Havail. eexists.
  split; [apply (top_k_select_eq np Hnp scores top_k Hk)|].
  split; [rewrite (length_res np Hnp scores top_k Hk); lia|].
  split; [apply (NoDup_res np Hnp scores top_k Hk)|].
  split; [|split].
  - intros x Hx. split.
    + apply (res_in_range np Hnp scores top_k Hk x Hx).
    + apply (res_unmasked np Hnp scores top_k Hk x Havail Hx).
  - apply (res_non_increasing np Hnp scores top_k).
  - apply (res_dominates np Hnp scores top_k Hk).
Qed.

Lemma top_k_select_returns_top_k_witness :
  numpy_ok numpy_ref /\
  (0 <= 2 < Z.of_nat (length [NegInf; Fin (1 # 2); Fin (1 # 2); Fin (1 # 10)]))%Z /\
  Z.to_nat 2 <= available [NegInf; Fin (1 # 2); Fin (1 # 2); Fin (1 # 10)] /\
  exists res,
    Neural.top_k_select numpy_ref [NegInf; Fin (1 # 2); Fin (1 # 2); Fin (1 # 10)] 2 = inr res /\
    length res = 2 /\ NoDup res.
Proof.
  split; [apply numpy_ref_ok|]. split; [cbv [length]; lia|].
  split; [vm_compute; lia|].
  destruct (top_k_select_returns_top_k numpy_ref
              [NegInf; Fin (1 # 2); Fin (1 # 2); Fin (1 # 10)] 2 numpy_ref_ok)
    as (res & Hres & Hlen & Hnodup & _); [cbv [length]; lia|vm_compute; lia|].
  exists res. auto.
Defined.

(** C2, the claim as written fails. With three items of which two are not
    masked and [top_k = 3] the selection raises instead of returning
    [min(3, 2)] indices; and a NumPy that meets the contract returns the
    two items of equal score with the larger index first. *)
Lemma top_k_select_raises_and_ties_are_free :
  available [NegInf; Fin (1 # 2); Fin (1 # 4)] = 2 /\
  Neural.top_k_select numpy_ref [NegInf; Fin (1 # 2); Fin (1 # 4)] 3
    = inl (ValueError "kth(=3) out of bounds (3)") /\
  numpy_ok numpy_alt /\
  Neural.top_k_select numpy_alt [NegInf; Fin (1 # 2); Fin (1 # 2); Fin (1 # 10)] 2
    = inr [2; 1] /\
  ~ descending_ties_by_index [NegInf; Fin (1 # 2); Fin (1 # 2); Fin (1 # 10)] [2; 1].
Proof.
  split; [reflexivity|]. split; [vm_compute; reflexivity|].
  split; [apply numpy_alt_ok|]. split; [vm_compute; reflexivity|].
  intros Hclaim. destruct (Hclaim 0 1 2 1) as [Hlt|[_ Hidx]]; try reflexivity.
  - lia.
  - vm_compute in Hlt. discriminate.
  - lia.
Qed.

(** ** [recommend] on a non-empty context *)

Section Recommend.

Variable np : numpy.

Lemma recommend_fst (self : Neural.t) (md : module) (ctx : list Z) (top_k : Z) (w : world) :
  Neural.model_loaded self = true -> Neural.model self = Some md -> ctx <> [] ->
  fst (Neural.recommend np self ctx top_k w)
  = match pure_for_each (range 0 (Neural.num_items self) 1000)
            (zeros (Neural.num_items self))
            (chunk_step md 0 (Neural.num_items self) setitem_slice) with
    | inl e => inl e
    | inr scores =>
        match setitem_list scores ctx NegInf with
        | inl e => inl e
        | inr masked =>
            match Neural.top_k_select np masked top_k with
            | inl e => inl e
            | inr idx => inr (Z.of_nat <$> idx)
            end
        end
    end.
Proof.
  intros Hloaded Hmodel Hctx. unfold Neural.recommend, Neural.eval_mode.
  rewrite Hloaded, Hmodel. simpl.
  destruct ctx as [|i ctx]; [contradiction|].
  rewrite <- (batch_loop_fst md 0 (Neural.num_items self) setitem_slice
                (zeros (Neural.num_items self)) w).
  munfold. cbn [length Nat.eqb]. cbv beta.
  destruct (Neural.batch_loop md 0 _ setitem_slice _ w) as [[e|scores] w']; simpl;
    [reflexivity|].
  destruct (setitem_list scores (i :: ctx) NegInf) as [e|masked]; simpl; [reflexivity|].
  destruct (Neural.top_k_select np masked top_k); reflexivity.
Qed.

(** A list returned for a non-empty context comes from the selection:
    the last observed call is the selection's. *)
Lemma recommend_nonempty_selects (self : Neural.t) (ctx res : list Z) (top_k : Z)
    (w w' : world) :
  ctx <> [] ->
  Neural.recommend np self ctx top_k w = (inr res, w') ->
  exists before, calls w' = before ++ [CallTopK top_k].
Proof.
  intros Hctx. unfold Neural.recommend, Neural.eval_mode.
  destruct (Neural.model_loaded self); simpl; [|discriminate].
  destruct ctx as [|i ctx]; [contradiction|].
  munfold. cbn [length Nat.eqb]. cbv beta.
  destruct (Neural.model self) as [md|]; [|discriminate].
  destruct (Neural.batch_loop md 0 _ setitem_slice _ w) as [[e|scores] w1];
    [discriminate|].
  destruct (setitem_list scores (i :: ctx) NegInf) as [e|masked]; [discriminate|].
  simpl. destruct (Neural.top_k_select np masked top_k); [discriminate|].
  intros [= _ <-]. simpl. eauto.
Qed.

Lemma norm_index_error (n : nat) (i : Z) (e : exn) :
  norm_index n i = inl e -> exists msg, e = IndexError msg.
Proof.
  unfold norm_index. destruct (_ || _); [|discriminate]. intros [= <-]. eauto.
Qed.

Lemma norm_indices_error (n : nat) (ctx : list Z) (e : exn) :
  norm_indices n ctx = inl e -> exists msg, e = IndexError msg.
Proof.
  induction ctx as [|i ctx IH]; simpl; [discriminate|].
  destruct (norm_index n i) as [e0|p] eqn:Hi.
  - intros [= <-]. eapply norm_index_error, Hi.
  - destruct (norm_indices n ctx) as [e0|ps]; [|discriminate].
    intros [= <-]. apply IH. reflexivity.
Qed.

Lemma norm_indices_empty_axis (ctx : list Z) :
  ctx <> [] -> exists msg, norm_indices 0 ctx = inl (IndexError msg).
Proof.
  destruct ctx as [|i ctx]; [contradiction|]. intros _.
  cbn [norm_indices]. unfold norm_index.
  change (Z.of_nat 0) with 0%Z. change (- 0)%Z with 0%Z.
  destruct (Z.ltb_spec i 0); [simpl; eauto|].
  destruct (Z.leb_spec 0 i); [simpl; eauto|lia].
Qed.

Lemma norm_indices_valid (n : nat) (ctx : list Z) :
  (forall i, i ∈ ctx -> (- Z.of_nat n <= i < Z.of_nat n)%Z) ->
  exists ps, norm_indices n ctx = inr ps.
Proof.
  induction ctx as [|i ctx IH]; intros Hvalid; simpl; [eauto|].
  unfold norm_index.
  pose proof (Hvalid i ltac:(left)) as Hi.
  destruct (Z.ltb_spec i (- Z.of_nat n)); [lia|].
  destruct (Z.leb_spec (Z.of_nat n) i); [lia|]. simpl.
  destruct IH as [ps ->]; [|eauto].
  intros j Hj. apply Hvalid. right. exact Hj.
Qed.

Lemma setitem_list_length (a a' : list score) (ctx : list Z) (v : score) :
  setitem_list a ctx v = inr a' -> length a' = length a.
Proof.
  unfold setitem_list. destruct (norm_indices (length a) ctx) as [e|ps]; [discriminate|].
  intros [= <-]. clear. revert a.
  induction ps as [|p ps IH]; intros a; simpl; [reflexivity|].
  rewrite IH, length_insert. reflexivity.
Qed.

Lemma setitem_list_error (a : list score) (ctx : list Z) (v : score) (e : exn) :
  setitem_list a ctx v = inl e -> exists msg, e = IndexError msg.
Proof.
  unfold setitem_list. destruct (norm_indices (length a) ctx) as [e0|ps] eqn:Hn;
    [|discriminate].
  intros [= <-]. eapply norm_indices_error, Hn.
Qed.

Lemma top_k_select_out_of_bounds (scores : list score) (top_k : Z) :
  0 < length scores -> (Z.of_nat (length scores) <= top_k)%Z ->
  Neural.top_k_select np scores top_k = inl (kth_out_of_bounds top_k (length scores)).
Proof.
  intros Hn Hk. unfold Neural.top_k_select, argpartition, kth_out_of_bounds.
  rewrite length_fmap.
  destruct (Z.ltb_spec top_k 0) as [|_]; [lia|].
  destruct (Nat.eqb_spec (length scores) 0) as [|_]; [lia|].
  destruct (Z.ltb_spec top_k 0) as [|_]; [lia|].
  destruct (Z.leb_spec (Z.of_nat (length scores)) top_k) as [_|]; [|lia].
  reflexivity.
Qed.

Lemma length_score_row (md : module) (u n : nat) : length (score_row md u n) = n.
Proof. unfold score_row. rewrite length_fmap, length_seq. reflexivity. Qed.

End Recommend.

Section RecommendClaims.

Variable np : numpy.

(** The scores [recommend] selects from, on a restored instance with at
    least one user: the row of user 0 with the context masked. *)
Lemma recommend_restored (self : Neural.t) (md : module) (ctx : list Z) (top_k : Z)
    (w : world) :
  restored self md -> ctx <> [] -> 0 < Neural.num_users self ->
  fst (Neural.recommend np self ctx top_k w)
  = match setitem_list (score_row md 0 (Neural.num_items self)) ctx NegInf with
    | inl e => inl e
    | inr masked =>
        match Neural.top_k_select np masked top_k with
        | inl e => inl e
        | inr idx => inr (Z.of_nat <$> idx)
        end
    end.
Proof.
  intros (Hloaded & Hmodel & HNU & HNI) Hctx Husers.
  rewrite (recommend_fst np self md) by assumption.
  rewrite score_loop_ok by lia. reflexivity.
Qed.

(** C10. On a restored instance of either class and a non-empty context,
    [recommend] with [top_k >= numItems] never returns a list: it raises
    an [IndexError] (an embedding lookup or a context index out of range)
    or the [ValueError] of [argpartition], "kth(=top_k) out of bounds
    (numItems)"; with at least one user and a context of valid indices it
    is that [ValueError]. *)
Theorem recommend_raises_when_top_k_reaches_num_items
    (self : Neural.t) (md : module) (ctx : list Z) (top_k : Z) (w : world) :
  restored self md -> ctx <> [] ->
  (Z.of_nat (Neural.num_items self) <= top_k)%Z ->
  exists e,
    fst (NeuralMF.recommend np self ctx top_k w) = inl e /\
    fst (DeepFM.recommend np self ctx top_k w) = inl e /\
    ((exists msg, e = IndexError msg) \/
     e = kth_out_of_bounds top_k (Neural.num_items self)) /\
    (0 < Neural.num_users self ->
     (forall i, i ∈ ctx ->
        (- Z.of_nat (Neural.num_items self) <= i < Z.of_nat (Neural.num_items self))%Z) ->
     e = kth_out_of_bounds top_k (Neural.num_items self)).
Proof.
  intros Hres Hctx Hk. unfold NeuralMF.recommend, DeepFM.recommend.
  destruct (Nat.eq_dec (Neural.num_users self) 0) as [Hnou|Husers].
  - (* no user: the first lookup raises, unless there is no item either *)
    destruct Hres as (Hloaded & Hmodel & HNU & HNI).
    rewrite (recommend_fst np self md) by assumption.
    destruct (Nat.eq_dec (Neural.num_items self) 0) as [Hnoi|Hitems].
    + rewrite Hnoi. unfold range. simpl.
      unfold setitem_list. simpl length.
      destruct (norm_indices_empty_axis ctx Hctx) as [msg ->].
      eexists. split; [reflexivity|]. split; [reflexivity|].
      split; [left; eauto|]. intros; lia.
    + rewrite score_loop_fail by lia.
      eexists. split; [reflexivity|]. split; [reflexivity|].
      split; [left; unfold index_out_of_range; eauto|]. intros; lia.
  - rewrite (recommend_restored self md) by (assumption || lia).
    destruct (setitem_list _ ctx NegInf) as [e|masked] eqn:Hmask.
    + eexists. split; [reflexivity|]. split; [reflexivity|].
      split; [left; eapply setitem_list_error, Hmask|].
      intros _ Hvalid. exfalso.
      unfold setitem_list in Hmask. rewrite length_score_row in Hmask.
      destruct (norm_indices_valid _ ctx Hvalid) as [ps Hps].
      rewrite Hps in Hmask. discriminate.
    + pose proof (setitem_list_length _ _ _ _ Hmask) as Hlen.
      rewrite length_score_row in Hlen.
      destruct (Nat.eq_dec (Neural.num_items self) 0) as [Hnoi|Hitems].
      * exfalso. unfold setitem_list in Hmask. rewrite length_score_row, Hnoi in Hmask.
        destruct (norm_indices_empty_axis ctx Hctx) as [msg Hmsg].
        rewrite Hmsg in Hmask. discriminate.
      * rewrite top_k_select_out_of_bounds by lia. rewrite Hlen.
        eexists. split; [reflexivity|]. split; [reflexivity|]. auto.
Qed.

End RecommendClaims.

Lemma recommend_raises_when_top_k_reaches_num_items_witness :
  restored (Demo.demo_model VNeuralMF) (Demo.demo_module VNeuralMF) /\
  [0%Z; 1%Z] <> [] /\
  (Z.of_nat (Neural.num_items (Demo.demo_model VNeuralMF)) <= 5)%Z /\
  exists e,
    fst (NeuralMF.recommend numpy_ref (Demo.demo_model VNeuralMF) [0%Z; 1%Z] 5 Demo.no_files)
      = inl e /\
    e = ValueError "kth(=5) out of bounds (5)".
Proof.
  split; [apply demo_model_restored|]. split; [discriminate|]. split; [simpl; lia|].
  destruct (recommend_raises_when_top_k_reaches_num_items numpy_ref
              (Demo.demo_model VNeuralMF) (Demo.demo_module VNeuralMF) [0%Z; 1%Z] 5
              Demo.no_files (demo_model_restored VNeuralMF))
    as (e & He & _ & _ & Hkth); [discriminate|simpl; lia|].
  exists e. split; [exact He|].
  rewrite Hkth; [reflexivity|simpl; lia|].
  intros i Hi. simpl.
  apply elem_of_cons in Hi as [->|Hi]; [lia|].
  apply elem_of_cons in Hi as [->|Hi]; [lia|]. inversion Hi.
Defined.

(** C3, the code at a failing input. The model has 5 items, the context
    is [0, 1, 2, 3] and [top_k = 3]: only item 4 is left unmasked, and for
    every NumPy that meets the contract [recommend] (the same for both
    classes) returns three item ids, of which at least one is an element of
    the context. *)
Theorem recommend_returns_context_items (np : numpy) :
  numpy_ok np ->
  exists res,
    fst (NeuralMF.recommend np (Demo.demo_model VNeuralMF) [0; 1; 2; 3]%Z 3 Demo.no_files)
      = inr res /\
    fst (DeepFM.recommend np (Demo.demo_model VDeepFM) [0; 1; 2; 3]%Z 3 Demo.no_files)
      = inr res /\
    length res = 3 /\
    exists x, x ∈ res /\ x ∈ [0; 1; 2; 3]%Z.
Proof.
  intros Hnp. unfold NeuralMF.recommend, DeepFM.recommend.
  rewrite (recommend_restored np _ _ _ _ _ (demo_model_restored VNeuralMF))
    by (discriminate || (simpl; lia)).
  rewrite (recommend_restored np _ _ _ _ _ (demo_model_restored VDeepFM))
    by (discriminate || (simpl; lia)).
  change (setitem_list (score_row (Demo.demo_module VNeuralMF) 0
            (Neural.num_items (Demo.demo_model VNeuralMF))) [0; 1; 2; 3]%Z NegInf)
    with (@inr exn _ [NegInf; NegInf; NegInf; NegInf; Fin (5 # 10)]).
  change (setitem_list (score_row (Demo.demo_module VDeepFM) 0
            (Neural.num_items (Demo.demo_model VDeepFM))) [0; 1; 2; 3]%Z NegInf)
    with (@inr exn _ [NegInf; NegInf; NegInf; NegInf; Fin (5 # 10)]).
  cbv iota beta.
  assert (Hk : (0 <= 3 < Z.of_nat (length [NegInf; NegInf; NegInf; NegInf; Fin (5 # 10)]))%Z)
    by (cbv [length]; lia).
  rewrite (top_k_select_eq np Hnp _ 3 Hk).
  pose proof (length_res np Hnp _ 3 Hk) as Hlen.
  pose proof (NoDup_res np Hnp _ 3 Hk) as Hnodup.
  pose proof (res_in_range np Hnp _ 3 Hk) as Hrange.
  eexists. split; [reflexivity|]. split; [reflexivity|].
  rewrite length_fmap. split; [exact Hlen|].
  destruct (gather _ _) as [|a [|b rest]]; try discriminate Hlen.
  assert (Ha : a < 5) by (apply Hrange; left).
  assert (Hb : b < 5) by (apply Hrange; right; left).
  assert (Hab : a <> b).
  { apply NoDup_cons in Hnodup as [Hnotin _]. intros ->. apply Hnotin. left. }
  destruct (decide (a < 4)) as [Ha4|Ha4].
  - exists (Z.of_nat a). split; [left|]. apply list_elem_of_In. simpl. lia.
  - exists (Z.of_nat b). split; [right; left|]. apply list_elem_of_In. simpl. lia.
Qed.

Lemma recommend_returns_context_items_witness :
  numpy_ok numpy_ref /\
  fst (NeuralMF.recommend numpy_ref (Demo.demo_model VNeuralMF) [0; 1; 2; 3]%Z 3 Demo.no_files)
    = inr [4; 0; 1]%Z /\
  exists res,
    fst (NeuralMF.recommend numpy_ref (Demo.demo_model VNeuralMF) [0; 1; 2; 3]%Z 3
           Demo.no_files) = inr res /\
    exists x, x ∈ res /\ x ∈ [0; 1; 2; 3]%Z.
Proof.
  split; [apply numpy_ref_ok|]. split; [vm_compute; reflexivity|].
  destruct (recommend_returns_context_items numpy_ref numpy_ref_ok)
    as (res & Hres & _ & _ & Hx).
  exists res. split; [exact Hres|exact Hx].
Defined.

(** ** [save] and [restore] *)

Section Checkpoint.

Variable v : variant.

Lemma module_init_inr nu ni dim dims p sc md :
  module_init v nu ni dim dims p sc = inr md ->
  md = {| md_dropout := p;
          md_state := {| sd_arch := v; sd_num_users := nu; sd_num_items := ni;
                         sd_embedding_dim := dim; sd_hidden_dims := dims;
                         sd_score := sc |} |} /\
  forall sc', module_init v nu ni dim dims p sc'
              = inr {| md_dropout := p;
                       md_state := {| sd_arch := v; sd_num_users := nu;
                                      sd_num_items := ni; sd_embedding_dim := dim;
                                      sd_hidden_dims := dims; sd_score := sc' |} |}.
Proof.
  unfold module_init. destruct dims, v; try destruct (dropout_ok p);
    intros [= <-] || discriminate; auto.
Qed.

Lemma existsb_path_exists (w : world) (l : list string) :
  Forall (fun p => fs w !! p = None) l -> existsb (path_exists w) l = false.
Proof.
  induction 1 as [|p l Hp _ IH]; [reflexivity|]. cbn. rewrite IH.
  unfold path_exists. rewrite Hp.
  rewrite bool_decide_eq_false_2 by (intros [x Hx]; discriminate). reflexivity.
Qed.

(** [os.makedirs] on a usable directory returns and changes nothing. *)
Lemma makedirs_usable (save_dir : string) (w : world) :
  usable_directory w save_dir -> makedirs save_dir w = (inr tt, w).
Proof.
  intros [Hne Hall]. apply Forall_cons in Hall as [Hself Hanc].
  unfold makedirs. munfold.
  rewrite bool_decide_eq_false_2 by exact Hne.
  rewrite (existsb_path_exists w _ Hanc).
  unfold path_exists. rewrite Hself.
  rewrite bool_decide_eq_false_2 by (intros [x Hx]; discriminate). reflexivity.
Qed.

(** It never changes a file, whatever it returns or raises. *)
Lemma makedirs_world (save_dir : string) (w : world) : snd (makedirs save_dir w) = w.
Proof.
  unfold makedirs. munfold.
  destruct (bool_decide (save_dir = "")); [reflexivity|].
  destruct (existsb (path_exists w) (ancestors (rstrip_slash save_dir))); [reflexivity|].
  destruct (path_exists w (rstrip_slash save_dir)); reflexivity.
Qed.

(** [save] into a usable directory, for an instance that holds a network. *)
Lemma save_in_usable (self : Neural.t) (md : module) (save_dir : string) (w : world) :
  usable_directory w save_dir -> Neural.model self = Some md ->
  Neural.save v self save_dir w
    = (inr tt,
       {| fs := <[path_join save_dir (Neural.save_filename v self)
                  := FCheckpoint (saved_checkpoint v self md)]> (fs w);
          calls := calls w; next_id := next_id w; init_score := init_score w |}).
Proof.
  intros Hdir Hmodel. unfold Neural.save, torch_save. munfold.
  rewrite (makedirs_usable save_dir w Hdir), Hmodel. reflexivity.
Qed.

(** A [save] that returns has written the checkpoint of the instance. *)
Lemma save_returns (self : Neural.t) (save_dir : string) (w w1 : world) :
  Neural.save v self save_dir w = (inr tt, w1) ->
  exists md,
    Neural.model self = Some md /\
    w1 = {| fs := <[path_join save_dir (Neural.save_filename v self)
                    := FCheckpoint (saved_checkpoint v self md)]> (fs w);
            calls := calls w; next_id := next_id w; init_score := init_score w |}.
Proof.
  unfold Neural.save, torch_save. munfold.
  pose proof (makedirs_world save_dir w) as Hw.
  destruct (makedirs save_dir w) as [[e|[]] w0]; cbn in Hw; subst w0; [discriminate|].
  destruct (Neural.model self) as [md|]; [|discriminate].
  intros [= <-]. exists md. split; reflexivity.
Qed.

(** C9. For a trained instance of either class, [save] into a directory
    it can write into returns normally; and whenever [save] has returned,
    [restore] of the file it wrote on any fresh instance succeeds and
    reproduces the recorded numbers of users and items, the embedding
    dimension, the layer sizes, the dropout and the network with all its
    parameters; [predict] on the restored instance is then the same as on
    the original, for every rating matrix. *)
Theorem save_restore_round_trip
    (self : Neural.t) (md : module) (save_dir : string) (fresh : Neural.t) (w : world) :
  trained v self md ->
  (usable_directory w save_dir ->
   exists w1, Neural.save v self save_dir w = (inr tt, w1)) /\
  (forall w1, Neural.save v self save_dir w = (inr tt, w1) ->
   exists w2 self',
    Neural.restore v (path_join save_dir (Neural.save_filename v self)) (fresh, w1)
      = (inr tt, (self', w2)) /\
    Neural.num_users self' = Neural.num_users self /\
    Neural.num_items self' = Neural.num_items self /\
    Neural.embedding_dim self' = Neural.embedding_dim self /\
    Neural.hidden_dims self' = Neural.hidden_dims self /\
    Neural.dropout self' = Neural.dropout self /\
    Neural.model self' = Neural.model self /\
    Neural.model_loaded self' = true /\
    forall rm w3, Neural.predict self' rm w3 = Neural.predict self rm w3).
Proof.
  intros (Hloaded & Hmodel & Hinit).
  split; [intros Hdir; eexists; apply save_in_usable; eassumption|].
  intros w1 Hsave.
  apply save_returns in Hsave as (md' & Hmd' & ->).
  assert (md' = md) by congruence. subst md'. clear Hmd'.
  apply module_init_inr in Hinit as [Hmd Hinit'].
  destruct md as [p sd]. cbn [md_state md_dropout] in *.
  injection Hmd as Hp Hsd. subst p.
  assert (Harch : sd_arch sd = v) by (rewrite Hsd; reflexivity).
  assert (Hnu : sd_num_users sd = Neural.num_users self) by (rewrite Hsd; reflexivity).
  assert (Hni : sd_num_items sd = Neural.num_items self) by (rewrite Hsd; reflexivity).
  assert (Hdim : sd_embedding_dim sd = Neural.embedding_dim self)
    by (rewrite Hsd; reflexivity).
  assert (Hdims : sd_hidden_dims sd = Neural.hidden_dims self)
    by (rewrite Hsd; reflexivity).
  clear Hsd.
  eexists. eexists.
  unfold Neural.restore, torch_load, path_exists, Neural.getitem_dims, saved_checkpoint.
  munfold.
  cbn [fs]. rewrite lookup_insert_eq.
  rewrite bool_decide_eq_true_2 by eauto. cbn.
  rewrite lookup_insert_eq. cbn.
  rewrite bool_decide_eq_true_2 by reflexivity. cbn.
  rewrite Hinit'. cbn.
  unfold load_state_dict, same_shape. cbn.
  rewrite Harch, Hnu, Hni, Hdim, Hdims.
  rewrite !bool_decide_eq_true_2, !Nat.eqb_refl by reflexivity. cbn.
  split; [reflexivity|]. cbn. rewrite Hmodel.
  repeat (split; [reflexivity|]).
  intros rm w3. unfold Neural.predict, Neural.eval_mode.
  rewrite Hloaded, Hmodel. reflexivity.
Qed.

Lemma same_shape_eq (a b : state_dict) :
  same_shape a b = true ->
  sd_arch b = sd_arch a /\ sd_num_users b = sd_num_users a /\
  sd_num_items b = sd_num_items a /\ sd_embedding_dim b = sd_embedding_dim a /\
  sd_hidden_dims b = sd_hidden_dims a.
Proof.
  unfold same_shape. rewrite !andb_true_iff, !Nat.eqb_eq, !bool_decide_eq_true.
  intuition congruence.
Qed.

(** A successful [restore] leaves a trained, restored instance. *)
Lemma restore_establishes (ckpt : string) (self self' : Neural.t) (w w' : world) :
  Neural.restore v ckpt (self, w) = (inr tt, (self', w')) ->
  exists md, trained v self' md /\ restored self' md.
Proof.
  unfold Neural.restore, torch_load, Neural.getitem_dims. munfold.
  destruct (path_exists w ckpt); cbn; [|discriminate].
  destruct (fs w !! ckpt) as [[ck|other]|]; cbn; try discriminate.
  destruct (bool_decide (ck_dims_key ck = dims_key v)); cbn; [|discriminate].
  destruct (module_init v (ck_num_users ck) (ck_num_items ck) (ck_embedding_dim ck)
              (ck_dims ck) (ck_dropout ck) (init_score w)) as [e|md0] eqn:Hinit;
    cbn; [discriminate|].
  apply module_init_inr in Hinit as [-> Hinit'].
  unfold load_state_dict. cbn [md_state md_dropout].
  destruct (same_shape _ (ck_model_state_dict ck)) eqn:Hshape; cbn; [|discriminate].
  apply same_shape_eq in Hshape as (Harch & Hnu & Hni & Hdim & Hdims).
  cbn in Harch, Hnu, Hni, Hdim, Hdims.
  intros [= <- <-].
  exists {| md_dropout := ck_dropout ck; md_state := ck_model_state_dict ck |}.
  split; [|repeat split; cbn; assumption].
  split; [reflexivity|]. split; [reflexivity|]. cbn.
  rewrite Hinit'. do 2 f_equal.
  destruct (ck_model_state_dict ck); cbn in *. congruence.
Qed.

End Checkpoint.

Lemma demo_model_trained (v : variant) : trained v (Demo.demo_model v) (Demo.demo_module v).
Proof. destruct v; repeat split. Qed.

Lemma usable_directory_no_files (save_dir : string) :
  save_dir <> "" -> usable_directory Demo.no_files save_dir.
Proof.
  intros Hne. split; [exact Hne|]. apply Forall_forall. intros p _. apply lookup_empty.
Qed.

Lemma save_restore_round_trip_witness :
  trained VDeepFM (Demo.demo_model VDeepFM) (Demo.demo_module VDeepFM) /\
  usable_directory Demo.no_files "recommend/ckpt" /\
  exists w1 w2 self',
    DeepFM.save (Demo.demo_model VDeepFM) "recommend/ckpt" Demo.no_files = (inr tt, w1) /\
    DeepFM.restore "recommend/ckpt/DeepFM_emb64.pth" (Neural.new, w1)
      = (inr tt, (self', w2)) /\
    Neural.model self' = Neural.model (Demo.demo_model VDeepFM) /\
    forall rm w3,
      DeepFM.predict self' rm w3 = DeepFM.predict (Demo.demo_model VDeepFM) rm w3.
Proof.
  assert (Hdir : usable_directory Demo.no_files "recommend/ckpt")
    by (apply usable_directory_no_files; discriminate).
  split; [apply demo_model_trained|]. split; [exact Hdir|].
  destruct (save_restore_round_trip VDeepFM (Demo.demo_model VDeepFM)
              (Demo.demo_module VDeepFM) "recommend/ckpt" Neural.new Demo.no_files
              (demo_model_trained VDeepFM)) as [Hsaves Hround].
  destruct (Hsaves Hdir) as [w1 Hsave].
  destruct (Hround w1 Hsave)
    as (w2 & self' & Hrestore & _ & _ & _ & _ & _ & Hmodel & _ & Hpredict).
  exists w1, w2, self'. auto.
Defined.

(** * Further properties of the code *)

(** ** Masking a context *)

Section MaskContext.

Lemma norm_index_inr (n : nat) (i : Z) (p : nat) :
  norm_index n i = inr p ->
  p < n /\ (- Z.of_nat n <= i < Z.of_nat n)%Z /\
  (Z.of_nat p = i \/ Z.of_nat p = (i + Z.of_nat n)%Z).
Proof.
  unfold norm_index.
  destruct (Z.ltb_spec i (- Z.of_nat n)); simpl; [discriminate|].
  destruct (Z.leb_spec (Z.of_nat n) i); simpl; [discriminate|].
  intros [= <-]. destruct (Z.ltb_spec i 0) as [Hneg|Hpos].
  - rewrite Z2Nat.id by lia. split; [|split]; lia.
  - rewrite Z2Nat.id by lia. split; [|split]; lia.
Qed.

Lemma norm_indices_positions (n : nat) (ctx : list Z) (ps : list nat) :
  norm_indices n ctx = inr ps -> ps = context_positions n ctx /\ valid_context n ctx.
Proof.
  revert ps. induction ctx as [|i ctx IH]; intros ps; simpl.
  - intros [= <-]. split; [reflexivity|]. intros i Hi. inversion Hi.
  - unfold context_positions. simpl.
    destruct (norm_index n i) as [e|p] eqn:Hi; [discriminate|].
    destruct (norm_indices n ctx) as [e|ps'] eqn:Hrest; [discriminate|].
    intros [= <-]. destruct (IH ps' eq_refl) as [-> Hvalid]. split; [reflexivity|].
    intros j Hj. apply elem_of_cons in Hj as [->|Hj]; [|apply Hvalid, Hj].
    apply norm_index_inr in Hi. tauto.
Qed.

Lemma length_context_positions (n : nat) (ctx : list Z) :
  length (context_positions n ctx) <= length ctx.
Proof.
  unfold context_positions. generalize (fun i : Z =>
    match norm_index n i with inr p => Some p | inl _ => None end). intros f.
  induction ctx as [|i ctx IH]; [simpl; lia|].
  change (omap f (i :: ctx))
    with (match f i with Some y => y :: omap f ctx | None => omap f ctx end).
  destruct (f i); simpl length; lia.
Qed.

Lemma elem_of_context_positions (n : nat) (ctx : list Z) (p : nat) :
  p ∈ context_positions n ctx <-> exists i, i ∈ ctx /\ norm_index n i = inr p.
Proof.
  unfold context_positions. rewrite list_elem_of_omap. split.
  - intros (i & Hi & Hp). exists i. split; [exact Hi|].
    destruct (norm_index n i); congruence.
  - intros (i & Hi & Hp). exists i. split; [exact Hi|]. rewrite Hp. reflexivity.
Qed.

Lemma length_foldl_insert (v : score) (ps : list nat) (a : list score) :
  length (foldl (fun acc p => <[p := v]> acc) a ps) = length a.
Proof.
  revert a. induction ps as [|p ps IH]; intros a; simpl; [reflexivity|].
  rewrite IH, length_insert. reflexivity.
Qed.

Lemma lookup_total_foldl_insert (v : score) (ps : list nat) (a : list score) (x : nat) :
  x < length a ->
  foldl (fun acc p => <[p := v]> acc) a ps !!! x
  = if decide (x ∈ ps) then v else a !!! x.
Proof.
  revert a. induction ps as [|p ps IH]; intros a Hx; simpl.
  - destruct (decide (x ∈ [])) as [Hin|_]; [inversion Hin|reflexivity].
  - rewrite IH by (rewrite length_insert; exact Hx).
    destruct (decide (x ∈ ps)) as [Hin|Hnotin].
    + rewrite (decide_True (P := x ∈ p :: ps)) by (apply elem_of_cons; auto).
      reflexivity.
    + destruct (decide (p = x)) as [->|Hne].
      * rewrite (decide_True (P := x ∈ x :: ps)) by (apply elem_of_cons; auto).
        apply list_lookup_total_insert_eq, Hx.
      * rewrite (decide_False (P := x ∈ p :: ps)).
        -- apply list_lookup_total_insert_ne, Hne.
        -- intros Hin. apply elem_of_cons in Hin as [->|Hin]; congruence.
Qed.

Lemma available_insert (a : list score) (p : nat) :
  available a <= S (available (<[p := NegInf]> a)).
Proof.
  unfold available. revert p. induction a as [|s a IH]; intros [|p]; simpl; try lia.
  - destruct (is_masked s); simpl; lia.
  - specialize (IH p). destruct (is_masked s); simpl; lia.
Qed.

Lemma available_foldl_insert (ps : list nat) (a : list score) :
  available a <= length ps + available (foldl (fun acc p => <[p := NegInf]> acc) a ps).
Proof.
  revert a. induction ps as [|p ps IH]; intros a; simpl; [lia|].
  pose proof (available_insert a p). specialize (IH (<[p := NegInf]> a)). lia.
Qed.

Lemma available_score_row (md : module) (u n : nat) : available (score_row md u n) = n.
Proof.
  unfold available, score_row. rewrite <- (length_seq n 0) at 2.
  generalize (seq 0 n). intros l. induction l as [|i l IH]; simpl; [reflexivity|].
  f_equal. exact IH.
Qed.

End MaskContext.

(** ** [recommend] when enough items lie outside the context *)

Section RecommendOutsideContext.

Variable np : numpy.
Hypothesis np_ok : numpy_ok np.

Lemma setitem_list_valid (a : list score) (ctx : list Z) :
  valid_context (length a) ctx ->
  setitem_list a ctx NegInf
  = inr (foldl (fun acc p => <[p := NegInf]> acc) a (context_positions (length a) ctx)).
Proof.
  intros Hvalid. unfold setitem_list.
  destruct (norm_indices_valid (length a) ctx Hvalid) as [ps Hps]. rewrite Hps.
  apply norm_indices_positions in Hps as [-> _]. reflexivity.
Qed.

(** The selection of [recommend] when the context leaves room for
    [top_k] items. *)
Lemma recommend_selects_outside_context
    (self : Neural.t) (md : module) (ctx : list Z) (top_k : Z) (w : world) :
  restored self md -> 0 < Neural.num_users self -> ctx <> [] ->
  valid_context (Neural.num_items self) ctx ->
  (0 <= top_k)%Z ->
  Z.to_nat top_k + length ctx <= Neural.num_items self ->
  exists res,
    fst (Neural.recommend np self ctx top_k w) = inr (Z.of_nat <$> res) /\
    length res = Z.to_nat top_k /\
    NoDup res /\
    (forall r, r ∈ res ->
       r < Neural.num_items self /\
       (r ∉ context_positions (Neural.num_items self) ctx) /\
       (Z.of_nat r ∉ ctx)) /\
    non_increasing (score_row md 0 (Neural.num_items self)) res /\
    (forall x y, x ∈ res -> y < Neural.num_items self -> y ∉ res ->
       y ∉ context_positions (Neural.num_items self) ctx ->
       sle (score_row md 0 (Neural.num_items self) !!! y)
           (score_row md 0 (Neural.num_items self) !!! x) = true).
Proof.
  intros Hres Husers Hctx Hvalid Hk0 Hroom.
  rewrite (recommend_restored np self md ctx top_k w Hres Hctx Husers).
  set (n := Neural.num_items self) in *.
  set (row := score_row md 0 n).
  assert (Hrow : length row = n) by apply length_score_row.
  rewrite setitem_list_valid by (rewrite Hrow; exact Hvalid).
  rewrite Hrow.
  set (ps := context_positions n ctx).
  set (masked := foldl (fun acc p => <[p := NegInf]> acc) row ps).
  assert (Hlen : length masked = n)
    by (unfold masked; rewrite length_foldl_insert; exact Hrow).
  assert (Hctx_len : 0 < length ctx) by (destruct ctx; [contradiction|simpl; lia]).
  assert (Hk : (0 <= top_k < Z.of_nat (length masked))%Z) by lia.
  assert (Havail : Z.to_nat top_k <= available masked).
  { pose proof (available_foldl_insert ps row) as Ha.
    change (available row <= length ps + available masked) in Ha.
    pose proof (available_score_row md 0 n : available row = n) as Harow.
    pose proof (length_context_positions n ctx : length ps <= length ctx). lia. }
  rewrite (top_k_select_eq np np_ok masked top_k Hk).
  pose proof (length_res np np_ok masked top_k Hk) as Hlength.
  pose proof (NoDup_res np np_ok masked top_k Hk) as Hnodup.
  pose proof (res_in_range np np_ok masked top_k Hk) as Hrange.
  pose proof (res_unmasked np np_ok masked top_k Hk) as Hunmasked.
  pose proof (res_non_increasing np np_ok masked top_k) as Hsorted.
  pose proof (res_dominates np np_ok masked top_k Hk) as Hdom.
  match goal with |- context [inr (Z.of_nat <$> ?r)] => set (res := r) in * end.
  assert (Hmask : forall x, x < n ->
            masked !!! x = if decide (x ∈ ps) then NegInf else row !!! x).
  { intros x Hx. unfold masked. apply lookup_total_foldl_insert. lia. }
  assert (Hout : forall r, r ∈ res -> r < n /\ r ∉ ps).
  { intros r Hr. assert (Hrn : r < n) by (rewrite <- Hlen; apply Hrange, Hr).
    split; [exact Hrn|]. intros Hin.
    specialize (Hunmasked r Havail Hr). rewrite (Hmask r Hrn) in Hunmasked.
    rewrite decide_True in Hunmasked by exact Hin. discriminate. }
  assert (Hsame : forall r, r ∈ res -> masked !!! r = row !!! r).
  { intros r Hr. destruct (Hout r Hr) as [Hrn Hnot].
    rewrite (Hmask r Hrn), decide_False by exact Hnot. reflexivity. }
  exists res. split; [reflexivity|].
  split; [exact Hlength|]. split; [exact Hnodup|]. split; [|split].
  - intros r Hr. destruct (Hout r Hr) as [Hrn Hnot]. split; [exact Hrn|].
    split; [exact Hnot|]. intros Hin. apply Hnot.
    apply elem_of_context_positions. exists (Z.of_nat r). split; [exact Hin|].
    unfold norm_index.
    destruct (Z.ltb_spec (Z.of_nat r) (- Z.of_nat n)); [lia|].
    destruct (Z.leb_spec (Z.of_nat n) (Z.of_nat r)); [lia|]. simpl.
    destruct (Z.ltb_spec (Z.of_nat r) 0); [lia|]. rewrite Nat2Z.id. reflexivity.
  - intros i j x y Hij Hx Hy.
    rewrite <- (Hsame x), <- (Hsame y)
      by (eapply list_elem_of_lookup_2; eassumption).
    eapply Hsorted; eassumption.
  - intros x y Hx Hy Hny Hnot.
    rewrite <- (Hsame x Hx).
    replace (row !!! y) with (masked !!! y)
      by (rewrite (Hmask y Hy), decide_False by exact Hnot; reflexivity).
    apply Hdom; [exact Hx|lia|exact Hny].
Qed.

(** X1. On a restored instance with at least one user, a non-empty context
    of valid indices and [top_k >= 0] with [top_k + len(context) <=
    numItems], [recommend] returns exactly [top_k] item ids; they are
    pairwise distinct, each is an item of the model that no index of the
    context denotes, their scores under the network never go up along the
    list, and no item outside the context that is left out scores more
    than a returned one. *)
Theorem recommend_top_k_outside_context
    (self : Neural.t) (md : module) (ctx : list Z) (top_k : Z) (w : world) :
  restored self md -> 0 < Neural.num_users self -> ctx <> [] ->
  valid_context (Neural.num_items self) ctx ->
  (0 <= top_k)%Z ->
  Z.to_nat top_k + length ctx <= Neural.num_items self ->
  exists res,
    fst (NeuralMF.recommend np self ctx top_k w) = inr (Z.of_nat <$> res) /\
    fst (DeepFM.recommend np self ctx top_k w) = inr (Z.of_nat <$> res) /\
    length res = Z.to_nat top_k /\
    NoDup res /\
    (forall r, r ∈ res ->
       r < Neural.num_items self /\
       (r ∉ context_positions (Neural.num_items self) ctx) /\
       (Z.of_nat r ∉ ctx)) /\
    non_increasing (score_row md 0 (Neural.num_items self)) res /\
    (forall x y, x ∈ res -> y < Neural.num_items self -> y ∉ res ->
       y ∉ context_positions (Neural.num_items self) ctx ->
       sle (score_row md 0 (Neural.num_items self) !!! y)
           (score_row md 0 (Neural.num_items self) !!! x) = true).
Proof.
  intros Hres Husers Hctx Hvalid Hk0 Hroom.
  destruct (recommend_selects_outside_context self md ctx top_k w
              Hres Husers Hctx Hvalid Hk0 Hroom) as (res & Hrun & Hrest).
  exists res. unfold NeuralMF.recommend, DeepFM.recommend.
  split; [exact Hrun|]. split; [exact Hrun|]. exact Hrest.
Qed.

End RecommendOutsideContext.

Lemma valid_context_demo : valid_context 5 [0; 1]%Z.
Proof.
  intros i Hi. apply elem_of_cons in Hi as [->|Hi]; [lia|].
  apply elem_of_cons in Hi as [->|Hi]; [lia|]. inversion Hi.
Qed.

Lemma recommend_top_k_outside_context_witness :
  restored (Demo.demo_model VNeuralMF) (Demo.demo_module VNeuralMF) /\
  valid_context (Neural.num_items (Demo.demo_model VNeuralMF)) [0; 1]%Z /\
  Z.to_nat 3 + length [0; 1]%Z <= Neural.num_items (Demo.demo_model VNeuralMF) /\
  fst (NeuralMF.recommend numpy_ref (Demo.demo_model VNeuralMF) [0; 1]%Z 3 Demo.no_files)
    = inr [4; 3; 2]%Z /\
  exists res,
    fst (NeuralMF.recommend numpy_ref (Demo.demo_model VNeuralMF) [0; 1]%Z 3 Demo.no_files)
      = inr (Z.of_nat <$> res) /\
    length res = 3 /\ forall r, r ∈ res -> Z.of_nat r ∉ [0; 1]%Z.
Proof.
  split; [apply demo_model_restored|]. split; [apply valid_context_demo|].
  split; [simpl; lia|]. split; [vm_compute; reflexivity|].
  destruct (recommend_top_k_outside_context numpy_ref numpy_ref_ok
              (Demo.demo_model VNeuralMF) (Demo.demo_module VNeuralMF) [0; 1]%Z 3
              Demo.no_files (demo_model_restored VNeuralMF))
    as (res & Hres & _ & Hlen & _ & Hout & _);
    [simpl; lia|discriminate|apply valid_context_demo|lia|simpl; lia|].
  exists res. split; [exact Hres|]. split; [exact Hlen|].
  intros r Hr. apply (Hout r Hr).
Defined.

(** ** The forward passes of a scoring run *)

Section ForwardCalls.

Lemma for_each_calls {A B} (l : list A) (body : A -> B -> M world B) (ev : A -> event) :
  (forall x acc w, snd (body x acc w) = snd (log_w (ev x) w)) ->
  forall acc w acc' w',
    Neural.for_each l acc body w = (inr acc', w') ->
    fs w' = fs w /\ next_id w' = next_id w /\ init_score w' = init_score w /\
    calls w' = calls w ++ (ev <$> l).
Proof.
  intros Hbody. induction l as [|x l IH]; intros acc w acc' w'; simpl.
  - munfold. intros [= _ <-]. rewrite app_nil_r. auto.
  - munfold. specialize (Hbody x acc w).
    destruct (body x acc w) as [[e|acc1] w1]; [discriminate|].
    simpl in Hbody. subst w1. intros Hrest. apply IH in Hrest.
    simpl in Hrest. destruct Hrest as (Hfs & Hid & Hinit & Hcalls).
    rewrite Hcalls, <- app_assoc. auto.
Qed.

Lemma range_fuel_lt (fuel i n step x : nat) :
  x ∈ range_fuel fuel i n step -> i <= x < n.
Proof.
  revert i. induction fuel as [|fuel IH]; intros i; simpl; [intros Hx; inversion Hx|].
  destruct (Nat.ltb_spec i n); [|intros Hx; inversion Hx].
  intros Hx. apply elem_of_cons in Hx as [->|Hx]; [lia|].
  apply IH in Hx. lia.
Qed.

Lemma concat_chunks (n fuel i : nat) :
  n - i <= fuel -> i <= n ->
  concat ((fun j => seq j (Nat.min (j + 1000) n - j)) <$> range_fuel fuel i n 1000)
  = seq i (n - i).
Proof.
  revert i. induction fuel as [|fuel IH]; intros i Hfuel Hi; simpl.
  - replace (n - i) with 0 by lia. reflexivity.
  - destruct (Nat.ltb_spec i n) as [Hlt|Hge].
    + rewrite fmap_cons. simpl concat.
      destruct (Nat.lt_ge_cases (i + 1000) n) as [Hmore|Hlast].
      * rewrite IH by lia. rewrite Nat.min_l by lia.
        replace (i + 1000 - i) with 1000 by lia.
        replace (n - i) with (1000 + (n - (i + 1000))) by lia.
        rewrite seq_app. reflexivity.
      * rewrite Nat.min_r by lia.
        replace (range_fuel fuel (i + 1000) n 1000) with (@nil nat).
        -- simpl. rewrite app_nil_r. reflexivity.
        -- destruct fuel; simpl; [reflexivity|].
           destruct (Nat.ltb_spec (i + 1000) n); [lia|reflexivity].
    + replace (n - i) with 0 by lia. reflexivity.
Qed.

(** The loop that scores [n] items for user [u], when it comes to its
    end: the files are untouched and the observed calls are one forward
    pass per batch, the batches being the consecutive slices of at most
    1000 items. *)
Lemma batch_loop_calls {T} (md : module) (u n : nat)
    (write : T -> nat -> nat -> list score -> exn + T) (target target' : T)
    (w w' : world) :
  Neural.batch_loop md u n write target w = (inr target', w') ->
  fs w' = fs w /\ next_id w' = next_id w /\ init_score w' = init_score w /\
  calls w' = calls w ++
    ((fun j => CallForward (replicate (Nat.min (j + 1000) n - j) u)
                           (seq j (Nat.min (j + 1000) n - j)))
       <$> range 0 n 1000).
Proof.
  unfold Neural.batch_loop. intros Hloop.
  apply (for_each_calls _ _
           (fun j => CallForward (take (Nat.min (j + 1000) n - j) (drop j (replicate n u)))
                                 (take (Nat.min (j + 1000) n - j) (drop j (seq 0 n)))))
    in Hloop.
  - destruct Hloop as (Hfs & Hid & Hinit & Hcalls).
    split; [exact Hfs|]. split; [exact Hid|]. split; [exact Hinit|].
    rewrite Hcalls. f_equal. apply list_fmap_ext. intros k j Hj.
    apply list_elem_of_lookup_2, range_fuel_lt in Hj.
    destruct (chunk_tensors md u n j (Nat.min (j + 1000) n)) as [-> ->]; [lia..|].
    reflexivity.
  - intros j acc w0. unfold forward. munfold. simpl.
    destruct (forward_pairs md _ _); reflexivity.
Qed.

Lemma batch_loop_forward_calls {T} (md : module) (u n : nat)
    (write : T -> nat -> nat -> list score -> exn + T) (target target' : T)
    (w w' : world) :
  Neural.batch_loop md u n write target w = (inr target', w') ->
  fs w' = fs w /\ next_id w' = next_id w /\ init_score w' = init_score w /\
  calls w' = calls w ++ forward_calls u n.
Proof.
  intros Hloop. apply batch_loop_calls in Hloop as (Hfs & Hid & Hinit & Hcalls).
  split; [exact Hfs|]. split; [exact Hid|]. split; [exact Hinit|].
  rewrite Hcalls. f_equal. unfold forward_calls, batches.
  rewrite <- list_fmap_compose. apply list_fmap_ext. intros k j Hj. simpl.
  rewrite length_seq. reflexivity.
Qed.

Lemma batches_cover (n : nat) : concat (batches n) = seq 0 n.
Proof.
  unfold batches, range. rewrite concat_chunks by lia. f_equal. lia.
Qed.

Lemma batches_bounded (n : nat) : Forall (fun b => 0 < length b <= 1000) (batches n).
Proof.
  unfold batches, range. apply Forall_fmap, Forall_forall. intros j Hj. simpl.
  apply range_fuel_lt in Hj. rewrite length_seq. lia.
Qed.

(** A loop whose every iteration appends its own calls to the log. *)
Lemma for_each_appends {A B} (l : list A) (body : A -> B -> M world B)
    (ev : A -> list event) :
  (forall x acc w acc' w', body x acc w = (inr acc', w') ->
     fs w' = fs w /\ next_id w' = next_id w /\ init_score w' = init_score w /\
     calls w' = calls w ++ ev x) ->
  forall acc w acc' w',
    Neural.for_each l acc body w = (inr acc', w') ->
    fs w' = fs w /\ next_id w' = next_id w /\ init_score w' = init_score w /\
    calls w' = calls w ++ concat (ev <$> l).
Proof.
  intros Hbody. induction l as [|x l IH]; intros acc w acc' w'; simpl.
  - munfold. intros [= _ <-]. rewrite app_nil_r. auto.
  - munfold. destruct (body x acc w) as [[e|acc1] w1] eqn:Hx; [discriminate|].
    apply Hbody in Hx as (Hfs1 & Hid1 & Hinit1 & Hcalls1).
    intros Hrest. apply IH in Hrest as (Hfs & Hid & Hinit & Hcalls).
    rewrite Hfs, Hid, Hinit, Hcalls, Hcalls1, <- app_assoc. auto.
Qed.

End ForwardCalls.

(** X3. A call of [recommend] on a non-empty context that returns a list
    leaves the files untouched and is observed as: one forward pass per
    batch of items, all for user 0, then one selection. The batches are
    consecutive, none is empty or holds more than 1000 items, and together
    they are the items [0 .. numItems-1] in order. *)
Theorem recommend_scores_in_batches
    (np : numpy) (self : Neural.t) (ctx res : list Z) (top_k : Z) (w w' : world) :
  ctx <> [] ->
  Neural.recommend np self ctx top_k w = (inr res, w') ->
  calls w' = calls w ++ forward_calls 0 (Neural.num_items self) ++ [CallTopK top_k] /\
  fs w' = fs w /\
  concat (batches (Neural.num_items self)) = seq 0 (Neural.num_items self) /\
  Forall (fun b => 0 < length b <= 1000) (batches (Neural.num_items self)).
Proof.
  intros Hctx. unfold Neural.recommend, Neural.eval_mode.
  destruct (Neural.model_loaded self); simpl; [|discriminate].
  destruct ctx as [|i ctx]; [contradiction|].
  munfold. cbn [length Nat.eqb]. cbv beta.
  destruct (Neural.model self) as [md|]; [|discriminate].
  destruct (Neural.batch_loop md 0 _ setitem_slice _ w) as [[e|scores] w1] eqn:Hloop;
    [discriminate|].
  apply batch_loop_forward_calls in Hloop as (Hfs & _ & _ & Hcalls).
  destruct (setitem_list scores (i :: ctx) NegInf) as [e|masked]; [discriminate|].
  simpl. destruct (Neural.top_k_select np masked top_k); [discriminate|].
  intros [= _ <-]. simpl. rewrite Hcalls, Hfs, <- app_assoc.
  split; [reflexivity|]. split; [reflexivity|].
  split; [apply batches_cover|apply batches_bounded].
Qed.

Lemma recommend_scores_in_batches_witness :
  [0%Z; 1%Z] <> [] /\
  exists w',
    Neural.recommend numpy_ref (Demo.demo_model VNeuralMF) [0; 1]%Z 3 Demo.no_files
      = (inr [4; 3; 2]%Z, w') /\
    calls w' = [CallForward [0; 0; 0; 0; 0] [0; 1; 2; 3; 4]; CallTopK 3].
Proof.
  split; [discriminate|].
  destruct (Neural.recommend numpy_ref (Demo.demo_model VNeuralMF) [0; 1]%Z 3 Demo.no_files)
    as [r w'] eqn:Hrun.
  assert (Hr : r = inr [4; 3; 2]%Z)
    by (apply (f_equal fst) in Hrun; vm_compute in Hrun; congruence).
  subst r. exists w'. split; [reflexivity|].
  destruct (recommend_scores_in_batches numpy_ref (Demo.demo_model VNeuralMF) [0; 1]%Z
              [4; 3; 2]%Z 3 Demo.no_files w' ltac:(discriminate) Hrun) as (Hcalls & _).
  rewrite Hcalls. reflexivity.
Defined.

(** X4. A call of [predict] that returns a matrix leaves the files
    untouched and is observed as the forward passes of row 0, then those of
    row 1, and so on: for each row of the rating matrix one pass per batch
    of at most 1000 columns. *)
Theorem predict_scores_rows_in_batches
    (self : Neural.t) (rm : Neural.rating_matrix) (p : list (list score)) (w w' : world) :
  Neural.predict self rm w = (inr p, w') ->
  calls w' = calls w ++
    concat ((fun u => forward_calls u (snd (Neural.rm_shape rm)))
              <$> seq 0 (fst (Neural.rm_shape rm))) /\
  fs w' = fs w.
Proof.
  unfold Neural.predict, Neural.eval_mode.
  destruct (Neural.model_loaded self); simpl; [|discriminate].
  destruct (Neural.model self) as [md|]; [|discriminate].
  munfold. destruct (Neural.rm_shape rm) as [nu ni]. simpl.
  destruct (Neural.for_each (seq 0 nu) _ _ w) as [[e|preds] w1] eqn:Hloop;
    [discriminate|].
  intros [= _ <-].
  apply (for_each_appends _ _ (fun u => forward_calls u ni)) in Hloop.
  - destruct Hloop as (Hfs & _ & _ & Hcalls). auto.
  - intros u acc w0 acc' w0' Hrow. apply batch_loop_forward_calls in Hrow. exact Hrow.
Qed.

Lemma predict_scores_rows_in_batches_witness :
  exists p w',
    Neural.predict (Demo.demo_model VNeuralMF) Demo.smaller_matrix Demo.no_files
      = (inr p, w') /\
    calls w' = [CallForward [0; 0; 0] [0; 1; 2]; CallForward [1; 1; 1] [0; 1; 2]].
Proof.
  destruct (Neural.predict (Demo.demo_model VNeuralMF) Demo.smaller_matrix Demo.no_files)
    as [[e|p] w'] eqn:Hrun.
  - apply (f_equal fst) in Hrun. vm_compute in Hrun. discriminate.
  - exists p, w'. split; [reflexivity|].
    destruct (predict_scores_rows_in_batches (Demo.demo_model VNeuralMF)
                Demo.smaller_matrix p Demo.no_files w' Hrun) as (Hcalls & _).
    rewrite Hcalls. reflexivity.
Defined.


(** ** [recommend] on a context with an unknown item *)

Section RecommendUnknownItem.

Variable np : numpy.

Lemma norm_indices_first_invalid (n : nat) (pre post : list Z) (i : Z) :
  valid_context n pre -> (i < - Z.of_nat n \/ Z.of_nat n <= i)%Z ->
  norm_indices n (pre ++ i :: post)
  = inl (IndexError ("index " +:+ str_Z i +:+ " is out of bounds for axis 0 with size "
                       +:+ str_nat n)).
Proof.
  intros Hpre Hi. induction pre as [|j pre IH]; simpl.
  - unfold norm_index.
    destruct (Z.ltb_spec i (- Z.of_nat n)); simpl; [reflexivity|].
    destruct (Z.leb_spec (Z.of_nat n) i); simpl; [reflexivity|lia].
  - destruct (norm_indices_valid n [j]) as [ps Hps].
    { intros k Hk. apply Hpre. apply elem_of_cons in Hk as [->|Hk]; [left|inversion Hk]. }
    simpl in Hps. destruct (norm_index n j) as [e|p]; [discriminate|].
    rewrite IH; [reflexivity|].
    intros k Hk. apply Hpre. right. exact Hk.
Qed.

(** The scoring loop of [recommend] on a restored instance with a user. *)
Lemma recommend_loop_restored (self : Neural.t) (md : module) (w : world) :
  restored self md -> 0 < Neural.num_users self ->
  exists w1,
    Neural.batch_loop md 0 (Neural.num_items self) setitem_slice
      (zeros (Neural.num_items self)) w
    = (inr (score_row md 0 (Neural.num_items self)), w1) /\
    fs w1 = fs w /\ next_id w1 = next_id w /\ init_score w1 = init_score w /\
    calls w1 = calls w ++ forward_calls 0 (Neural.num_items self).
Proof.
  intros (Hloaded & Hmodel & HNU & HNI) Husers.
  destruct (Neural.batch_loop md 0 (Neural.num_items self) setitem_slice
              (zeros (Neural.num_items self)) w) as [r w1] eqn:Hloop.
  pose proof (batch_loop_fst md 0 (Neural.num_items self) setitem_slice
                (zeros (Neural.num_items self)) w) as Hfst.
  rewrite Hloop, score_loop_ok in Hfst by lia. simpl in Hfst. subst r.
  exists w1. split; [reflexivity|].
  apply batch_loop_forward_calls in Hloop. exact Hloop.
Qed.

(** [recommend] on a context whose first invalid index is [i]. *)
Lemma recommend_first_invalid_index
    (self : Neural.t) (md : module) (pre post : list Z) (i : Z) (top_k : Z) (w : world) :
  restored self md -> 0 < Neural.num_users self ->
  valid_context (Neural.num_items self) pre ->
  (i < - Z.of_nat (Neural.num_items self) \/ Z.of_nat (Neural.num_items self) <= i)%Z ->
  exists w',
    Neural.recommend np self (pre ++ i :: post) top_k w
      = (inl (IndexError ("index " +:+ str_Z i +:+
                            " is out of bounds for axis 0 with size "
                            +:+ str_nat (Neural.num_items self))), w') /\
    calls w' = calls w ++ forward_calls 0 (Neural.num_items self) /\
    fs w' = fs w.
Proof.
  intros Hres Husers Hpre Hi.
  destruct (recommend_loop_restored self md w Hres Husers)
    as (w1 & Hloop & Hfs & _ & _ & Hcalls).
  destruct Hres as (Hloaded & Hmodel & _).
  exists w1. split; [|split; assumption].
  unfold Neural.recommend, Neural.eval_mode. rewrite Hloaded, Hmodel. simpl.
  destruct (pre ++ i :: post) as [|j ctx] eqn:Hctx; [destruct pre; discriminate|].
  munfold. cbn [length Nat.eqb]. cbv beta. rewrite Hloop.
  unfold setitem_list. rewrite length_score_row, <- Hctx.
  rewrite norm_indices_first_invalid by assumption. reflexivity.
Qed.

(** X2. On a restored instance with at least one user, a context of
    64-bit integers that holds one outside [-numItems, numItems) makes
    [recommend] raise [IndexError], naming the first such integer; the
    items have been scored by then, and no selection takes place. *)
Theorem recommend_unknown_item_raises
    (self : Neural.t) (md : module) (pre post : list Z) (i : Z) (top_k : Z) (w : world) :
  restored self md -> 0 < Neural.num_users self ->
  Forall int64 (pre ++ i :: post) ->
  valid_context (Neural.num_items self) pre ->
  (i < - Z.of_nat (Neural.num_items self) \/ Z.of_nat (Neural.num_items self) <= i)%Z ->
  exists w',
    NeuralMF.recommend np self (pre ++ i :: post) top_k w
      = (inl (IndexError ("index " +:+ str_Z i +:+
                            " is out of bounds for axis 0 with size "
                            +:+ str_nat (Neural.num_items self))), w') /\
    DeepFM.recommend np self (pre ++ i :: post) top_k w
      = NeuralMF.recommend np self (pre ++ i :: post) top_k w /\
    calls w' = calls w ++ forward_calls 0 (Neural.num_items self) /\
    fs w' = fs w.
Proof.
  intros Hres Husers _ Hpre Hi.
  destruct (recommend_first_invalid_index self md pre post i top_k w Hres Husers Hpre Hi)
    as (w' & Hrun & Hcalls & Hfs).
  exists w'. unfold NeuralMF.recommend, DeepFM.recommend.
  split; [exact Hrun|]. split; [reflexivity|]. split; assumption.
Qed.

End RecommendUnknownItem.

Lemma recommend_unknown_item_raises_witness :
  restored (Demo.demo_model VNeuralMF) (Demo.demo_module VNeuralMF) /\
  valid_context (Neural.num_items (Demo.demo_model VNeuralMF)) [0; 1]%Z /\
  fst (NeuralMF.recommend numpy_ref (Demo.demo_model VNeuralMF) ([0; 1] ++ 7 :: [2])%Z 3
         Demo.no_files)
    = inl (IndexError "index 7 is out of bounds for axis 0 with size 5").
Proof.
  split; [apply demo_model_restored|]. split; [apply valid_context_demo|].
  destruct (recommend_unknown_item_raises numpy_ref (Demo.demo_model VNeuralMF)
              (Demo.demo_module VNeuralMF) [0; 1]%Z [2%Z] 7 3 Demo.no_files
              (demo_model_restored VNeuralMF))
    as (w' & Hrun & _);
    [simpl; lia
    |repeat constructor; unfold int64; lia
    |apply valid_context_demo|simpl; lia|].
  rewrite Hrun. reflexivity.
Defined.

(** ** The outcomes of [restore] *)

Section RestoreOutcome.

Variable v : variant.

Lemma dropout_ok_iff (p : Q) : dropout_ok p = true <-> (0 <= p <= 1)%Q.
Proof. unfold dropout_ok. rewrite andb_true_iff, !Qle_bool_iff. reflexivity. Qed.

Lemma module_init_ok_iff nu ni dim dims p sc :
  (exists md, module_init v nu ni dim dims p sc = inr md) <->
  (v = VDeepFM -> dims <> []) /\ (dims <> [] -> (0 <= p <= 1)%Q).
Proof.
  unfold module_init. destruct dims as [|d dims].
  - destruct v; split.
    + intros _. split; [discriminate|contradiction].
    + eauto.
    + intros [md Hmd]. discriminate.
    + intros [H _]. exfalso. apply H; reflexivity.
  - destruct (dropout_ok p) eqn:Hp; split.
    + intros _. split; [discriminate|]. intros _. apply dropout_ok_iff, Hp.
    + eauto.
    + intros [md Hmd]. discriminate.
    + intros [_ H]. apply dropout_ok_iff in H; [|discriminate]. congruence.
Qed.

(** [restore] on a file that holds a loadable checkpoint. *)
Lemma restore_loadable (ckpt : string) (ck : checkpoint) (self : Neural.t) (w : world) :
  fs w !! ckpt = Some (FCheckpoint ck) -> loadable v ck ->
  Neural.restore v ckpt (self, w) = (inr tt, (restored_from ck self, w)).
Proof.
  intros Hfile (Hkey & Hdims & Hdrop & Harch & Hnu & Hni & Hdim & Hhd).
  unfold Neural.restore, torch_load, path_exists, Neural.getitem_dims. munfold.
  rewrite Hfile. rewrite bool_decide_eq_true_2 by eauto. cbn.
  rewrite Hfile. cbn. rewrite bool_decide_eq_true_2 by exact Hkey. cbn.
  destruct (proj2 (module_init_ok_iff (ck_num_users ck) (ck_num_items ck)
                     (ck_embedding_dim ck) (ck_dims ck) (ck_dropout ck) (init_score w))
              (conj Hdims Hdrop)) as [md0 Hinit].
  rewrite Hinit. cbn.
  apply module_init_inr in Hinit as [-> _].
  unfold load_state_dict, same_shape. cbn.
  rewrite Harch, Hnu, Hni, Hdim, Hhd.
  rewrite !bool_decide_eq_true_2, !Nat.eqb_refl by reflexivity. cbn.
  reflexivity.
Qed.

(** X5. [restore] of class [v] returns normally exactly when the path
    holds a loadable checkpoint (the key of the class for the layer sizes,
    layer sizes and a dropout the constructor of the network accepts, and
    tensors of the shapes of that network); it then leaves the environment
    as it was
    and the instance with the recorded numbers of users and items, the
    embedding dimension, the layer sizes, the dropout, the network of the
    checkpoint, and the loaded flag set, whatever the instance held
    before. *)
Theorem restore_succeeds_iff_loadable (ckpt : string) (self : Neural.t) (w : world) :
  (fst (Neural.restore v ckpt (self, w)) = inr tt <->
   exists ck, fs w !! ckpt = Some (FCheckpoint ck) /\ loadable v ck) /\
  (forall ck, fs w !! ckpt = Some (FCheckpoint ck) -> loadable v ck ->
     Neural.restore v ckpt (self, w) = (inr tt, (restored_from ck self, w))).
Proof.
  split; [|intros ck Hfile Hload; apply restore_loadable; assumption].
  split.
  - unfold Neural.restore, torch_load, path_exists, Neural.getitem_dims. munfold.
    destruct (fs w !! ckpt) as [[ck|other]|] eqn:Hfile; cbn; rewrite ?Hfile; cbn;
      try discriminate.
    case_bool_decide as Hkey; cbn; [|discriminate].
    destruct (module_init v (ck_num_users ck) (ck_num_items ck) (ck_embedding_dim ck)
                (ck_dims ck) (ck_dropout ck) (init_score w)) as [e|md0] eqn:Hinit;
      cbn; [discriminate|].
    assert (Hdims : (v = VDeepFM -> ck_dims ck <> []) /\
                    (ck_dims ck <> [] -> (0 <= ck_dropout ck <= 1)%Q))
      by (apply (module_init_ok_iff (ck_num_users ck) (ck_num_items ck)
                   (ck_embedding_dim ck) (ck_dims ck) (ck_dropout ck) (init_score w));
          eauto).
    destruct Hdims as [Hdims Hdrop].
    apply module_init_inr in Hinit as [-> _].
    unfold load_state_dict. cbn [md_state md_dropout].
    destruct (same_shape _ (ck_model_state_dict ck)) eqn:Hshape; cbn; [|discriminate].
    apply same_shape_eq in Hshape as (Harch & Hnu & Hni & Hdim & Hhd).
    cbn in Harch, Hnu, Hni, Hdim, Hhd.
    intros _. exists ck. split; [reflexivity|].
    split; [exact Hkey|]. split; [exact Hdims|]. split; [exact Hdrop|].
    repeat split; assumption.
  - intros (ck & Hfile & Hload). rewrite (restore_loadable ckpt ck self w Hfile Hload).
    reflexivity.
Qed.

(** X6. [restore] of class [v] on a checkpoint that lacks the key of the
    class for the layer sizes (a checkpoint written by the other class)
    raises [KeyError] for that key after it has overwritten the numbers of
    users and items and the embedding dimension; the layer sizes, the
    dropout, the network and the loaded flag of the instance are as
    before. *)
Theorem restore_other_class_overwrites_sizes
    (ckpt : string) (ck : checkpoint) (self : Neural.t) (w : world) :
  fs w !! ckpt = Some (FCheckpoint ck) -> ck_dims_key ck <> dims_key v ->
  exists self',
    Neural.restore v ckpt (self, w)
      = (inl (KeyError ("'" +:+ dims_key v +:+ "'")), (self', w)) /\
    Neural.num_users self' = ck_num_users ck /\
    Neural.num_items self' = ck_num_items ck /\
    Neural.embedding_dim self' = ck_embedding_dim ck /\
    Neural.hidden_dims self' = Neural.hidden_dims self /\
    Neural.dropout self' = Neural.dropout self /\
    Neural.model self' = Neural.model self /\
    Neural.model_loaded self' = Neural.model_loaded self.
Proof.
  intros Hfile Hkey.
  unfold Neural.restore, torch_load, path_exists, Neural.getitem_dims. munfold.
  rewrite Hfile. rewrite bool_decide_eq_true_2 by eauto. cbn.
  rewrite Hfile. cbn. rewrite bool_decide_eq_false_2 by exact Hkey. cbn.
  eexists. split; [reflexivity|]. cbn. repeat split; reflexivity.
Qed.

End RestoreOutcome.

Lemma demo_checkpoint_loadable (v : variant) : loadable v (Demo.demo_checkpoint v).
Proof.
  split; [reflexivity|]. split; [intros _; discriminate|].
  split; [intros _; split; unfold Qle; cbn; lia|].
  repeat split.
Qed.

Lemma restore_succeeds_iff_loadable_witness :
  fst (NeuralMF.restore "recommend/ckpt/NeuralMF_emb64.pth" (Neural.new, Demo.neuralmf_trained))
    = inr tt /\
  fst (NeuralMF.restore "recommend/ckpt/DeepFM_emb64.pth" (Neural.new, Demo.neuralmf_trained))
    <> inr tt /\
  fst (NeuralMF.restore "recommend/ckpt/NeuralMF_emb64.pth" (Neural.new, bad_dropout_world))
    <> inr tt.
Proof.
  pose proof (restore_succeeds_iff_loadable VNeuralMF "recommend/ckpt/NeuralMF_emb64.pth"
                Neural.new Demo.neuralmf_trained) as [Hiff _].
  pose proof (restore_succeeds_iff_loadable VNeuralMF "recommend/ckpt/DeepFM_emb64.pth"
                Neural.new Demo.neuralmf_trained) as [Hiff' _].
  pose proof (restore_succeeds_iff_loadable VNeuralMF "recommend/ckpt/NeuralMF_emb64.pth"
                Neural.new bad_dropout_world) as [Hbad _].
  split; [|split].
  - apply Hiff. exists (Demo.demo_checkpoint VNeuralMF). split; [reflexivity|].
    apply demo_checkpoint_loadable.
  - intros H. apply Hiff' in H as (ck & Hfile & _). vm_compute in Hfile. discriminate.
  - intros H. apply Hbad in H as (ck & Hfile & _ & _ & Hdrop & _).
    assert (Hck : ck = bad_dropout_checkpoint).
    { unfold bad_dropout_world in Hfile. cbn [fs] in Hfile.
      rewrite lookup_singleton_eq in Hfile. congruence. }
    subst ck. destruct Hdrop as [_ Hle]; [discriminate|].
    unfold Qle in Hle. cbn in Hle. lia.
Defined.

Lemma restore_other_class_overwrites_sizes_witness :
  exists self',
    DeepFM.restore "recommend/ckpt/NeuralMF_emb64.pth"
        (Neural.set_num_items 9 Neural.new, Demo.neuralmf_trained)
      = (inl (KeyError "'deep_hidden_dims'"), (self', Demo.neuralmf_trained)) /\
    Neural.num_items self' = 5 /\ Neural.model self' = None.
Proof.
  destruct (restore_other_class_overwrites_sizes VDeepFM "recommend/ckpt/NeuralMF_emb64.pth"
              (Demo.demo_checkpoint VNeuralMF) (Neural.set_num_items 9 Neural.new)
              Demo.neuralmf_trained)
    as (self' & Hrun & _ & Hni & _ & _ & _ & Hmodel & _).
  - reflexivity.
  - discriminate.
  - exists self'. split; [exact Hrun|]. split; [exact Hni | exact Hmodel].
Defined.

(** ** [save] and the names of the files it writes *)

Section StringFacts.

Lemma append_cons (c : ascii) (a b : string) : String c a +:+ b = String c (a +:+ b).
Proof. reflexivity. Qed.

Lemma length_append (a b : string) :
  String.length (a +:+ b) = String.length a + String.length b.
Proof.
  induction a as [|c a IH]; [reflexivity|].
  rewrite append_cons. cbn [String.length]. rewrite IH. reflexivity.
Qed.

Lemma append_inv_head (a x y : string) : a +:+ x = a +:+ y -> x = y.
Proof.
  induction a as [|c a IH]; [auto|]. rewrite !append_cons. intros [= H]; auto.
Qed.

Lemma append_inv_tail (s x y : string) : x +:+ s = y +:+ s -> x = y.
Proof.
  intros H.
  assert (Hlen : String.length x = String.length y).
  { apply (f_equal String.length) in H. rewrite !length_append in H. lia. }
  revert y H Hlen. induction x as [|c x IH]; intros [|d y]; try discriminate.
  - reflexivity.
  - rewrite !append_cons. intros [= -> H] [= Hlen]. f_equal. apply IH; assumption.
Qed.

Lemma str_Z_inj (a b : Z) : str_Z a = str_Z b -> a = b.
Proof.
  unfold str_Z. intros H.
  assert (Hnonnil : forall z, Z.to_int z <> Decimal.Pos Decimal.Nil /\
                              Z.to_int z <> Decimal.Neg Decimal.Nil).
  { intros [|p|p]; cbn; split; try discriminate;
      intros [= Hp]; exact (DecimalPos.Unsigned.to_uint_nonnil p Hp). }
  apply DecimalZ.to_int_inj.
  assert (Hsome : Some (Z.to_int a) = Some (Z.to_int b)).
  { rewrite <- (NilZero.isi (Z.to_int a)) by apply Hnonnil.
    rewrite <- (NilZero.isi (Z.to_int b)) by apply Hnonnil.
    rewrite H. reflexivity. }
  congruence.
Qed.

Lemma str_nat_inj (a b : nat) : str_nat a = str_nat b -> a = b.
Proof. unfold str_nat. intros H. apply str_Z_inj in H. lia. Qed.

Lemma path_join_inj (dir x y : string) : path_join dir x = path_join dir y -> x = y.
Proof.
  unfold path_join. destruct (bool_decide (dir = "") || ends_with_slash dir); intros H.
  - exact (append_inv_head _ _ _ H).
  - apply append_inv_head in H. exact (append_inv_head _ _ _ H).
Qed.

Lemma save_filename_inj (v1 v2 : variant) (a b : Neural.t) :
  Neural.save_filename v1 a = Neural.save_filename v2 b ->
  v1 = v2 /\ Neural.embedding_dim a = Neural.embedding_dim b.
Proof.
  unfold Neural.save_filename.
  destruct v1, v2; cbn [cls_name]; intros H;
    try (exfalso; revert H; rewrite !append_cons; discriminate);
    (split; [reflexivity|]); apply str_nat_inj.
  - apply (append_inv_head "NeuralMF_emb"
             (str_nat (Neural.embedding_dim a) +:+ ".pth")
             (str_nat (Neural.embedding_dim b) +:+ ".pth")) in H.
    exact (append_inv_tail _ _ _ H).
  - apply (append_inv_head "DeepFM_emb"
             (str_nat (Neural.embedding_dim a) +:+ ".pth")
             (str_nat (Neural.embedding_dim b) +:+ ".pth")) in H.
    exact (append_inv_tail _ _ _ H).
Qed.

Lemma save_path_eq_iff (dir : string) (v1 v2 : variant) (a b : Neural.t) :
  path_join dir (Neural.save_filename v1 a) = path_join dir (Neural.save_filename v2 b) <->
  v1 = v2 /\ Neural.embedding_dim a = Neural.embedding_dim b.
Proof.
  split.
  - intros H. apply path_join_inj in H. exact (save_filename_inj _ _ _ _ H).
  - intros [-> Hdim]. unfold Neural.save_filename. rewrite Hdim. reflexivity.
Qed.

End StringFacts.

Section Save.

Lemma trained_loadable (v : variant) (self : Neural.t) (md : module) :
  trained v self md -> loadable v (saved_checkpoint v self md).
Proof.
  intros (_ & _ & Hinit).
  assert (Hok : (v = VDeepFM -> Neural.hidden_dims self <> []) /\
                (Neural.hidden_dims self <> [] -> (0 <= Neural.dropout self <= 1)%Q)).
  { apply (module_init_ok_iff v (Neural.num_users self) (Neural.num_items self)
             (Neural.embedding_dim self) (Neural.hidden_dims self) (Neural.dropout self)
             (sd_score (md_state md))). eauto. }
  destruct Hok as [Hdims Hdrop].
  apply module_init_inr in Hinit as [-> _]. cbn.
  split; [reflexivity|]. split; [exact Hdims|]. split; [exact Hdrop|].
  repeat split.
Qed.

Lemma length_rstrip_slash (s : string) : String.length (rstrip_slash s) <= String.length s.
Proof.
  induction s as [|c s IH]; [reflexivity|]. cbn [rstrip_slash].
  destruct (bool_decide (c = "/"%char) && bool_decide (rstrip_slash s = ""));
    cbn [String.length]; lia.
Qed.

Lemma length_prefixes_before_slash (before path p : string) :
  p ∈ prefixes_before_slash before path ->
  String.length p < String.length before + String.length path.
Proof.
  revert before. induction path as [|c rest IH]; intros before Hin.
  - inversion Hin.
  - cbn [prefixes_before_slash] in Hin. apply elem_of_app in Hin as [Hin|Hin].
    + destruct (bool_decide (c = "/"%char) && negb (bool_decide (before = "")));
        [|inversion Hin].
      apply list_elem_of_singleton in Hin as ->. cbn [String.length]. lia.
    + apply IH in Hin. rewrite length_append in Hin. cbn [String.length] in *. lia.
Qed.

Lemma length_path_join (a b : string) :
  String.length a + String.length b <= String.length (path_join a b).
Proof.
  unfold path_join. destruct (bool_decide (a = "") || ends_with_slash a);
    rewrite !length_append; cbn [String.length]; lia.
Qed.

(** Writing a file into a usable directory leaves it usable. *)
Lemma usable_after_write (w : world) (save_dir name : string) (f : file) :
  usable_directory w save_dir -> name <> "" ->
  usable_directory
    {| fs := <[path_join save_dir name := f]> (fs w); calls := calls w;
       next_id := next_id w; init_score := init_score w |} save_dir.
Proof.
  intros [Hne Hall] Hname. split; [exact Hne|].
  rewrite Forall_forall in Hall. apply Forall_forall. intros p Hp. cbn [fs].
  rewrite lookup_insert_ne; [apply Hall, Hp|].
  intros Heq.
  assert (Hlen : String.length p <= String.length save_dir).
  { apply elem_of_cons in Hp as [->|Hp]; [apply length_rstrip_slash|].
    apply length_prefixes_before_slash in Hp.
    pose proof (length_rstrip_slash save_dir). cbn [String.length] in Hp. lia. }
  pose proof (length_path_join save_dir name) as Hjoin. rewrite Heq in Hjoin.
  destruct name; [contradiction|]. cbn [String.length] in Hjoin. lia.
Qed.

Lemma save_filename_nonempty (v : variant) (self : Neural.t) :
  Neural.save_filename v self <> "".
Proof. unfold Neural.save_filename. destruct v; discriminate. Qed.

(** A [save] that raises has written nothing. *)
Lemma save_raises_keeps_world (v : variant) (self : Neural.t) (save_dir : string)
    (w w' : world) (e : exn) :
  Neural.save v self save_dir w = (inl e, w') -> w' = w.
Proof.
  unfold Neural.save, torch_save. munfold.
  pose proof (makedirs_world save_dir w) as Hw.
  destruct (makedirs save_dir w) as [[e0|[]] w0]; cbn in Hw; subst w0.
  - intros [= _ <-]. reflexivity.
  - destruct (Neural.model self); [discriminate|]. intros [= _ <-]. reflexivity.
Qed.

(** X7. [save] makes the directory first. A [save] that raises leaves
    every file as it was: it raises [FileNotFoundError] for the empty
    directory name, [FileExistsError] or [NotADirectoryError] when the
    name of the directory is that of a file, and, in a directory it can
    write into, [AttributeError] for an instance without a network. In
    such a directory [save] of an instance with a network returns
    normally, writes the file named after the class and the embedding
    dimension, leaves every other path and the rest of the environment as
    they were, and a second [save] of the same instance changes nothing. *)
Theorem save_writes_one_file (v : variant) (self : Neural.t) (save_dir : string) (w : world) :
  (forall e w', Neural.save v self save_dir w = (inl e, w') -> w' = w) /\
  (save_dir = "" ->
   fst (Neural.save v self save_dir w)
     = inl (FileNotFoundError "[Errno 2] No such file or directory: ''")) /\
  (save_dir <> "" -> is_Some (fs w !! rstrip_slash save_dir) ->
   exists msg,
     fst (Neural.save v self save_dir w) = inl (FileExistsError msg) \/
     fst (Neural.save v self save_dir w) = inl (NotADirectoryError msg)) /\
  (usable_directory w save_dir -> Neural.model self = None ->
   Neural.save v self save_dir w
     = (inl (AttributeError "'NoneType' object has no attribute 'state_dict'"), w)) /\
  (usable_directory w save_dir -> forall md, Neural.model self = Some md ->
     exists w',
       Neural.save v self save_dir w = (inr tt, w') /\
       fs w' !! path_join save_dir (cls_name v +:+ "_emb" +:+
                                    str_nat (Neural.embedding_dim self) +:+ ".pth")
         = Some (FCheckpoint (saved_checkpoint v self md)) /\
       (forall p, p <> path_join save_dir (Neural.save_filename v self) ->
                  fs w' !! p = fs w !! p) /\
       calls w' = calls w /\ next_id w' = next_id w /\
       Neural.save v self save_dir w' = (inr tt, w')).
Proof.
  split; [intros e w'; apply save_raises_keeps_world|].
  split; [|split; [|split]].
  - intros ->. unfold Neural.save, makedirs. munfold. reflexivity.
  - intros Hne Hfile. unfold Neural.save, makedirs. munfold.
    rewrite bool_decide_eq_false_2 by exact Hne.
    destruct (existsb (path_exists w) (ancestors (rstrip_slash save_dir)));
      [eexists; right; reflexivity|].
    unfold path_exists. rewrite bool_decide_eq_true_2 by exact Hfile.
    eexists. left. reflexivity.
  - intros Hdir Hmodel. unfold Neural.save. munfold.
    rewrite (makedirs_usable save_dir w Hdir), Hmodel. reflexivity.
  - intros Hdir md Hmodel. eexists.
    split; [exact (save_in_usable v self md save_dir w Hdir Hmodel)|].
    cbn [fs calls next_id].
    split; [apply lookup_insert_eq|].
    split; [intros p Hp; apply lookup_insert_ne; congruence|].
    split; [reflexivity|]. split; [reflexivity|].
    rewrite (save_in_usable v self md save_dir _
               (usable_after_write w save_dir _ _ Hdir (save_filename_nonempty v self))
               Hmodel).
    cbn. rewrite insert_insert_eq. reflexivity.
Qed.

(** X8. Two instances write to the same file of a directory exactly when
    they are of the same class and have the same embedding dimension: the
    numbers of users and items, the layer sizes and the dropout do not
    enter the file name. *)
Theorem save_paths_clash_iff (save_dir : string) (v1 v2 : variant) (a b : Neural.t) :
  path_join save_dir (Neural.save_filename v1 a)
    = path_join save_dir (Neural.save_filename v2 b) <->
  v1 = v2 /\ Neural.embedding_dim a = Neural.embedding_dim b.
Proof. apply save_path_eq_iff. Qed.

(** X9. After [save] of a trained instance [a] and then [save] of a
    trained instance [b] into the same directory, one that [save] can
    write into, both return normally and [restore] of the file
    of [a] into any instance succeeds; it loads the checkpoint of [a]
    when the class or the embedding dimension of [b] differs, and the
    checkpoint of [b] when both agree. *)
Theorem later_save_replaces_same_name
    (v1 v2 : variant) (a b : Neural.t) (mda mdb : module)
    (save_dir : string) (fresh : Neural.t) (w : world) :
  trained v1 a mda -> trained v2 b mdb -> usable_directory w save_dir ->
  exists w1 w2,
    Neural.save v1 a save_dir w = (inr tt, w1) /\
    Neural.save v2 b save_dir w1 = (inr tt, w2) /\
    Neural.restore v1 (path_join save_dir (Neural.save_filename v1 a)) (fresh, w2)
      = (inr tt,
         (restored_from
            (if bool_decide (v1 = v2 /\ Neural.embedding_dim a = Neural.embedding_dim b)
             then saved_checkpoint v2 b mdb else saved_checkpoint v1 a mda) fresh,
          w2)).
Proof.
  intros Ha Hb Hdir.
  pose proof Ha as (_ & Hma & _). pose proof Hb as (_ & Hmb & _).
  eexists. eexists.
  split; [exact (save_in_usable v1 a mda save_dir w Hdir Hma)|].
  split; [exact (save_in_usable v2 b mdb save_dir _
                   (usable_after_write w save_dir _ _ Hdir (save_filename_nonempty v1 a))
                   Hmb)|].
  case_bool_decide as Hsame.
  - destruct Hsame as [<- Hdim].
    apply restore_loadable; [|apply trained_loadable; exact Hb].
    cbn [fs].
    replace (Neural.save_filename v1 b) with (Neural.save_filename v1 a)
      by (unfold Neural.save_filename; rewrite Hdim; reflexivity).
    apply lookup_insert_eq.
  - apply restore_loadable; [|apply trained_loadable; exact Ha].
    cbn [fs]. rewrite lookup_insert_ne.
    + apply lookup_insert_eq.
    + intros Heq. apply Hsame. symmetry in Heq. apply save_path_eq_iff in Heq.
      destruct Heq as [-> ->]. split; reflexivity.
Qed.

End Save.

Lemma save_writes_one_file_witness :
  fst (NeuralMF.save (Demo.demo_model VNeuralMF) "" Demo.no_files)
    = inl (FileNotFoundError "[Errno 2] No such file or directory: ''") /\
  (exists msg,
     fst (NeuralMF.save (Demo.demo_model VNeuralMF) "recommend" file_in_the_way)
       = inl (FileExistsError msg) \/
     fst (NeuralMF.save (Demo.demo_model VNeuralMF) "recommend" file_in_the_way)
       = inl (NotADirectoryError msg)) /\
  NeuralMF.save (Demo.demo_model VNeuralMF) "recommend/ckpt" file_in_the_way
    = (inl (NotADirectoryError "[Errno 20] Not a directory"), file_in_the_way) /\
  exists w',
    NeuralMF.save (Demo.demo_model VNeuralMF) "recommend/ckpt" Demo.no_files = (inr tt, w') /\
    fs w' !! "recommend/ckpt/NeuralMF_emb64.pth"
      = Some (FCheckpoint (Demo.demo_checkpoint VNeuralMF)) /\
    NeuralMF.save (Demo.demo_model VNeuralMF) "recommend/ckpt" w' = (inr tt, w').
Proof.
  destruct (save_writes_one_file VNeuralMF (Demo.demo_model VNeuralMF) "" Demo.no_files)
    as (_ & Hempty & _).
  destruct (save_writes_one_file VNeuralMF (Demo.demo_model VNeuralMF) "recommend"
              file_in_the_way) as (_ & _ & Hfile & _).
  destruct (save_writes_one_file VNeuralMF (Demo.demo_model VNeuralMF) "recommend/ckpt"
              Demo.no_files) as (_ & _ & _ & _ & Hwrites).
  split; [apply Hempty; reflexivity|].
  split; [apply Hfile; [discriminate|vm_compute; eauto]|].
  split; [vm_compute; reflexivity|].
  destruct (Hwrites (usable_directory_no_files "recommend/ckpt" ltac:(discriminate))
              (Demo.demo_module VNeuralMF) eq_refl)
    as (w' & Hsave & Hfs & _ & _ & _ & Hagain).
  exists w'. split; [exact Hsave|]. split; [exact Hfs|exact Hagain].
Defined.

Lemma later_save_replaces_same_name_witness :
  exists w1 w2,
    Neural.save VNeuralMF (Demo.demo_model VNeuralMF) "recommend/ckpt" Demo.no_files
      = (inr tt, w1) /\
    Neural.save VDeepFM (Demo.demo_model VDeepFM) "recommend/ckpt" w1 = (inr tt, w2) /\
    Neural.restore VNeuralMF
        (path_join "recommend/ckpt" (Neural.save_filename VNeuralMF (Demo.demo_model VNeuralMF)))
        (Neural.new, w2)
      = (inr tt,
         (restored_from
            (if bool_decide (VNeuralMF = VDeepFM /\
                             Neural.embedding_dim (Demo.demo_model VNeuralMF)
                             = Neural.embedding_dim (Demo.demo_model VDeepFM))
             then saved_checkpoint VDeepFM (Demo.demo_model VDeepFM) (Demo.demo_module VDeepFM)
             else saved_checkpoint VNeuralMF (Demo.demo_model VNeuralMF)
                    (Demo.demo_module VNeuralMF))
            Neural.new,
          w2)).
Proof.
  apply (later_save_replaces_same_name VNeuralMF VDeepFM (Demo.demo_model VNeuralMF)
           (Demo.demo_model VDeepFM) (Demo.demo_module VNeuralMF) (Demo.demo_module VDeepFM)
           "recommend/ckpt" Neural.new Demo.no_files).
  - repeat split.
  - repeat split.
  - apply usable_directory_no_files. discriminate.
Defined.

(** ** The training samples *)

Section DatasetFacts.

Lemma NoDup_tagged_rows (f : nat -> list nat) (rows : list nat) :
  NoDup rows -> (forall r, NoDup (f r)) ->
  NoDup (flat_map (fun r => map (fun c => (r, c)) (f r)) rows).
Proof.
  intros Hrows Hf. induction Hrows as [|r rows Hr Hrows IH]; cbn; [constructor|].
  apply NoDup_app. split; [|split; [|exact IH]].
  - apply (NoDup_fmap_2 (fun c => (r, c))); try apply Hf; intros x y [= ->]; reflexivity.
  - intros [r0 c0] Hin Hin'.
    apply list_elem_of_fmap in Hin as (c & [= -> ->] & _).
    apply list_elem_of_In, in_flat_map in Hin' as (r' & Hr' & Hin').
    apply in_map_iff in Hin' as (c' & [= <- <-] & _).
    apply Hr, list_elem_of_In, Hr'.
Qed.

Lemma NoDup_nonzero (rm : Neural.rating_matrix) : NoDup (Neural.nonzero rm).
Proof.
  unfold Neural.nonzero.
  apply (NoDup_tagged_rows
           (fun r => List.filter (fun c => negb (Qeq_bool (Neural.rm_entry rm r c) 0))
                       (seq 0 (snd (Neural.rm_shape rm))))).
  - apply NoDup_seq.
  - intros r. apply NoDup_ListNoDup, List.NoDup_filter, NoDup_ListNoDup, NoDup_seq.
Qed.

Lemma norm_index_nonneg (n : nat) (idx : Z) :
  (0 <= idx < Z.of_nat n)%Z -> norm_index n idx = inr (Z.to_nat idx).
Proof.
  intros H. unfold norm_index.
  destruct (Z.ltb_spec idx (- Z.of_nat n)); [lia|].
  destruct (Z.leb_spec (Z.of_nat n) idx); [lia|]. cbn.
  destruct (Z.ltb_spec idx 0); [lia|]. reflexivity.
Qed.

Lemma getitem_in_range (rm : Neural.rating_matrix) (idx : Z) :
  (0 <= idx < Z.of_nat (length (Neural.nonzero rm)))%Z ->
  exists u i, Neural.nonzero rm !! Z.to_nat idx = Some (u, i) /\
              Dataset.getitem (Dataset.new rm) idx = inr (u, i, 1%Q).
Proof.
  intros Hidx.
  destruct (lookup_lt_is_Some_2 (Neural.nonzero rm) (Z.to_nat idx)) as [[u i] Hnz]; [lia|].
  exists u, i. split; [exact Hnz|].
  unfold Dataset.getitem, Dataset.index, Dataset.new. cbn.
  rewrite !length_replicate, !length_fmap.
  rewrite norm_index_nonneg by exact Hidx.
  rewrite (list_lookup_total_fmap fst) by lia.
  rewrite (list_lookup_total_fmap snd) by lia.
  rewrite lookup_total_replicate_2 by lia.
  rewrite (list_lookup_total_correct _ _ _ Hnz). reflexivity.
Qed.

(** X10. The samples of a training matrix are its nonzero positions: the
    dataset has as many samples as the matrix has nonzero entries, every
    index below the length gives a nonzero position of the matrix with the
    label [1.0], every nonzero position is the sample of exactly one such
    index, and an index from the length on raises [IndexError]. No sample
    has another label: there are no negative samples. *)
Theorem dataset_enumerates_nonzero_positions (rm : Neural.rating_matrix) :
  let data := Dataset.new rm in
  let in_matrix u i :=
    u < fst (Neural.rm_shape rm) /\ i < snd (Neural.rm_shape rm) /\
    Qeq_bool (Neural.rm_entry rm u i) 0 = false in
  Dataset.len data = length (Neural.nonzero rm) /\
  (forall idx, (0 <= idx < Z.of_nat (Dataset.len data))%Z ->
     exists u i, Dataset.getitem data idx = inr (u, i, 1%Q) /\ in_matrix u i) /\
  (forall u i, in_matrix u i ->
     exists idx, (0 <= idx < Z.of_nat (Dataset.len data))%Z /\
       Dataset.getitem data idx = inr (u, i, 1%Q) /\
       forall idx', (0 <= idx' < Z.of_nat (Dataset.len data))%Z ->
         Dataset.getitem data idx' = inr (u, i, 1%Q) -> idx' = idx) /\
  (forall idx, (Z.of_nat (Dataset.len data) <= idx)%Z ->
     Dataset.getitem data idx
       = inl (IndexError ("index " +:+ str_Z idx +:+ " is out of bounds for axis 0 with size "
                            +:+ str_nat (Dataset.len data)))).
Proof.
  intros data in_matrix. subst data in_matrix. cbv beta.
  assert (Hlen : Dataset.len (Dataset.new rm) = length (Neural.nonzero rm))
    by (unfold Dataset.len, Dataset.new; cbn; apply length_fmap).
  split; [exact Hlen|]. rewrite Hlen. split; [|split].
  - intros idx Hidx. destruct (getitem_in_range rm idx Hidx) as (u & i & Hnz & Hget).
    exists u, i. split; [exact Hget|].
    apply nonzero_spec, list_elem_of_lookup. eauto.
  - intros u i Hin. apply nonzero_spec, list_elem_of_lookup in Hin as [k Hk].
    pose proof (lookup_lt_Some _ _ _ Hk) as Hlt.
    exists (Z.of_nat k). split; [lia|]. split.
    + destruct (getitem_in_range rm (Z.of_nat k)) as (u' & i' & Hnz & Hget); [lia|].
      rewrite Nat2Z.id in Hnz. rewrite Hget. congruence.
    + intros idx' Hidx' Hget'.
      destruct (getitem_in_range rm idx' Hidx') as (u' & i' & Hnz & Hget).
      assert (Heq : (u', i') = (u, i)) by congruence. rewrite Heq in Hnz.
      pose proof (NoDup_lookup _ _ _ _ (NoDup_nonzero rm) Hnz Hk). lia.
  - intros idx Hidx. unfold Dataset.getitem, Dataset.index.
    fold (Dataset.len (Dataset.new rm)). rewrite Hlen. unfold norm_index.
    destruct (Z.leb_spec (Z.of_nat (length (Neural.nonzero rm))) idx); [|lia].
    rewrite orb_true_r. reflexivity.
Qed.

End DatasetFacts.

(** ** The wrapper on a registered checkpoint *)

Lemma recommend_reads (np : numpy) (a b : Neural.t) (ctx : list Z) (top_k : Z) (w : world) :
  Neural.model a = Neural.model b ->
  Neural.model_loaded a = Neural.model_loaded b ->
  Neural.num_items a = Neural.num_items b ->
  Neural.recommend np a ctx top_k w = Neural.recommend np b ctx top_k w.
Proof.
  intros Hmodel Hloaded Hni. unfold Neural.recommend, Neural.eval_mode.
  rewrite Hmodel, Hloaded, Hni. reflexivity.
Qed.

Lemma trained_restored_from (v : variant) (self : Neural.t) (md : module) (fresh : Neural.t) :
  trained v self md ->
  Neural.model (restored_from (saved_checkpoint v self md) fresh) = Neural.model self /\
  Neural.model_loaded (restored_from (saved_checkpoint v self md) fresh)
    = Neural.model_loaded self /\
  Neural.num_items (restored_from (saved_checkpoint v self md) fresh) = Neural.num_items self.
Proof.
  intros (Hloaded & Hmodel & Hinit). apply module_init_inr in Hinit as [Hmd _].
  destruct md as [p sd]. cbn [md_state md_dropout] in Hmd. injection Hmd as Hp _.
  cbn. rewrite Hmodel, Hloaded, Hp. repeat split.
Qed.

Lemma registered_neural (v : variant) :
  model_to_cls true !! cls_name v = Some (neural_cls v) /\
  model_to_ckpt !! cls_name v = Some (registered_path v) /\
  cls_str (neural_cls v) = cls_name v.
Proof. destruct v; repeat split. Qed.

Section WrapperServes.

Context {EASE_t ItemKNN_t : Type}.
Context (ease : ScoringModel EASE_t) (knn : ScoringModel ItemKNN_t).
Context (np : numpy).

Abbreviation wrapper := (RecommenderWrapper.t EASE_t ItemKNN_t).
Abbreviation set_model := (RecommenderWrapper.set_model ease knn true).
Abbreviation recommend := (RecommenderWrapper.recommend ease knn np).

Lemma set_model_neural_loads (v : variant) (ck : checkpoint) (self : wrapper) (w : world) :
  RecommenderWrapper.model_name self <> Some (cls_name v) ->
  fs w !! registered_path v = Some (FCheckpoint ck) -> loadable v ck ->
  set_model (cls_name v) (self, w)
    = (inr tt,
       ({| RecommenderWrapper.model_name := Some (cls_name v);
           RecommenderWrapper.model :=
             Some (next_id w, neural_instance v (restored_from ck Neural.new)) |},
        {| fs := fs w;
           calls := calls w ++ [CallNew (cls_name v) (next_id w);
                                CallRestore (next_id w) (registered_path v)];
           next_id := S (next_id w); init_score := init_score w |})).
Proof.
  intros Hne Hfile Hload.
  destruct (registered_neural v) as (Hreg & Hckpt & Hstr).
  remember true as avail eqn:Havail. clear Havail.
  unfold RecommenderWrapper.set_model. munfold.
  rewrite bool_decide_eq_true_2 by exact Hne. simpl.
  rewrite bool_decide_eq_false_2 by (rewrite Hreg; discriminate).
  unfold RecommenderWrapper.getitem, RecommenderWrapper.construct. munfold.
  rewrite Hreg, Hckpt. simpl.
  unfold path_exists. simpl. rewrite Hfile.
  rewrite bool_decide_eq_true_2 by eauto. simpl.
  unfold RecommenderWrapper.call_restore, RecommenderWrapper.instance_restore. munfold.
  simpl. rewrite Hstr.
  pose (w1 := {| fs := fs w; calls := (calls w ++ [CallNew (cls_name v) (next_id w)])
                                        ++ [CallRestore (next_id w) (registered_path v)];
                 next_id := S (next_id w); init_score := init_score w |}).
  pose proof (restore_loadable v (registered_path v) ck Neural.new w1 Hfile Hload) as Hres.
  subst w1.
  destruct v; cbn [neural_cls]; unfold NeuralMF.restore, DeepFM.restore; rewrite Hres;
    cbn; rewrite <- app_assoc; reflexivity.
Qed.

Lemma wrapper_recommend_neural (v : variant) (m : Neural.t) (id : nat) (name : string)
    (ctx : list Z) (w : world) :
  recommend ctx ({| RecommenderWrapper.model_name := Some name;
                    RecommenderWrapper.model := Some (id, neural_instance v m) |}, w)
    = (fst (Neural.recommend np m ctx 10 w),
       ({| RecommenderWrapper.model_name := Some name;
           RecommenderWrapper.model := Some (id, neural_instance v m) |},
        snd (Neural.recommend np m ctx 10 w))).
Proof.
  unfold RecommenderWrapper.recommend. munfold.
  cbn [RecommenderWrapper.model RecommenderWrapper.model_name].
  rewrite list_fmap_id.
  destruct v; cbn [neural_instance RecommenderWrapper.instance_recommend];
    unfold NeuralMF.recommend, DeepFM.recommend;
    destruct (Neural.recommend np m ctx 10 w); reflexivity.
Qed.

(** X11. With PyTorch installed, [set_model] with the name of a neural
    class that is not the recorded one, while the registered path holds a
    loadable checkpoint, returns normally whatever the wrapper held: it
    records the name, puts in the slot a new object of the class with a
    new identity, restored from the checkpoint, constructs and restores
    exactly once, writes no file, and [recommend] on the wrapper is then
    the [recommend] of that object with [top_k] 10. *)
Theorem set_model_loads_registered_checkpoint
    (v : variant) (ck : checkpoint) (self : wrapper) (w : world) :
  RecommenderWrapper.model_name self <> Some (cls_name v) ->
  fs w !! registered_path v = Some (FCheckpoint ck) -> loadable v ck ->
  exists self' w',
    set_model (cls_name v) (self, w) = (inr tt, (self', w')) /\
    RecommenderWrapper.model_name self' = Some (cls_name v) /\
    RecommenderWrapper.model self'
      = Some (next_id w, neural_instance v (restored_from ck Neural.new)) /\
    calls w' = calls w ++ [CallNew (cls_name v) (next_id w);
                           CallRestore (next_id w) (registered_path v)] /\
    fs w' = fs w /\ next_id w' = S (next_id w) /\
    forall ctx w'',
      recommend ctx (self', w'')
        = (fst (Neural.recommend np (restored_from ck Neural.new) ctx 10 w''),
           (self', snd (Neural.recommend np (restored_from ck Neural.new) ctx 10 w''))).
Proof.
  intros Hne Hfile Hload. eexists. eexists.
  split; [apply set_model_neural_loads; eassumption|].
  cbn [RecommenderWrapper.model RecommenderWrapper.model_name calls fs next_id].
  repeat (split; [reflexivity|]).
  intros ctx w''. apply wrapper_recommend_neural.
Qed.

(** X12. A trained instance with the default embedding dimension 64 that
    is saved into [recommend/ckpt], where neither [recommend] nor
    [recommend/ckpt] is a file, is the one the wrapper serves: [save]
    returns normally, and with PyTorch installed [set_model] with the name
    of its class succeeds on any wrapper that has another name recorded,
    and [recommend] on the wrapper then returns, for every context, what
    [recommend] of the trained instance returns with [top_k] 10. *)
Theorem saved_model_is_served
    (v : variant) (self : Neural.t) (md : module) (wr : wrapper) (w : world) :
  trained v self md -> Neural.embedding_dim self = 64 ->
  usable_directory w "recommend/ckpt" ->
  RecommenderWrapper.model_name wr <> Some (cls_name v) ->
  exists w1 wr' w2,
    Neural.save v self "recommend/ckpt" w = (inr tt, w1) /\
    set_model (cls_name v) (wr, w1) = (inr tt, (wr', w2)) /\
    forall ctx w3,
      fst (recommend ctx (wr', w3)) = fst (Neural.recommend np self ctx 10 w3).
Proof.
  intros Htrained Hdim Hdir Hne.
  pose proof Htrained as (_ & Hmodel & _).
  eexists. eexists. eexists.
  split; [exact (save_in_usable v self md "recommend/ckpt" w Hdir Hmodel)|].
  split.
  - apply (set_model_neural_loads v (saved_checkpoint v self md)); [exact Hne| |].
    + cbn [fs]. unfold Neural.save_filename. rewrite Hdim.
      destruct v; apply lookup_insert_eq.
    + apply trained_loadable; exact Htrained.
  - intros ctx w3. rewrite wrapper_recommend_neural. cbn [fst].
    destruct (trained_restored_from v self md Neural.new Htrained) as (Hm & Hl & Hn).
    rewrite (recommend_reads np _ self ctx 10 w3 Hm Hl Hn). reflexivity.
Qed.

End WrapperServes.

Lemma set_model_loads_registered_checkpoint_witness :
  exists self' w',
    Demo.set_model "NeuralMF" (Demo.wrapper_new, Demo.neuralmf_trained) = (inr tt, (self', w')) /\
    RecommenderWrapper.model_name self' = Some "NeuralMF" /\
    calls w' = [CallNew "NeuralMF" 0; CallRestore 0 "recommend/ckpt/NeuralMF_emb64.pth"] /\
    fs w' = fs Demo.neuralmf_trained.
Proof.
  destruct (set_model_loads_registered_checkpoint absent_model absent_model numpy_ref
              VNeuralMF (Demo.demo_checkpoint VNeuralMF) Demo.wrapper_new
              Demo.neuralmf_trained)
    as (self' & w' & Hset & Hname & _ & Hcalls & Hfs & _).
  - discriminate.
  - reflexivity.
  - apply demo_checkpoint_loadable.
  - exists self', w'. repeat split; assumption.
Defined.

Lemma saved_model_is_served_witness :
  exists w1 wr' w2,
    DeepFM.save (Demo.demo_model VDeepFM) "recommend/ckpt" Demo.no_files = (inr tt, w1) /\
    Demo.set_model "DeepFM" (Demo.wrapper_new, w1) = (inr tt, (wr', w2)) /\
    forall ctx w3,
      fst (Demo.recommend ctx (wr', w3))
        = fst (DeepFM.recommend numpy_ref (Demo.demo_model VDeepFM) ctx 10 w3).
Proof.
  apply (saved_model_is_served absent_model absent_model numpy_ref VDeepFM
           (Demo.demo_model VDeepFM) (Demo.demo_module VDeepFM) Demo.wrapper_new
           Demo.no_files).
  - repeat split.
  - reflexivity.
  - apply usable_directory_no_files. discriminate.
  - discriminate.
Defined.

(** ** Every state the wrapper can reach *)

Section WrapperInvariant.

Context {EASE_t ItemKNN_t : Type}.
Context (ease : ScoringModel EASE_t) (knn : ScoringModel ItemKNN_t).
Context (np : numpy) (NEURAL_MODELS_AVAILABLE : bool).

Abbreviation wrapper_t := (RecommenderWrapper.t EASE_t ItemKNN_t).

Lemma recommend_keeps_wrapper (ctx : list Z) (self : wrapper_t) (w : world) :
  fst (snd (RecommenderWrapper.recommend ease knn np ctx (self, w))) = self.
Proof.
  unfold RecommenderWrapper.recommend. munfold.
  destruct (RecommenderWrapper.model self) as [[id obj]|]; [|reflexivity].
  destruct (RecommenderWrapper.model_name self); [|reflexivity].
  destruct (RecommenderWrapper.instance_recommend ease knn np obj ((fun i : Z => i) <$> ctx) w).
  reflexivity.
Qed.

Lemma set_model_name_or_same (X : string) (self : wrapper_t) (w : world) :
  RecommenderWrapper.model_name
    (fst (snd (RecommenderWrapper.set_model ease knn NEURAL_MODELS_AVAILABLE X (self, w))))
  = Some X.
Proof.
  destruct (RecommenderWrapper.set_model ease knn NEURAL_MODELS_AVAILABLE X (self, w))
    as [r [self' w']] eqn:Hrun.
  exact (set_model_records_name ease knn NEURAL_MODELS_AVAILABLE X self self' w w' r Hrun).
Qed.

(** X13. From a new wrapper, after any sequence of [set_model] and
    [recommend] calls, whatever each of them returned or raised, a slot
    that holds an object comes with a recorded name: [recommend] never
    ends in its second error, "Model name not set", by its own check. *)
Theorem wrapper_slot_implies_name (cs : list Session.call) (w : world) :
  let self := fst (Session.run_calls ease knn np NEURAL_MODELS_AVAILABLE cs
                     (RecommenderWrapper.new, w)) in
  RecommenderWrapper.model self = None \/
  exists id obj name,
    RecommenderWrapper.model self = Some (id, obj) /\
    RecommenderWrapper.model_name self = Some name.
Proof.
  cbv zeta.
  assert (Hinv : forall (s : wrapper_t * world),
    (RecommenderWrapper.model (fst s) = None \/
     is_Some (RecommenderWrapper.model_name (fst s))) ->
    RecommenderWrapper.model
      (fst (Session.run_calls ease knn np NEURAL_MODELS_AVAILABLE cs s)) = None \/
    is_Some (RecommenderWrapper.model_name
      (fst (Session.run_calls ease knn np NEURAL_MODELS_AVAILABLE cs s)))).
  { induction cs as [|c cs IH]; intros [self w0] Hs; [exact Hs|].
    unfold Session.run_calls. cbn [foldl]. apply IH.
    destruct c as [X|ctx]; cbn [Session.run_call].
    - right. rewrite set_model_name_or_same. eauto.
    - rewrite recommend_keeps_wrapper. exact Hs. }
  destruct (Hinv (RecommenderWrapper.new, w)) as [Hnone|[name Hname]];
    [left; reflexivity|left; exact Hnone|].
  destruct (RecommenderWrapper.model _) as [[id obj]|] eqn:Hslot; [|left; reflexivity].
  right. exists id, obj, name. split; [reflexivity|exact Hname].
Qed.

End WrapperInvariant.

(** ** The rating matrix of the training script *)

Section RatingMatrix.

Import FitOffline.

Lemma index_of_snoc (ids : list Z) (x : Z) :
  index_of (ids ++ [x]) = <[x := length ids]> (index_of ids).
Proof.
  unfold index_of. rewrite imap_app, foldl_app. cbn. rewrite Nat.add_0_r. reflexivity.
Qed.

Lemma index_of_lookup (ids : list Z) (u : Z) (r : nat) :
  NoDup ids -> (index_of ids !! u = Some r <-> ids !! r = Some u).
Proof.
  revert r. induction ids as [|x ids IH] using rev_ind; intros r Hnd.
  - unfold index_of. cbn. rewrite lookup_empty. split; discriminate.
  - apply NoDup_app in Hnd as (Hnd & Hx & _). rewrite index_of_snoc.
    assert (Hfresh : x ∉ ids) by (intros Hin; apply (Hx x Hin); left).
    destruct (decide (u = x)) as [->|Hne].
    + rewrite lookup_insert_eq. split.
      * intros [= <-]. rewrite lookup_app_r by lia. rewrite Nat.sub_diag. reflexivity.
      * intros Hr. destruct (decide (r < length ids)) as [Hlt|Hge].
        -- rewrite lookup_app_l in Hr by exact Hlt.
           exfalso. apply Hfresh. eapply list_elem_of_lookup_2, Hr.
        -- apply lookup_lt_Some in Hr as Hlen. rewrite length_app in Hlen. cbn in Hlen.
           f_equal. lia.
    + rewrite lookup_insert_ne by congruence. rewrite (IH r Hnd). split.
      * intros Hr. apply lookup_app_l_Some. exact Hr.
      * intros Hr. destruct (decide (r < length ids)) as [Hlt|Hge].
        -- rewrite lookup_app_l in Hr by exact Hlt. exact Hr.
        -- rewrite lookup_app_r in Hr by lia.
           destruct (r - length ids) as [|k]; cbn in Hr; [congruence|discriminate].
Qed.

Lemma StronglySorted_lookup {A} (R : relation A) (l : list A) (i j : nat) (a b : A) :
  StronglySorted R l -> i < j -> l !! i = Some a -> l !! j = Some b -> R a b.
Proof.
  intros Hs. revert i j. induction Hs as [|x l Hs IH Hall]; intros i j Hij Hi Hj.
  - discriminate.
  - destruct j as [|j]; [lia|]. cbn in Hj. destruct i as [|i]; cbn in Hi.
    + injection Hi as <-. rewrite Forall_forall in Hall. apply Hall.
      eapply list_elem_of_lookup_2, Hj.
    + apply (IH i j); [lia|assumption..].
Qed.

(** The identifiers in the order of the rows: every identifier once, in
    increasing order. *)
Lemma sorted_distinct (ids : list Z) :
  NoDup (sorted (distinct ids)) /\
  (forall x, x ∈ sorted (distinct ids) <-> x ∈ ids) /\
  (forall i j a b, sorted (distinct ids) !! i = Some a ->
     sorted (distinct ids) !! j = Some b -> (i < j <-> (a < b)%Z)).
Proof.
  unfold sorted, distinct.
  pose proof (merge_sort_Permutation Z.le (remove_dups ids)) as Hperm.
  assert (Hnd : NoDup (merge_sort Z.le (remove_dups ids)))
    by (rewrite Hperm; apply NoDup_remove_dups).
  assert (Hss : StronglySorted Z.le (merge_sort Z.le (remove_dups ids)))
    by (apply StronglySorted_merge_sort; [intros x y z; lia | apply Z.le_total]).
  split; [exact Hnd|]. split.
  - intros x. rewrite Hperm. apply elem_of_remove_dups.
  - intros i j a b Hi Hj.
    assert (Hlt : forall i j a b, i < j ->
      merge_sort Z.le (remove_dups ids) !! i = Some a ->
      merge_sort Z.le (remove_dups ids) !! j = Some b -> (a < b)%Z).
    { intros i' j' a' b' Hij Ha Hb.
      pose proof (StronglySorted_lookup Z.le _ i' j' a' b' Hss Hij Ha Hb) as Hle.
      assert (a' <> b').
      { intros ->. pose proof (NoDup_lookup _ _ _ _ Hnd Ha Hb). lia. }
      lia. }
    split; [intros Hij; exact (Hlt i j a b Hij Hi Hj)|].
    intros Hab. destruct (Nat.lt_trichotomy i j) as [Hij|[->|Hji]]; [exact Hij| |].
    + rewrite Hi in Hj. injection Hj as ->. lia.
    + pose proof (Hlt j i b a Hji Hj Hi). lia.
Qed.

Lemma loop_appends (du dm : gmap Z nat) (its : list interaction)
    (us cs : list nat) (rs : list Z) :
  foldl (append_interaction du dm) (us, cs, rs) its
  = (us ++ (omap (kept_position du dm) its).*1,
     cs ++ (omap (kept_position du dm) its).*2,
     rs ++ replicate (length (omap (kept_position du dm) its)) 1%Z).
Proof.
  revert us cs rs. induction its as [|it its IH]; intros us cs rs.
  - cbn. rewrite !app_nil_r. reflexivity.
  - assert (Hstep : append_interaction du dm (us, cs, rs) it
                    = match kept_position du dm it with
                      | Some (r, c) => (us ++ [r], cs ++ [c], rs ++ [1%Z])
                      | None => (us, cs, rs)
                      end).
    { unfold append_interaction, kept_position.
      destruct (contains du (user_id it) && contains dm (movie_id it)); reflexivity. }
    cbn [foldl]. rewrite Hstep.
    destruct (kept_position du dm it) as [[r c]|] eqn:Hk.
    + replace (omap (kept_position du dm) (it :: its))
        with ((r, c) :: omap (kept_position du dm) its) by (cbn; rewrite Hk; reflexivity).
      rewrite IH. cbn. rewrite <- !app_assoc. reflexivity.
    + replace (omap (kept_position du dm) (it :: its))
        with (omap (kept_position du dm) its) by (cbn; rewrite Hk; reflexivity).
      apply IH.
Qed.

Lemma coo_sum_ones (ps : list (nat * nat)) (r c : nat) :
  coo_sum (replicate (length ps) 1%Z) ps.*1 ps.*2 r c
  = Z.of_nat (length (List.filter (fun p => (fst p =? r) && (snd p =? c)) ps)).
Proof.
  induction ps as [|[i j] ps IH]; [reflexivity|].
  cbn. cbn in IH. rewrite IH.
  destruct ((i =? r) && (j =? c)); cbn [length]; lia.
Qed.

Lemma contains_get_index (d : gmap Z nat) (key : option Z) :
  contains d key = true ->
  exists k, key = Some k /\ d !! k = Some (get_index d key).
Proof.
  destruct key as [k|]; cbn; [|discriminate].
  intros H. apply bool_decide_eq_true in H as [r Hr].
  exists k. rewrite Hr. split; reflexivity.
Qed.

Lemma kept_count (uids mids : list Z) (its : list interaction) (r c : nat) (u m : Z) :
  NoDup uids -> NoDup mids -> uids !! r = Some u -> mids !! c = Some m ->
  length (List.filter (fun p => (fst p =? r) && (snd p =? c))
            (omap (kept_position (index_of uids) (index_of mids)) its))
  = length (List.filter
              (fun it => bool_decide (user_id it = Some u /\ movie_id it = Some m)) its).
Proof.
  intros Hu Hm Hr Hc. induction its as [|it its IH]; [reflexivity|].
  assert (Hcons : omap (kept_position (index_of uids) (index_of mids)) (it :: its)
                  = match kept_position (index_of uids) (index_of mids) it with
                    | Some p => p :: omap (kept_position (index_of uids) (index_of mids)) its
                    | None => omap (kept_position (index_of uids) (index_of mids)) its
                    end) by reflexivity.
  rewrite Hcons. clear Hcons. cbn [List.filter].
  unfold kept_position at 1.
  destruct (contains (index_of uids) (user_id it)) eqn:Hcu;
    [destruct (contains (index_of mids) (movie_id it)) eqn:Hcm|]; cbn [andb].
  - apply contains_get_index in Hcu as (a & Ha & Hda).
    apply contains_get_index in Hcm as (b & Hb & Hdb).
    apply index_of_lookup in Hda; [|exact Hu]. apply index_of_lookup in Hdb; [|exact Hm].
    cbn [List.filter fst snd].
    destruct (Nat.eqb_spec (get_index (index_of uids) (user_id it)) r) as [Er|Er];
      [destruct (Nat.eqb_spec (get_index (index_of mids) (movie_id it)) c) as [Ec|Ec]|];
      cbn [andb].
    + rewrite Er in Hda. rewrite Ec in Hdb.
      rewrite bool_decide_eq_true_2 by (split; congruence).
      cbn [length]. rewrite IH. reflexivity.
    + rewrite bool_decide_eq_false_2; [exact IH|].
      intros [_ Hm']. apply Ec. rewrite Hm' in Hb. injection Hb as <-.
      apply (NoDup_lookup _ _ _ _ Hm Hdb Hc).
    + rewrite bool_decide_eq_false_2; [exact IH|].
      intros [Hu' _]. apply Er. rewrite Hu' in Ha. injection Ha as <-.
      apply (NoDup_lookup _ _ _ _ Hu Hda Hr).
  - rewrite bool_decide_eq_false_2; [exact IH|].
    intros [_ Hm']. rewrite Hm' in Hcm. cbn in Hcm.
    apply bool_decide_eq_false in Hcm. apply Hcm.
    exists c. apply index_of_lookup; assumption.
  - rewrite bool_decide_eq_false_2; [exact IH|].
    intros [Hu' _]. rewrite Hu' in Hcu. cbn in Hcu.
    apply bool_decide_eq_false in Hcu. apply Hcu.
    exists r. apply index_of_lookup; assumption.
Qed.

Lemma kept_in_range (uids mids : list Z) (its : list interaction) :
  NoDup uids -> NoDup mids ->
  Forall (fun p => fst p < length uids /\ snd p < length mids)
    (omap (kept_position (index_of uids) (index_of mids)) its).
Proof.
  intros Hu Hm. apply Forall_forall. intros [r c] Hin.
  apply list_elem_of_omap in Hin as (it & _ & Hkept).
  unfold kept_position in Hkept.
  destruct (contains (index_of uids) (user_id it)) eqn:Hcu; [|discriminate].
  destruct (contains (index_of mids) (movie_id it)) eqn:Hcm; [|discriminate].
  cbn in Hkept. injection Hkept as <- <-.
  apply contains_get_index in Hcu as (a & _ & Hda).
  apply contains_get_index in Hcm as (b & _ & Hdb).
  apply index_of_lookup in Hda; [|exact Hu]. apply index_of_lookup in Hdb; [|exact Hm].
  split; eapply lookup_lt_Some; eassumption.
Qed.

(** X14. [load_rating_matrix_from_mongodb] always returns a matrix. It
    has one row for each distinct user identifier and one column for each
    distinct movie identifier, both in increasing order of the
    identifiers, and its entry for a user and a movie is the number of
    interactions of that user with that movie: an interaction that is
    stored twice gives the entry 2, and an interaction without a user or
    a movie, or with one that is not in its collection, is in no entry. *)
Theorem load_rating_matrix_counts_interactions (db : mongodb) :
  let user_ids := sorted (distinct (users db)) in
  let movie_ids := sorted (distinct (movies db)) in
  exists rm,
    load_rating_matrix_from_mongodb db = inr rm /\
    Neural.rm_shape rm = (length user_ids, length movie_ids) /\
    (forall u, u ∈ user_ids <-> u ∈ users db) /\
    (forall m, m ∈ movie_ids <-> m ∈ movies db) /\
    (forall i j a b, user_ids !! i = Some a -> user_ids !! j = Some b ->
       (i < j <-> (a < b)%Z)) /\
    (forall i j a b, movie_ids !! i = Some a -> movie_ids !! j = Some b ->
       (i < j <-> (a < b)%Z)) /\
    (forall r c u m, user_ids !! r = Some u -> movie_ids !! c = Some m ->
       Neural.rm_entry rm r c = inject_Z (Z.of_nat (interaction_count db u m))).
Proof.
  cbv zeta.
  destruct (sorted_distinct (users db)) as (Hnu & Hinu & Hordu).
  destruct (sorted_distinct (movies db)) as (Hnm & Hinm & Hordm).
  unfold load_rating_matrix_from_mongodb.
  rewrite (loop_appends _ _ (interactions db) [] [] []). cbn [app].
  set (uids := sorted (distinct (users db))) in *.
  set (mids := sorted (distinct (movies db))) in *.
  set (ps := omap (kept_position (index_of uids) (index_of mids)) (interactions db)).
  pose proof (kept_in_range uids mids (interactions db) Hnu Hnm) as Hrange.
  fold ps in Hrange.
  unfold csr_matrix.
  rewrite !length_fmap, length_replicate, !Nat.eqb_refl. cbn [andb negb].
  assert (Hrows : forallb (fun i => i <? fst (length uids, length mids)) ps.*1 = true).
  { apply forallb_forall. intros i Hi. apply list_elem_of_In, list_elem_of_fmap in Hi
      as (p & -> & Hp).
    rewrite Forall_forall in Hrange. apply Hrange in Hp.
    apply Nat.ltb_lt. cbn. lia. }
  assert (Hcols : forallb (fun j => j <? snd (length uids, length mids)) ps.*2 = true).
  { apply forallb_forall. intros j Hj. apply list_elem_of_In, list_elem_of_fmap in Hj
      as (p & -> & Hp).
    rewrite Forall_forall in Hrange. apply Hrange in Hp.
    apply Nat.ltb_lt. cbn. lia. }
  rewrite Hrows, Hcols. cbn [negb].
  eexists. split; [reflexivity|]. cbn [Neural.rm_shape Neural.rm_entry].
  split; [reflexivity|].
  split; [exact Hinu|]. split; [exact Hinm|].
  split; [exact Hordu|]. split; [exact Hordm|].
  intros r c u m Hr Hc. rewrite coo_sum_ones. unfold ps.
  rewrite (kept_count uids mids (interactions db) r c u m Hnu Hnm Hr Hc).
  reflexivity.
Qed.

End RatingMatrix.

(** ** The request handler *)

Section RestoreFailure.

Variable v : variant.




End RestoreFailure.

Ltac in_list := repeat first [apply list_elem_of_here | apply list_elem_of_further].

Section ApiFacts.

Context (int_of_str : string -> option Z).
Context {EASE_t ItemKNN_t : Type}.
Context (ease : ScoringModel EASE_t) (knn : ScoringModel ItemKNN_t).
Context (np : numpy).

Abbreviation state := (RecommenderWrapper.t EASE_t ItemKNN_t * world)%type.
Abbreviation handler := (Api.recommend int_of_str ease knn np).
Abbreviation serve := (Api.serve ease knn np).

Lemma ints_of_ints (ctx : list Z) : Api.ints int_of_str (Api.JInt <$> ctx) = inr ctx.
Proof. induction ctx as [|z ctx IH]; [reflexivity|]. cbn. cbn in IH. rewrite IH. reflexivity. Qed.

Lemma dict_get_nonempty (d : list (string * Api.json)) (key : string) (x : Api.json) :
  Api.dict_get d key = Some x -> d <> [].
Proof. intros H ->. discriminate. Qed.

(** A well-formed request passes every check. *)
Lemma handler_well_formed (avail : bool) (d : list (string * Api.json)) (ctx : list Z)
    (name : string) (s : state) :
  Api.request_of d ctx name -> name ∈ Api.valid_models ->
  handler avail (Api.JDict d) s = serve avail name ctx s.
Proof.
  intros (Hctx & Hmodel & Hne) Hvalid.
  unfold Api.recommend, Api.checked.
  cbn [Api.truthy Api.contains Api.getitem Api.len].
  rewrite bool_decide_eq_false_2 by exact (dict_get_nonempty d _ _ Hctx). cbn [negb].
  rewrite Hctx, Hmodel.
  rewrite !bool_decide_eq_true_2 by eauto. cbn [Api.truthy Api.len].
  rewrite bool_decide_eq_false_2 by (destruct ctx; [contradiction|discriminate]).
  cbn [negb]. rewrite length_fmap.
  destruct ctx as [|z ctx]; [contradiction|]. cbn [length Nat.eqb].
  cbn [Api.iter]. rewrite ints_of_ints. reflexivity.
Qed.

Lemma checked_answer_400 (data : Api.json) (a : Api.response) :
  Api.checked data = inr (inl a) -> Api.status a = 400.
Proof.
  unfold Api.checked. intros H.
  repeat (case_match; try discriminate); injection H as <-; reflexivity.
Qed.

Lemma answer_status (name : string) (r : exn + list Z) :
  Api.status (Api.answer name r) ∈ [200; 404; 500; 503] /\
  Api.status (Api.answer name r) <> 400 /\
  Api.answer name r <> Api.internal_error.
Proof.
  destruct r as [[]|[|z res]]; cbn; (split; [in_list|split; [lia|discriminate]]).
Qed.

Lemma serve_unfold (avail : bool) (name : string) (ctx : list Z) (s : state) :
  serve avail name ctx s
  = match RecommenderWrapper.set_model ease knn avail name s with
    | (inl e, s1) => (Api.answer name (inl e), s1)
    | (inr _, s1) =>
        (Api.answer name (fst (RecommenderWrapper.recommend ease knn np ctx s1)),
         snd (RecommenderWrapper.recommend ease knn np ctx s1))
    end.
Proof.
  unfold Api.serve. munfold.
  destruct (RecommenderWrapper.set_model ease knn avail name s) as [[e|[]] s1];
    [reflexivity|].
  destruct (RecommenderWrapper.recommend ease knn np ctx s1) as [r s2]. reflexivity.
Qed.

(** X15. The handler always answers, with one of the statuses 200, 400,
    404, 500 and 503. An answer 400, and the answer [INTERNAL_ERROR],
    leave the wrapper and the environment exactly as they were: no model
    is constructed or restored for a request that fails a check. A body
    that is a dictionary with a non-empty list of integers as context and
    one of the four names as model is never answered 400. *)
Theorem handler_rejects_without_effect (avail : bool) (data : Api.json) (s : state) :
  Api.status (fst (handler avail data s)) ∈ [200; 400; 404; 500; 503] /\
  (Api.status (fst (handler avail data s)) = 400 -> snd (handler avail data s) = s) /\
  (fst (handler avail data s) = Api.internal_error -> snd (handler avail data s) = s) /\
  (forall d ctx name, data = Api.JDict d -> Api.request_of d ctx name ->
     name ∈ Api.valid_models -> Api.status (fst (handler avail data s)) <> 400).
Proof.
  assert (Hserve : forall name ctx,
    Api.status (fst (serve avail name ctx s)) ∈ [200; 404; 500; 503] /\
    Api.status (fst (serve avail name ctx s)) <> 400 /\
    fst (serve avail name ctx s) <> Api.internal_error).
  { intros name ctx. rewrite serve_unfold.
    destruct (RecommenderWrapper.set_model ease knn avail name s) as [[e|u] s1];
      cbn [fst]; apply answer_status. }
  split; [|split; [|split]].
  - unfold Api.recommend.
    destruct (Api.checked data) as [e|[a|[uc name]]] eqn:Hchecked; cbn [fst].
    + in_list.
    + rewrite (checked_answer_400 data a Hchecked). in_list.
    + destruct (Api.iter uc) as [e|items]; [in_list|].
      destruct (Api.ints int_of_str items) as [[[]| |]|ctx]; cbn [fst]; try solve [in_list].
      destruct (Hserve name ctx) as [H _]. revert H.
      rewrite !elem_of_cons, !elem_of_nil. tauto.
  - unfold Api.recommend.
    destruct (Api.checked data) as [e|[a|[uc name]]]; [reflexivity..|].
    destruct (Api.iter uc) as [e|items]; [reflexivity|].
    destruct (Api.ints int_of_str items) as [[[]| |]|ctx]; try reflexivity.
    intros H. destruct (Hserve name ctx) as (_ & Hne & _). contradiction.
  - unfold Api.recommend.
    destruct (Api.checked data) as [e|[a|[uc name]]]; [reflexivity..|].
    destruct (Api.iter uc) as [e|items]; [reflexivity|].
    destruct (Api.ints int_of_str items) as [[[]| |]|ctx]; try reflexivity.
    intros H. destruct (Hserve name ctx) as (_ & _ & Hne). contradiction.
  - intros d ctx name -> Hreq Hvalid.
    rewrite (handler_well_formed avail d ctx name s Hreq Hvalid).
    apply Hserve.
Qed.

End ApiFacts.

Section WrapperOnFiles.

Context {EASE_t ItemKNN_t : Type}.
Context (ease : ScoringModel EASE_t) (knn : ScoringModel ItemKNN_t).

Abbreviation set_model_t := (RecommenderWrapper.set_model ease knn true).


(** The same, when the registered path does not exist. *)
Lemma set_model_neural_missing (v : variant)
    (self : RecommenderWrapper.t EASE_t ItemKNN_t) (w : world) :
  RecommenderWrapper.model_name self <> Some (cls_name v) ->
  fs w !! registered_path v = None ->
  set_model_t (cls_name v) (self, w)
  = (inl (RecommenderWrapper.checkpoint_missing (registered_path v) (cls_name v)),
     ({| RecommenderWrapper.model_name := Some (cls_name v);
         RecommenderWrapper.model := Some (next_id w, neural_instance v Neural.new) |},
      {| fs := fs w; calls := calls w ++ [CallNew (cls_name v) (next_id w)];
         next_id := S (next_id w); init_score := init_score w |})).
Proof.
  intros Hne Hfile.
  destruct (registered_neural v) as (Hreg & Hckpt & Hstr).
  remember true as avail eqn:Havail. clear Havail.
  unfold RecommenderWrapper.set_model. munfold.
  rewrite bool_decide_eq_true_2 by exact Hne. simpl.
  rewrite bool_decide_eq_false_2 by (rewrite Hreg; discriminate).
  unfold RecommenderWrapper.getitem, RecommenderWrapper.construct. munfold.
  rewrite Hreg, Hckpt. simpl.
  unfold path_exists. simpl. rewrite Hfile.
  rewrite bool_decide_eq_false_2 by (intros [x Hx]; discriminate). simpl.
  rewrite Hstr. destruct v; reflexivity.
Qed.

End WrapperOnFiles.

Lemma neural_names_valid (v : variant) : cls_name v ∈ Api.valid_models.
Proof. destruct v; in_list. Qed.

Lemma loadable_restored (v : variant) (ck : checkpoint) (fresh : Neural.t) :
  loadable v ck ->
  restored (restored_from ck fresh)
    {| md_dropout := ck_dropout ck; md_state := ck_model_state_dict ck |}.
Proof.
  intros (_ & _ & _ & _ & Hnu & Hni & _). repeat split; cbn; assumption.
Qed.

Section ApiOnFiles.

Context (int_of_str : string -> option Z).
Context {EASE_t ItemKNN_t : Type}.
Context (ease : ScoringModel EASE_t) (knn : ScoringModel ItemKNN_t).
Context (np : numpy).

Abbreviation wrapper_state := (RecommenderWrapper.t EASE_t ItemKNN_t * world)%type.
Abbreviation handle := (Api.recommend int_of_str ease knn np).

(** The handler on a request for a neural class whose registered path
    holds a loadable checkpoint. *)
Lemma handler_loadable (v : variant) (ck : checkpoint) (d : list (string * Api.json))
    (ctx : list Z) (self : RecommenderWrapper.t EASE_t ItemKNN_t) (w : world) :
  Api.request_of d ctx (cls_name v) ->
  RecommenderWrapper.model_name self <> Some (cls_name v) ->
  fs w !! registered_path v = Some (FCheckpoint ck) -> loadable v ck ->
  exists w1,
    fs w1 = fs w /\
    handle true (Api.JDict d) (self, w)
    = (Api.answer (cls_name v)
         (fst (Neural.recommend np (restored_from ck Neural.new) ctx 10 w1)),
       ({| RecommenderWrapper.model_name := Some (cls_name v);
           RecommenderWrapper.model :=
             Some (next_id w, neural_instance v (restored_from ck Neural.new)) |},
        snd (Neural.recommend np (restored_from ck Neural.new) ctx 10 w1))).
Proof.
  intros Hreq Hne Hfile Hload.
  rewrite (handler_well_formed int_of_str ease knn np true d ctx (cls_name v) (self, w)
             Hreq (neural_names_valid v)).
  rewrite serve_unfold.
  rewrite (set_model_neural_loads ease knn v ck self w Hne Hfile Hload).
  rewrite wrapper_recommend_neural. cbn [fst snd].
  eexists. split; [|reflexivity]. reflexivity.
Qed.


(** X17. With PyTorch installed and a sound NumPy, a well-formed request
    for a neural class that is not the recorded one, whose registered
    path holds a loadable checkpoint,
    with at least one user, a context of valid indices and at least ten
    items beside the context, is answered 200 with exactly ten item ids:
    they are pairwise distinct items of the model, none of them is in the
    context, and the answer names the model and the count 10. *)
Theorem handler_recommends_ten_new_items
    (np_ok : numpy_ok np) (v : variant) (ck : checkpoint) (d : list (string * Api.json))
    (ctx : list Z) (self : RecommenderWrapper.t EASE_t ItemKNN_t) (w : world) :
  Api.request_of d ctx (cls_name v) ->
  RecommenderWrapper.model_name self <> Some (cls_name v) ->
  fs w !! registered_path v = Some (FCheckpoint ck) -> loadable v ck ->
  0 < ck_num_users ck -> valid_context (ck_num_items ck) ctx ->
  10 + length ctx <= ck_num_items ck ->
  exists res,
    fst (handle true (Api.JDict d) (self, w))
      = {| Api.status := 200;
           Api.body := [("result", Api.JList (Api.JInt <$> (Z.of_nat <$> res)));
                        ("model", Api.JStr (cls_name v));
                        ("count", Api.JInt 10)] |} /\
    length res = 10 /\ NoDup res /\
    forall r, r ∈ res -> r < ck_num_items ck /\ Z.of_nat r ∉ ctx.
Proof.
  intros Hreq Hne Hfile Hload Husers Hvalid Hroom.
  destruct (handler_loadable v ck d ctx self w Hreq Hne Hfile Hload) as (w1 & _ & Hrun).
  rewrite Hrun. cbn [fst].
  destruct Hreq as (_ & _ & Hctx).
  destruct (recommend_selects_outside_context np np_ok (restored_from ck Neural.new)
              {| md_dropout := ck_dropout ck; md_state := ck_model_state_dict ck |}
              ctx 10 w1 (loadable_restored v ck Neural.new Hload))
    as (res & Hres & Hlen & Hnd & Hout & _); try assumption; try (cbn; lia).
  rewrite Hres. exists res.
  split; [|split; [exact Hlen|split; [exact Hnd|]]].
  - unfold Api.answer, Api.recommendations, Api.jsonify.
    rewrite !length_fmap, Hlen.
    destruct res as [|r res]; [discriminate|]. reflexivity.
  - intros r Hr. destruct (Hout r Hr) as (Hlt & _ & Hnot). split; assumption.
Qed.

(** X18. With PyTorch installed, a well-formed request for a neural class
    whose registered path does not exist is answered 503; the same
    request again is answered 500 with the details "Model not loaded.
    Call restore() first.", and it stays so whatever the files have
    become: the wrapper does not load the checkpoint again until another
    model has been requested. *)
Theorem handler_failed_load_is_not_retried (v : variant) (d : list (string * Api.json))
    (ctx : list Z) (self : RecommenderWrapper.t EASE_t ItemKNN_t) (w : world) :
  Api.request_of d ctx (cls_name v) ->
  RecommenderWrapper.model_name self <> Some (cls_name v) ->
  fs w !! registered_path v = None ->
  exists self1 w1,
    handle true (Api.JDict d) (self, w)
      = (Api.model_checkpoint_missing (cls_name v), (self1, w1)) /\
    forall w2,
      handle true (Api.JDict d) (self1, w2)
        = (Api.recommendation_error Neural.not_loaded, (self1, w2)) /\
      Api.status (fst (handle true (Api.JDict d) (self1, w2))) = 500.
Proof.
  intros Hreq Hne Hfile. eexists. eexists. split.
  - rewrite (handler_well_formed int_of_str ease knn np true d ctx (cls_name v) (self, w)
               Hreq (neural_names_valid v)).
    rewrite serve_unfold, (set_model_neural_missing ease knn v self w Hne Hfile).
    reflexivity.
  - intros w2.
    rewrite (handler_well_formed int_of_str ease knn np true d ctx (cls_name v) _
               Hreq (neural_names_valid v)).
    rewrite serve_unfold, set_model_recorded_name by reflexivity.
    rewrite wrapper_recommend_neural. split; reflexivity.
Qed.

(** X19. Without PyTorch, a well-formed request for a neural class that
    is not the recorded one is answered 404 and records the name, leaving
    the slot as it was. The same request again is then answered by the
    object that was in the slot, under the name of the neural class, or
    500 with "No model loaded. Call set_model() first." when the slot was
    empty. *)
Theorem handler_unavailable_class_then_previous_model
    (v : variant) (d : list (string * Api.json)) (ctx : list Z)
    (self : RecommenderWrapper.t EASE_t ItemKNN_t) (w : world) :
  Api.request_of d ctx (cls_name v) ->
  RecommenderWrapper.model_name self <> Some (cls_name v) ->
  let self1 := RecommenderWrapper.set_model_name (Some (cls_name v)) self in
  handle false (Api.JDict d) (self, w) = (Api.model_not_found (cls_name v), (self1, w)) /\
  (RecommenderWrapper.model self = None ->
     forall w2, handle false (Api.JDict d) (self1, w2)
                = (Api.recommendation_error RecommenderWrapper.no_model_loaded, (self1, w2))) /\
  (forall id obj, RecommenderWrapper.model self = Some (id, obj) ->
     forall w2,
       fst (handle false (Api.JDict d) (self1, w2))
       = Api.answer (cls_name v)
           (fst (RecommenderWrapper.instance_recommend ease knn np obj ctx w2))).
Proof.
  intros Hreq Hne. cbv zeta.
  assert (Hunreg : model_to_cls false !! cls_name v = None) by (destruct v; reflexivity).
  split; [|split].
  - rewrite (handler_well_formed int_of_str ease knn np false d ctx (cls_name v) (self, w)
               Hreq (neural_names_valid v)).
    rewrite serve_unfold, (set_model_unregistered ease knn false _ self w Hne Hunreg).
    reflexivity.
  - intros Hslot w2.
    rewrite (handler_well_formed int_of_str ease knn np false d ctx (cls_name v) _
               Hreq (neural_names_valid v)).
    rewrite serve_unfold, set_model_recorded_name by reflexivity.
    unfold RecommenderWrapper.recommend. munfold. cbn. rewrite Hslot. reflexivity.
  - intros id obj Hslot w2.
    rewrite (handler_well_formed int_of_str ease knn np false d ctx (cls_name v) _
               Hreq (neural_names_valid v)).
    rewrite serve_unfold, set_model_recorded_name by reflexivity.
    unfold RecommenderWrapper.recommend. munfold. cbn. rewrite Hslot.
    rewrite list_fmap_id.
    destruct (RecommenderWrapper.instance_recommend ease knn np obj ctx w2). reflexivity.
Qed.

(** X20. With PyTorch installed, a well-formed request for a neural class
    that is not the recorded one, whose registered path holds a loadable
    checkpoint with at least one user, and whose context of 64-bit integers holds one outside
    [-numItems, numItems), is answered 500 [RECOMMENDATION_ERROR] with
    the text of the [IndexError] for the first such integer as details. *)
Theorem handler_unknown_item
    (v : variant) (ck : checkpoint) (d : list (string * Api.json))
    (pre post : list Z) (i : Z) (self : RecommenderWrapper.t EASE_t ItemKNN_t) (w : world) :
  Api.request_of d (pre ++ i :: post) (cls_name v) ->
  RecommenderWrapper.model_name self <> Some (cls_name v) ->
  fs w !! registered_path v = Some (FCheckpoint ck) -> loadable v ck ->
  0 < ck_num_users ck -> Forall int64 (pre ++ i :: post) ->
  valid_context (ck_num_items ck) pre ->
  (i < - Z.of_nat (ck_num_items ck) \/ Z.of_nat (ck_num_items ck) <= i)%Z ->
  fst (handle true (Api.JDict d) (self, w))
    = {| Api.status := 500;
         Api.body := [("error", Api.JStr "RECOMMENDATION_ERROR");
                      ("message", Api.JStr "Failed to generate recommendations");
                      ("details",
                       Api.JStr ("index " +:+ str_Z i +:+
                                 " is out of bounds for axis 0 with size "
                                 +:+ str_nat (ck_num_items ck)))] |}.
Proof.
  intros Hreq Hne Hfile Hload Husers _ Hpre Hi.
  destruct (handler_loadable v ck d (pre ++ i :: post) self w Hreq Hne Hfile Hload)
    as (w1 & _ & Hrun).
  rewrite Hrun. cbn [fst].
  destruct (recommend_first_invalid_index np (restored_from ck Neural.new)
              {| md_dropout := ck_dropout ck; md_state := ck_model_state_dict ck |}
              pre post i 10 w1 (loadable_restored v ck Neural.new Hload))
    as (w' & Hrec & _); try assumption.
  cbn [restored_from Neural.num_items] in Hrec. rewrite Hrec. reflexivity.
Qed.

End ApiOnFiles.

Lemma request_of_demo (ctx : list Z) (name : string) :
  ctx <> [] -> Api.request_of (ApiDemo.request ctx name) ctx name.
Proof. intros Hctx. repeat split. exact Hctx. Qed.

Lemma catalogue_loadable : loadable VNeuralMF (ApiDemo.catalogue_checkpoint VNeuralMF).
Proof.
  split; [reflexivity|]. split; [intros _; discriminate|].
  split; [intros _; split; unfold Qle; cbn; lia|].
  repeat split.
Qed.


Lemma handler_recommends_ten_new_items_witness :
  exists res,
    fst (ApiDemo.handler true (Api.JDict (ApiDemo.request [0; 1]%Z "NeuralMF"))
           (Demo.wrapper_new, ApiDemo.catalogue_world))
      = {| Api.status := 200;
           Api.body := [("result", Api.JList (Api.JInt <$> (Z.of_nat <$> res)));
                        ("model", Api.JStr "NeuralMF");
                        ("count", Api.JInt 10)] |} /\
    length res = 10 /\ NoDup res /\
    forall r, r ∈ res -> r < 12 /\ Z.of_nat r ∉ [0; 1]%Z.
Proof.
  apply (handler_recommends_ten_new_items ApiDemo.no_int_of_str absent_model absent_model
           numpy_ref numpy_ref_ok VNeuralMF (ApiDemo.catalogue_checkpoint VNeuralMF)
           (ApiDemo.request [0; 1]%Z "NeuralMF") [0; 1]%Z Demo.wrapper_new
           ApiDemo.catalogue_world).
  - apply request_of_demo. discriminate.
  - discriminate.
  - reflexivity.
  - apply catalogue_loadable.
  - cbn. lia.
  - intros i Hi. apply elem_of_cons in Hi as [->|Hi]; [cbn; lia|].
    apply elem_of_cons in Hi as [->|Hi]; [cbn; lia|]. inversion Hi.
  - cbn. lia.
Defined.

Lemma handler_failed_load_is_not_retried_witness :
  exists self1 w1,
    ApiDemo.handler true (Api.JDict (ApiDemo.request [0; 1]%Z "DeepFM"))
        (Demo.wrapper_new, Demo.no_files)
      = (Api.model_checkpoint_missing "DeepFM", (self1, w1)) /\
    forall w2,
      ApiDemo.handler true (Api.JDict (ApiDemo.request [0; 1]%Z "DeepFM")) (self1, w2)
        = (Api.recommendation_error Neural.not_loaded, (self1, w2)) /\
      Api.status (fst (ApiDemo.handler true
                         (Api.JDict (ApiDemo.request [0; 1]%Z "DeepFM")) (self1, w2))) = 500.
Proof.
  apply (handler_failed_load_is_not_retried ApiDemo.no_int_of_str absent_model absent_model
           numpy_ref VDeepFM (ApiDemo.request [0; 1]%Z "DeepFM") [0; 1]%Z Demo.wrapper_new
           Demo.no_files).
  - apply request_of_demo. discriminate.
  - discriminate.
  - reflexivity.
Defined.

Lemma handler_unavailable_class_then_previous_model_witness :
  ApiDemo.handler false (Api.JDict (ApiDemo.request [0; 1]%Z "NeuralMF"))
      (Demo.wrapper_new, Demo.neuralmf_trained)
    = (Api.model_not_found "NeuralMF",
       (RecommenderWrapper.set_model_name (Some "NeuralMF") Demo.wrapper_new,
        Demo.neuralmf_trained)) /\
  forall w2,
    ApiDemo.handler false (Api.JDict (ApiDemo.request [0; 1]%Z "NeuralMF"))
        (RecommenderWrapper.set_model_name (Some "NeuralMF") Demo.wrapper_new, w2)
      = (Api.recommendation_error RecommenderWrapper.no_model_loaded,
         (RecommenderWrapper.set_model_name (Some "NeuralMF") Demo.wrapper_new, w2)).
Proof.
  destruct (handler_unavailable_class_then_previous_model ApiDemo.no_int_of_str
              absent_model absent_model numpy_ref VNeuralMF
              (ApiDemo.request [0; 1]%Z "NeuralMF") [0; 1]%Z Demo.wrapper_new
              Demo.neuralmf_trained) as (Hfirst & Hempty & _).
  - apply request_of_demo. discriminate.
  - discriminate.
  - split; [exact Hfirst|]. apply Hempty. reflexivity.
Defined.

Lemma handler_unknown_item_witness :
  fst (ApiDemo.handler true (Api.JDict (ApiDemo.request ([0; 1] ++ 7 :: [2])%Z "NeuralMF"))
         (Demo.wrapper_new, Demo.neuralmf_trained))
    = {| Api.status := 500;
         Api.body := [("error", Api.JStr "RECOMMENDATION_ERROR");
                      ("message", Api.JStr "Failed to generate recommendations");
                      ("details",
                       Api.JStr "index 7 is out of bounds for axis 0 with size 5")] |}.
Proof.
  apply (handler_unknown_item ApiDemo.no_int_of_str absent_model absent_model numpy_ref
           VNeuralMF (Demo.demo_checkpoint VNeuralMF)
           (ApiDemo.request ([0; 1] ++ 7 :: [2])%Z "NeuralMF") [0; 1]%Z [2%Z] 7
           Demo.wrapper_new Demo.neuralmf_trained).
  - apply request_of_demo. discriminate.
  - discriminate.
  - reflexivity.
  - apply demo_checkpoint_loadable.
  - cbn. lia.
  - repeat constructor; unfold int64; lia.
  - apply valid_context_demo.
  - cbn. lia.
Defined.
